(** * cp-bot: the verification protocol and the role jobs, embedded in Rocq

    The development follows the TypeScript sources of the bot:

    - [src/utils/time.ts]                   -> [Module Time]
    - [src/services/codeforces.service.ts]  -> [Module CodeforcesService]
    - [src/services/supabase.ts]            -> [Module Supabase]
    - [src/utils/randomProblem.ts]          -> [Module RandomProblem]
    - [src/utils/roleManager.ts]            -> [Module RoleManager]
    - [src/commands/verify.ts]              -> [Module Verify]
    - [src/utils/roleSync.ts]               -> [Module RoleSync]
    - [src/commands/link.ts]                -> [Module Link]
    - [src/commands/setup.ts]               -> [Module Setup]
    - [src/commands/leaderboard.ts]         -> [Module Leaderboard]
    - [src/services/supabase.client.js]     -> [Module SupabaseClient]

    Asynchronous functions are written in a state-and-exception monad over
    a [World] (the tables of the store, the Discord role assignments, the
    module-level variables of the sources).  What the outside decides (the
    clock, the answers of the Codeforces API, the faults of the Discord
    API, the random draws) is read from an [Env] of oracles, indexed by
    the number of readings made so far, so that two calls with the same
    arguments may be answered differently.

    The embedding comes first; [Module Spec] holds the notions the
    statements use and [Module Fixtures] the worlds the examples run on.
    The properties follow, grouped by source file. *)

From Stdlib Require Import ZArith List String Ascii QArith Qround Lia.
From stdpp Require Import gmap strings list fin_maps pretty.

Local Open Scope string_scope.
Local Open Scope Z_scope.
Local Open Scope list_scope.

(** ** JavaScript values the sources rely on *)

Module Js.

(** A thrown value: an [Error] object (with the optional numeric [code]
    that [DiscordAPIError] carries) or anything else. *)
Inductive thrown : Type :=
| ErrorObj (message : string) (code : option Z)
| NonError (text : string).

(** [new Error(msg)] *)
Definition Error (msg : string) : thrown := ErrorObj msg None.

(** [error instanceof Error ? error.message : "Unknown error"] *)
Definition errorMessage (e : thrown) : string :=
  match e with
  | ErrorObj m _ => m
  | NonError _ => "Unknown error"
  end.

Definition is_lower (c : ascii) : bool :=
  let n := nat_of_ascii c in (97 <=? n)%nat && (n <=? 122)%nat.

Definition is_upper (c : ascii) : bool :=
  let n := nat_of_ascii c in (65 <=? n)%nat && (n <=? 90)%nat.

Definition upper_char (c : ascii) : ascii :=
  if is_lower c then ascii_of_nat (nat_of_ascii c - 32) else c.

Definition lower_char (c : ascii) : ascii :=
  if is_upper c then ascii_of_nat (nat_of_ascii c + 32) else c.

(** A string of the model is a string of ASCII characters when every
    character lies below 128. *)
Definition is_ascii_char (c : ascii) : bool :=
  (nat_of_ascii c <? 128)%nat.

Fixpoint is_ascii (s : string) : bool :=
  match s with
  | EmptyString => true
  | String c s' => is_ascii_char c && is_ascii s'
  end.

(** [String.prototype.toUpperCase] and [toLowerCase] on strings of ASCII
    characters, where they change the 26 letters and nothing else.  On
    other characters the functions of the source follow the case
    mappings of Unicode (the dotless i becomes I, the sharp s becomes
    SS), which these definitions do not: they leave such characters
    alone.  The statements below either use the two functions as the
    source does, without relying on what they compute, or are stated
    for strings of ASCII characters ([is_ascii]). *)
Fixpoint toUpperCase (s : string) : string :=
  match s with
  | EmptyString => EmptyString
  | String c s' => String (upper_char c) (toUpperCase s')
  end.

Fixpoint toLowerCase (s : string) : string :=
  match s with
  | EmptyString => EmptyString
  | String c s' => String (lower_char c) (toLowerCase s')
  end.

(** Truthiness of a string: the empty string is falsy. *)
Definition truthy (s : string) : bool :=
  match s with EmptyString => false | _ => true end.

(** Truthiness of an optional string ([undefined], [null] and the empty
    string are falsy). *)
Definition truthy_opt (o : option string) : bool :=
  match o with Some s => truthy s | None => false end.

(** [a || b] on an optional string and a default. *)
Definition or_else (o : option string) (d : string) : string :=
  match o with
  | Some s => if truthy s then s else d
  | None => d
  end.

(** The integers that a number of JavaScript holds exactly, and that a
    template literal and [parseInt] spell in full: those strictly
    between -2^53 and 2^53. *)
Definition is_safe_integer (z : Z) : bool :=
  (- 2 ^ 53 <? z) && (z <? 2 ^ 53).

(** A number inside a template literal; the numbers printed by the bot
    are integers.  The decimal digits are what the source prints for
    the integers that are safe ([is_safe_integer]); from 2^53 on a
    number of the source need not be the integer meant, and from 10^21
    on it is printed with an exponent.  The statements that depend on
    the digits are stated for safe integers. *)
Definition show (z : Z) : string := pretty z.

(** The double-quote character, as a string. *)
Definition dq : string := String (ascii_of_nat 34) EmptyString.

(** An optional string inside a template literal. *)
Definition show_opt (o : option string) : string :=
  match o with Some s => s | None => "undefined" end.

(** The line feed, as a string. *)
Definition nl : string := String (ascii_of_nat 10) EmptyString.

(** [error instanceof Error ? error.message : "An unexpected error occurred."] *)
Definition errorMessage_or_unexpected (e : thrown) : string :=
  match e with
  | ErrorObj m _ => m
  | NonError _ => "An unexpected error occurred."
  end.

End Js.

(** ** Records of [src/types/types.ts] *)

Module CodeforcesUser.
Record t : Type := mk {
  handle : string;
  rank : option string;
  rating : option Z;
  maxRank : option string;
  maxRating : option Z;
  avatar : option string;
  titlePhoto : option string
}.
End CodeforcesUser.

Module UserInfo.
Record t : Type := mk {
  handle : string;
  rank : string;
  rating : Z;
  maxRank : string;
  maxRating : Z;
  avatar : option string;
  titlePhoto : option string
}.
End UserInfo.

(** A problem of the catalogue ([CodeforcesProblem] of randomProblem.ts,
    which extends the one of types.ts with the optional rating). *)
Module CodeforcesProblem.
Record t : Type := mk {
  contestId : Z;
  index : string;
  name : string;
  rating : option Z
}.
End CodeforcesProblem.

Module CodeforcesSubmission.
Record t : Type := mk {
  id : Z;
  problem : CodeforcesProblem.t;
  verdict : option string;
  creationTimeSeconds : Z;
  programmingLanguage : string
}.
End CodeforcesSubmission.

Module Submission.
Record t : Type := mk {
  id : Z;
  contestId : Z;
  problemIndex : string;
  problemName : string;
  verdict : option string;
  creationTimeSeconds : Z;
  programmingLanguage : string
}.
End Submission.

Module VerificationResult.
Record t : Type := mk {
  verified : bool;
  submission : option Submission.t;
  message : string
}.
End VerificationResult.

(** Rows of the store.  A timestamp column is kept as the number of
    milliseconds that [new Date(column).getTime()] yields; a UUID as the
    rank of its generation. *)
Module PendingVerification.
Record t : Type := mk {
  id : nat;
  discord_user_id : string;
  guild_id : string;
  username : string;
  problem_id : string;
  problem_url : string;
  problem_name : option string;
  expires_at : Z;
  started_at : option Z
}.
End PendingVerification.

Module LinkedAccounts.
Record t : Type := mk {
  id : nat;
  discord_user_id : string;
  guild_id : string;
  username : string;
  verified : bool;
  verified_at : option Z;
  rank : option string
}.
End LinkedAccounts.

Module GuildConfig.
Record t : Type := mk {
  guild_id : string;
  verified_role_id : option string;
  rank_role_map : option (gmap string string)
}.
End GuildConfig.

(** [{status, result?, comment?}], the body of every Codeforces answer. *)
Module CodeforcesApiResponse.
Record t (T : Type) : Type := mk {
  status : string;
  result : option T;
  comment : option string
}.
Arguments mk {T}.
Arguments status {T}.
Arguments result {T}.
Arguments comment {T}.
End CodeforcesApiResponse.

(** How an [axios.get] settles. *)
Inductive AxiosOutcome (T : Type) : Type :=
| Fulfilled (data : CodeforcesApiResponse.t T)
    (** a 2xx answer *)
| AxiosResponseError (comment : option string) (message : string)
    (** [AxiosError] with [error.response]: [response.data?.comment] and
        [error.message] *)
| AxiosNoResponse (code : string) (message : string)
    (** [AxiosError] without a response; [code] is ["ECONNABORTED"] on a
        timeout *)
| AxiosOther (e : Js.thrown).
Arguments Fulfilled {T}.
Arguments AxiosResponseError {T}.
Arguments AxiosNoResponse {T}.
Arguments AxiosOther {T}.

(** A guild member as the role manager sees it. *)
Module GuildMember.
Record t : Type := mk {
  guild : string;
  user : string
}.
End GuildMember.

(** [SyncResults] of roleSync.ts. *)
Module SyncResults.
Record t : Type := mk {
  totalProcessed : Z;
  rolesUpdated : Z;
  errors : list string;
  skipped : Z
}.
End SyncResults.

(** ** The world and its oracles *)

Record Env : Type := {
  (** what [Date.now()] returns at the n-th reading *)
  clock : nat -> Z;
  (** the offset of the local time of the process from UTC, in
      milliseconds: [localTZA t true] at the instant [t], and
      [localTZA t false] at the instant whose local time reads [t] *)
  localTZA : Z -> bool -> Z;
  (** what [Math.random()] returns at the n-th reading *)
  random : nat -> Q;
  (** [GET /user.status?handle=&from=&count=] *)
  user_status :
    nat -> string -> Z -> Z -> AxiosOutcome (list CodeforcesSubmission.t);
  (** [GET /user.info?handles=] *)
  user_info : nat -> string -> AxiosOutcome (list CodeforcesUser.t);
  (** [GET /problemset.problems] *)
  problemset_problems : nat -> AxiosOutcome (list CodeforcesProblem.t);
  (** a fault of the Discord API on [member.roles.add] *)
  roles_add_fault : nat -> GuildMember.t -> string -> option Js.thrown;
  (** a fault of the Discord API on [member.roles.remove] *)
  roles_remove_fault :
    nat -> GuildMember.t -> gset string -> option Js.thrown;
  (** a fault of the Discord API on [guild.members.fetch], other than the
      member being unknown *)
  members_fetch_fault : nat -> string -> string -> option Js.thrown
}.

Record World : Type := mkWorld {
  (** number of oracle readings made so far *)
  steps : nat;
  (** [lastRequestTime] of codeforces.service.ts *)
  lastRequestTime : Z;
  (** [cfProblemsCache] and [cfCacheTimestamp] of randomProblem.ts *)
  cfProblemsCache : option (list CodeforcesProblem.t);
  cfCacheTimestamp : option Z;
  (** the tables of the store *)
  pending_verifications : list PendingVerification.t;
  linked_accounts : list LinkedAccounts.t;
  guild_config : gmap string GuildConfig.t;
  (** next value of the UUID generator *)
  next_uuid : nat;
  (** the guilds the client has cached, each with the ids of its roles *)
  guilds : gmap string (gset string);
  (** the roles held by each member, by (guild id, user id) *)
  member_roles : gmap (string * string) (gset string);
  (** the [results] object of the role sync in progress *)
  results : SyncResults.t
}.

Definition M (A : Type) : Type := World -> World * (Js.thrown + A).

Definition ret {A} (a : A) : M A := fun w => (w, inr a).

Definition throw {A} (e : Js.thrown) : M A := fun w => (w, inl e).

Definition bind {A B} (m : M A) (k : A -> M B) : M B :=
  fun w =>
    match m w with
    | (w', inl e) => (w', inl e)
    | (w', inr a) => k a w'
    end.

(** [try { body } catch (e) { handler e }]: what the body did to the world
    before throwing stays done. *)
Definition try_catch {A} (body : M A) (handler : Js.thrown -> M A) : M A :=
  fun w =>
    match body w with
    | (w', inl e) => handler e w'
    | (w', inr a) => (w', inr a)
    end.

(** A computation that has already settled. *)
Definition settled {A} (r : Js.thrown + A) : M A := fun w => (w, r).

Definition gets {A} (f : World -> A) : M A := fun w => (w, inr (f w)).

Definition modify (f : World -> World) : M unit := fun w => (f w, inr tt).

Notation "'let!' x ':=' m 'in' k" := (bind m (fun x => k))
  (at level 10, x name, m at level 100, k at level 200).
Notation "m1 '>>' m2" := (bind m1 (fun _ => m2))
  (at level 100, m2 at level 200, right associativity).

Definition set_steps (n : nat) (w : World) : World :=
  mkWorld n (lastRequestTime w) (cfProblemsCache w) (cfCacheTimestamp w)
    (pending_verifications w) (linked_accounts w) (guild_config w) (next_uuid w)
    (guilds w) (member_roles w) (results w).

Definition set_lastRequestTime (t : Z) (w : World) : World :=
  mkWorld (steps w) t (cfProblemsCache w) (cfCacheTimestamp w)
    (pending_verifications w) (linked_accounts w) (guild_config w) (next_uuid w)
    (guilds w) (member_roles w) (results w).

Definition set_cache (c : option (list CodeforcesProblem.t)) (t : option Z) (w : World) : World :=
  mkWorld (steps w) (lastRequestTime w) c t
    (pending_verifications w) (linked_accounts w) (guild_config w) (next_uuid w)
    (guilds w) (member_roles w) (results w).

Definition set_pending (l : list PendingVerification.t) (w : World) : World :=
  mkWorld (steps w) (lastRequestTime w) (cfProblemsCache w) (cfCacheTimestamp w)
    l (linked_accounts w) (guild_config w) (next_uuid w)
    (guilds w) (member_roles w) (results w).

Definition set_linked (l : list LinkedAccounts.t) (w : World) : World :=
  mkWorld (steps w) (lastRequestTime w) (cfProblemsCache w) (cfCacheTimestamp w)
    (pending_verifications w) l (guild_config w) (next_uuid w)
    (guilds w) (member_roles w) (results w).

Definition set_next_uuid (n : nat) (w : World) : World :=
  mkWorld (steps w) (lastRequestTime w) (cfProblemsCache w) (cfCacheTimestamp w)
    (pending_verifications w) (linked_accounts w) (guild_config w) n
    (guilds w) (member_roles w) (results w).

Definition set_member_roles (r : gmap (string * string) (gset string)) (w : World) : World :=
  mkWorld (steps w) (lastRequestTime w) (cfProblemsCache w) (cfCacheTimestamp w)
    (pending_verifications w) (linked_accounts w) (guild_config w) (next_uuid w)
    (guilds w) r (results w).

Definition set_results (r : SyncResults.t) (w : World) : World :=
  mkWorld (steps w) (lastRequestTime w) (cfProblemsCache w) (cfCacheTimestamp w)
    (pending_verifications w) (linked_accounts w) (guild_config w) (next_uuid w)
    (guilds w) (member_roles w) r.

Definition set_guild_config (c : gmap string GuildConfig.t) (w : World) : World :=
  mkWorld (steps w) (lastRequestTime w) (cfProblemsCache w) (cfCacheTimestamp w)
    (pending_verifications w) (linked_accounts w) c (next_uuid w)
    (guilds w) (member_roles w) (results w).

(** One reading of an oracle: the oracle is asked at the current index,
    and the index moves on. *)
Definition ask {A} (oracle : nat -> A) : M A :=
  fun w => (set_steps (S (steps w)) w, inr (oracle (steps w))).

(** [Date.now()], [new Date().getTime()] *)
Definition Date_now (env : Env) : M Z := ask (clock env).

(** [await new Promise((resolve) => setTimeout(resolve, ms))]: a wait has
    no effect of its own on the world; the time it takes shows in the next
    reading of the clock. *)
Definition sleep (ms : Z) : M unit := ret tt.

(** [for (const x of xs) { results.push(await f(x)) }] *)
Fixpoint for_each {A B} (f : A -> M B) (xs : list A) : M (list B) :=
  match xs with
  | [] => ret []
  | x :: xs' =>
      let! y := f x in
      let! ys := for_each f xs' in
      ret (y :: ys)
  end.

(** ** src/utils/time.ts *)

Module Time.

(** [VERIFICATION_TIMEOUT = parseInt(process.env.VERIFICATION_TIMEOUT!) || 10]:
    [None] stands for a variable that is unset or does not parse. *)
Definition VERIFICATION_TIMEOUT (configured : option Z) : Z :=
  match configured with
  | Some n => if Z.eqb n 0 then 10 else n
  | None => 10
  end.

(** The time values of [Date], in milliseconds since the epoch, and
    their fields. *)
Definition msPerSecond : Z := 1000.
Definition msPerMinute : Z := 60000.
Definition msPerHour : Z := 3600000.
Definition msPerDay : Z := 86400000.

Definition Day (t : Z) : Z := t / msPerDay.
Definition HourFromTime (t : Z) : Z := (t / msPerHour) mod 24.
Definition MinFromTime (t : Z) : Z := (t / msPerMinute) mod 60.
Definition SecFromTime (t : Z) : Z := (t / msPerSecond) mod 60.
Definition msFromTime (t : Z) : Z := t mod msPerSecond.

Definition MakeTime (hour min sec ms : Z) : Z :=
  hour * msPerHour + min * msPerMinute + sec * msPerSecond + ms.

Definition MakeDate (day time : Z) : Z := day * msPerDay + time.

(** The local time at an instant, and the instant at which the local
    time reads a given value. *)
Definition LocalTime (env : Env) (t : Z) : Z := t + localTZA env t true.
Definition UTC (env : Env) (t : Z) : Z := t - localTZA env t false.

(** [Date.prototype.getMinutes] and [setMinutes], on the time value of
    the date: both work on the fields of the local time. *)
Definition getMinutes (env : Env) (tv : Z) : Z :=
  MinFromTime (LocalTime env tv).

Definition setMinutes (env : Env) (tv : Z) (min : Z) : Z :=
  let t := LocalTime env tv in
  let date :=
    MakeDate (Day t)
      (MakeTime (HourFromTime t) min (SecFromTime t) (msFromTime t)) in
  UTC env date.

Definition getExpirationTime (env : Env) (minutes : Z) : M Z :=
  let! expiration := Date_now env in
  ret (setMinutes env expiration (getMinutes env expiration + minutes)).

Definition isExpired (env : Env) (expiresAt : Z) : M bool :=
  let expiration := expiresAt in
  let! now := Date_now env in
  ret (expiration <? now).

Definition getRemainingTime (env : Env) (expiresAt : Z) : M string :=
  let expiration := expiresAt in
  let! now := Date_now env in
  let diff := expiration - now in
  if diff <=? 0 then ret "Expired"
  else
    let minutes := diff / 60000 in
    let seconds := Z.rem diff 60000 / 1000 in
    ret (Js.show minutes +:+ "m " +:+ Js.show seconds +:+ "s").

Definition isSubmissionAfterStart (submissionTime startedAt : Z) : bool :=
  let startTimestamp := startedAt / 1000 in
  startTimestamp <=? submissionTime.

End Time.

(** ** src/services/codeforces.service.ts *)

Module CodeforcesService.

Definition REQUEST_DELAY : Z := 250.

(** [String.prototype.includes] *)
Fixpoint includes (needle hay : string) : bool :=
  String.prefix needle hay
  || match hay with
     | EmptyString => false
     | String _ hay' => includes needle hay'
     end.

Definition respectRateLimit (env : Env) : M unit :=
  let! now := Date_now env in
  let! last := gets lastRequestTime in
  let timeSinceLastRequest := now - last in
  let! _ := (if timeSinceLastRequest <? REQUEST_DELAY
             then sleep (REQUEST_DELAY - timeSinceLastRequest)
             else ret tt) in
  let! t := Date_now env in
  modify (set_lastRequestTime t).

(** What the body of [makeRequest] and its [catch] make of the way the
    request settles: the result, or the error thrown to the caller.
    [result] is an array for every endpoint the bot uses, so
    [!response.data.result] holds exactly when the field is missing. *)
Definition settle {T} (outcome : AxiosOutcome T) : Js.thrown + T :=
  match outcome with
  | Fulfilled data =>
      match CodeforcesApiResponse.result data with
      | Some result =>
          if String.eqb (CodeforcesApiResponse.status data) "OK"
          then inr result
          else inl (Js.Error (Js.or_else (CodeforcesApiResponse.comment data)
                                "Codeforces API error"))
      | None =>
          inl (Js.Error (Js.or_else (CodeforcesApiResponse.comment data)
                           "Codeforces API error"))
      end
  | AxiosResponseError comment message =>
      inl (Js.Error ("Codeforces API error: " +:+ Js.or_else comment message))
  | AxiosNoResponse code message =>
      if String.eqb code "ECONNABORTED"
      then inl (Js.Error "Codeforces API request timed out")
      else inl (Js.ErrorObj message None)
  | AxiosOther e => inl e
  end.

(** [makeRequest<T>(endpoint, params)]; [call] is the oracle of the
    endpoint applied to the parameters. *)
Definition makeRequest {T} (env : Env) (call : nat -> AxiosOutcome T) : M T :=
  respectRateLimit env >>
  let! outcome := ask call in
  settled (settle outcome).

Definition message_includes (e : Js.thrown) (needle : string) : bool :=
  match e with
  | Js.ErrorObj m _ => includes needle m
  | Js.NonError _ => false
  end.

Definition validateUser (env : Env) (username : string) : M bool :=
  try_catch
    (makeRequest env (fun n => user_info env n username) >> ret true)
    (fun error =>
       if message_includes error "not found" then ret false
       else throw error).

Definition getUserInfo (env : Env) (username : string) : M UserInfo.t :=
  try_catch
    (let! users := makeRequest env (fun n => user_info env n username) in
     match users with
     | [] => throw (Js.Error ("User " +:+ Js.dq +:+ username +:+ Js.dq
                                 +:+ " not found"))
     | user :: _ =>
         ret (UserInfo.mk
                (CodeforcesUser.handle user)
                (default "unrated" (CodeforcesUser.rank user))
                (default 0 (CodeforcesUser.rating user))
                (default "unrated" (CodeforcesUser.maxRank user))
                (default 0 (CodeforcesUser.maxRating user))
                (CodeforcesUser.avatar user)
                (CodeforcesUser.titlePhoto user))
     end)
    (fun error =>
       if message_includes error "not found"
       then throw (Js.Error ("Codeforces user " +:+ Js.dq +:+ username
                            +:+ Js.dq +:+ " not found"))
       else throw error).

Definition to_submission (sub : CodeforcesSubmission.t) : Submission.t :=
  Submission.mk
    (CodeforcesSubmission.id sub)
    (CodeforcesProblem.contestId (CodeforcesSubmission.problem sub))
    (CodeforcesProblem.index (CodeforcesSubmission.problem sub))
    (CodeforcesProblem.name (CodeforcesSubmission.problem sub))
    (CodeforcesSubmission.verdict sub)
    (CodeforcesSubmission.creationTimeSeconds sub)
    (CodeforcesSubmission.programmingLanguage sub).

Definition getRecentSubmissions (env : Env) (username : string) (count : Z)
    : M (list Submission.t) :=
  try_catch
    (let! submissions :=
       makeRequest env (fun n => user_status env n username 1 count) in
     ret (map to_submission submissions))
    (fun error => throw error).

Definition isProblemMatch (contestId : Z) (problemIndex : string)
    (sub : Submission.t) : bool :=
  Z.eqb (Submission.contestId sub) contestId
  && String.eqb (Js.toUpperCase (Submission.problemIndex sub))
                (Js.toUpperCase problemIndex).

Definition isCompilationError (sub : Submission.t) : bool :=
  match Submission.verdict sub with
  | Some v => String.eqb v "COMPILATION_ERROR"
  | None => false
  end.

(** The callback of the first [find]. *)
Definition isMatchingSubmission (contestId : Z) (problemIndex : string)
    (startedAt : Z) (sub : Submission.t) : bool :=
  let isAfterStart :=
    Time.isSubmissionAfterStart (Submission.creationTimeSeconds sub) startedAt in
  isProblemMatch contestId problemIndex sub
  && isCompilationError sub && isAfterStart.

(** The callback of the second [find]. *)
Definition isProblemSubmission (contestId : Z) (problemIndex : string)
    (startedAt : Z) (sub : Submission.t) : bool :=
  isProblemMatch contestId problemIndex sub
  && Time.isSubmissionAfterStart (Submission.creationTimeSeconds sub) startedAt.

Definition wrong_verdict_message (sub : Submission.t) : string :=
  "Found submission but verdict was " +:+ Js.dq
  +:+ Js.show_opt (Submission.verdict sub)
  +:+ Js.dq +:+ " instead of " +:+ Js.dq +:+ "COMPILATION_ERROR" +:+ Js.dq.

Definition checkCompilationErrorSubmission (env : Env) (username : string)
    (contestId : Z) (problemIndex : string) (startedAt : Z)
    : M VerificationResult.t :=
  try_catch
    (let! submissions := getRecentSubmissions env username 20 in
     let matchingSubmission :=
       find (isMatchingSubmission contestId problemIndex startedAt)
            submissions in
     match matchingSubmission with
     | Some found =>
         ret (VerificationResult.mk true (Some found)
                "Compilation Error submission found!")
     | None =>
         let anyProblemSubmission :=
           find (isProblemSubmission contestId problemIndex startedAt)
                submissions in
         match anyProblemSubmission with
         | Some other =>
             ret (VerificationResult.mk false (Some other)
                    (wrong_verdict_message other))
         | None =>
             ret (VerificationResult.mk false None
                    "No submission found to the specified problem")
         end
     end)
    (fun error => throw error).

Definition getUserRank (env : Env) (username : string) : M string :=
  let! userInfo := getUserInfo env username in
  ret (UserInfo.rank userInfo).

End CodeforcesService.

(** ** src/services/supabase.ts

    The store is a set of tables held in the [World]; a request runs as
    the query it denotes.  The only error a request reports in this model
    is the one [.single()] answers when no row is selected. *)

Module Supabase.

(** The error of [.single()] when the selection is empty.  The client
    hands the error body over as a plain object. *)
Definition PGRST116 : Js.thrown := Js.NonError "PGRST116".

Definition uuid_generate_v4 : M nat :=
  let! id := gets next_uuid in
  modify (set_next_uuid (S id)) >> ret id.

Definition getGuildConfig (guildId : string) : M (option GuildConfig.t) :=
  gets (fun w => guild_config w !! guildId).

(** [.eq("discord_user_id", u).eq("guild_id", g).eq("username", n)] *)
Definition pending_key_is (discord_user_id guild_id username : string)
    (row : PendingVerification.t) : bool :=
  String.eqb (PendingVerification.discord_user_id row) discord_user_id
  && String.eqb (PendingVerification.guild_id row) guild_id
  && String.eqb (PendingVerification.username row) username.

(** The [id] and the [started_at] of the argument are not sent: the
    table fills them in ([uuid_generate_v4()], [NOW()]). *)
Definition createPendingVerification (env : Env)
    (verification : PendingVerification.t) : M PendingVerification.t :=
  let discord_user_id := PendingVerification.discord_user_id verification in
  let guild_id := PendingVerification.guild_id verification in
  let username := PendingVerification.username verification in
  let problem_id := PendingVerification.problem_id verification in
  let problem_url := PendingVerification.problem_url verification in
  let problem_name := PendingVerification.problem_name verification in
  let expires_at := PendingVerification.expires_at verification in
  modify (fun w =>
    set_pending
      (List.filter
         (fun row => negb (pending_key_is discord_user_id guild_id username row))
         (pending_verifications w)) w) >>
  let! id := uuid_generate_v4 in
  let! now := Date_now env in
  let data :=
    PendingVerification.mk id discord_user_id guild_id username
      problem_id problem_url problem_name expires_at (Some now) in
  modify (fun w => set_pending (pending_verifications w ++ [data]) w) >>
  ret data.

Definition getPendingVerifications (env : Env)
    (discordUserId guildId : string) : M (list PendingVerification.t) :=
  let! now := Date_now env in
  gets (fun w =>
    List.filter
      (fun row =>
         String.eqb (PendingVerification.discord_user_id row) discordUserId
         && String.eqb (PendingVerification.guild_id row) guildId
         && (now <? PendingVerification.expires_at row))
      (pending_verifications w)).

Definition deletePendingVerification (verificationId : nat) : M unit :=
  modify (fun w =>
    set_pending
      (List.filter
         (fun row => negb (Nat.eqb (PendingVerification.id row) verificationId))
         (pending_verifications w)) w).

Definition cleanupExpiredVerifications (env : Env) : M Z :=
  let! now := Date_now env in
  let! rows := gets pending_verifications in
  let expired row := PendingVerification.expires_at row <? now in
  modify (set_pending (List.filter (fun row => negb (expired row)) rows)) >>
  ret (Z.of_nat (length (List.filter expired rows))).

Definition linked_key_is (discord_user_id guild_id username : string)
    (row : LinkedAccounts.t) : bool :=
  String.eqb (LinkedAccounts.discord_user_id row) discord_user_id
  && String.eqb (LinkedAccounts.guild_id row) guild_id
  && String.eqb (LinkedAccounts.username row) username.

(** [.upsert({...}, {onConflict: "discord_user_id,guild_id,username"})] *)
Definition createLinkedAccount (env : Env)
    (discord_user_id guild_id username : string) (rank : option string)
    : M LinkedAccounts.t :=
  let! verified_at := Date_now env in
  let! rows := gets linked_accounts in
  match List.find (linked_key_is discord_user_id guild_id username) rows with
  | Some old =>
      let data :=
        LinkedAccounts.mk (LinkedAccounts.id old) discord_user_id guild_id
          username true (Some verified_at) rank in
      modify (set_linked
                (map (fun row =>
                        if linked_key_is discord_user_id guild_id username row
                        then data else row) rows)) >>
      ret data
  | None =>
      let! id := uuid_generate_v4 in
      let data :=
        LinkedAccounts.mk id discord_user_id guild_id username true
          (Some verified_at) rank in
      modify (set_linked (rows ++ [data])) >>
      ret data
  end.

Definition getAllLinkedAccounts : M (list LinkedAccounts.t) :=
  gets (fun w => List.filter LinkedAccounts.verified (linked_accounts w)).

Definition with_rank (newRank : string) (row : LinkedAccounts.t)
    : LinkedAccounts.t :=
  LinkedAccounts.mk (LinkedAccounts.id row)
    (LinkedAccounts.discord_user_id row) (LinkedAccounts.guild_id row)
    (LinkedAccounts.username row) (LinkedAccounts.verified row)
    (LinkedAccounts.verified_at row) (Some newRank).

Definition updateLinkedAccountRank (accountId : nat) (newRank : string)
    : M LinkedAccounts.t :=
  let! rows := gets linked_accounts in
  modify (set_linked
            (map (fun row =>
                    if Nat.eqb (LinkedAccounts.id row) accountId
                    then with_rank newRank row else row) rows)) >>
  match List.find (fun row => Nat.eqb (LinkedAccounts.id row) accountId) rows with
  | Some row => ret (with_rank newRank row)
  | None => throw PGRST116
  end.

(** [.upsert({guild_id, verified_role_id}, {onConflict: "guild_id"})]:
    the row of the guild gets the columns that are sent; a row that is
    inserted takes the default of the table for the rank roles, the
    empty object. *)
Definition setVerifiedRole (guildId roleId : string) : M unit :=
  modify (fun w =>
    let rank_role_map :=
      match guild_config w !! guildId with
      | Some row => GuildConfig.rank_role_map row
      | None => Some ∅
      end in
    set_guild_config
      (<[guildId := GuildConfig.mk guildId (Some roleId) rank_role_map]>
         (guild_config w)) w).

(** [.upsert({guild_id, rank_role_map}, {onConflict: "guild_id"})]; a
    row that is inserted has no verified role. *)
Definition setRankRole (guildId rank roleId : string) : M unit :=
  let! existing := getGuildConfig guildId in
  let currentMap : gmap string string :=
    match existing with
    | Some row => default ∅ (GuildConfig.rank_role_map row)
    | None => ∅
    end in
  let newMap := <[Js.toLowerCase rank := roleId]> currentMap in
  modify (fun w =>
    let verified_role_id :=
      match guild_config w !! guildId with
      | Some row => GuildConfig.verified_role_id row
      | None => None
      end in
    set_guild_config
      (<[guildId := GuildConfig.mk guildId verified_role_id (Some newMap)]>
         (guild_config w)) w).

Definition getLinkedAccounts (discordUserId guildId : string)
    : M (list LinkedAccounts.t) :=
  gets (fun w =>
    List.filter
      (fun row =>
         String.eqb (LinkedAccounts.discord_user_id row) discordUserId
         && String.eqb (LinkedAccounts.guild_id row) guildId
         && LinkedAccounts.verified row)
      (linked_accounts w)).

Definition getAllGuildLinkedAccounts (guildId : string)
    : M (list LinkedAccounts.t) :=
  gets (fun w =>
    List.filter
      (fun row =>
         String.eqb (LinkedAccounts.guild_id row) guildId
         && LinkedAccounts.verified row)
      (linked_accounts w)).

(** [ilike text pattern] stands for the operator [text ILIKE pattern] of
    the store, which the request leaves to the database. *)
Definition isAccountLinkedByOther (ilike : string -> string -> bool)
    (guildId username excludeUserId : string) : M bool :=
  let! rows := gets linked_accounts in
  let data :=
    firstn 1
      (List.filter
         (fun row =>
            String.eqb (LinkedAccounts.guild_id row) guildId
            && ilike (LinkedAccounts.username row) username
            && LinkedAccounts.verified row
            && negb (String.eqb (LinkedAccounts.discord_user_id row)
                                excludeUserId))
         rows) in
  ret (Nat.ltb 0 (length data)).

End Supabase.

(** ** src/services/supabase.client.js

    The module from which leaderboard.ts imports its query.  Its queries
    on the linked accounts name a column [platform], which the functions
    of supabase.ts neither send nor read: [platform] gives the value of
    the column for a row, as the table holds it. *)

Module SupabaseClient.

(** [.eq("guild_id", guildId).eq("platform", "codeforces")
     .eq("verified", true)] *)
Definition getAllGuildLinkedAccounts
    (platform : LinkedAccounts.t -> option string) (guildId : string)
    : M (list LinkedAccounts.t) :=
  gets (fun w =>
    List.filter
      (fun row =>
         String.eqb (LinkedAccounts.guild_id row) guildId
         && bool_decide (platform row = Some "codeforces")
         && LinkedAccounts.verified row)
      (linked_accounts w)).

End SupabaseClient.

(** ** src/utils/randomProblem.ts *)

Module RandomProblem.

Definition CF_MIN_RATING : Z := 1500.
Definition CF_MAX_RATING : Z := 2500.
Definition CF_CACHE_DURATION : Z := 3600000.

Record t : Type := mk {
  id : string;
  contestId : Z;
  index : string;
  name : string;
  rating : Z;
  url : string
}.

Definition in_band (problem : CodeforcesProblem.t) : bool :=
  match CodeforcesProblem.rating problem with
  | Some rating => (CF_MIN_RATING <=? rating) && (rating <=? CF_MAX_RATING)
  | None => false
  end.

(** [cfProblemsCache && cfCacheTimestamp &&
     Date.now() - cfCacheTimestamp < CF_CACHE_DURATION]: an array is
    truthy even when empty, the number 0 is falsy, and the clock is read
    only when both are truthy. *)
Definition cache_still_valid (env : Env) : M bool :=
  let! cache := gets cfProblemsCache in
  let! timestamp := gets cfCacheTimestamp in
  match cache, timestamp with
  | Some _, Some t =>
      if Z.eqb t 0 then ret false
      else
        let! now := Date_now env in
        ret (now - t <? CF_CACHE_DURATION)
  | _, _ => ret false
  end.

(** [axios.get] rejects with an [AxiosError], an [Error] whose message
    is kept. *)
Definition axios_get {T} (oracle : nat -> AxiosOutcome T)
    : M (CodeforcesApiResponse.t T) :=
  let! outcome := ask oracle in
  match outcome with
  | Fulfilled data => ret data
  | AxiosResponseError _ message => throw (Js.ErrorObj message None)
  | AxiosNoResponse _ message => throw (Js.ErrorObj message None)
  | AxiosOther e => throw e
  end.

(** The [try] block of [fetchCodeforcesProblems]: fetch the catalogue,
    keep the band, store the snapshot. *)
Definition refresh (env : Env) : M (list CodeforcesProblem.t) :=
  let! data := axios_get (problemset_problems env) in
  match CodeforcesApiResponse.result data with
  | Some all_problems =>
      if String.eqb (CodeforcesApiResponse.status data) "OK"
      then
        let problems := List.filter in_band all_problems in
        let! now := Date_now env in
        modify (set_cache (Some problems) (Some now)) >>
        ret problems
      else throw (Js.Error "Codeforces API returned non-OK status")
  | None => throw (Js.Error "Codeforces API returned non-OK status")
  end.

Definition fetchCodeforcesProblems (env : Env) : M (list CodeforcesProblem.t) :=
  let! valid := cache_still_valid env in
  let! cache := gets cfProblemsCache in
  match valid, cache with
  | true, Some cached => ret cached
  | _, _ =>
      try_catch
        (refresh env)
        (fun error =>
           let! stale := gets cfProblemsCache in
           match stale with
           | Some cached => ret cached
           | None => throw error
           end)
  end.

(** [Math.floor(Math.random() * problems.length)] *)
Definition randomIndex (r : Q) (len : nat) : Z :=
  Qfloor (Qmult r (inject_Z (Z.of_nat len))).

(** [problems[i]]: [undefined] outside of the array. *)
Definition at_index {A} (l : list A) (i : Z) : option A :=
  if i <? 0 then None else nth_error l (Z.to_nat i).

Definition problemUrl (problem : CodeforcesProblem.t) : string :=
  "https://codeforces.com/problemset/problem/"
  +:+ Js.show (CodeforcesProblem.contestId problem)
  +:+ "/" +:+ CodeforcesProblem.index problem.

Definition describe (problem : CodeforcesProblem.t) : t :=
  mk (Js.show (CodeforcesProblem.contestId problem)
      +:+ CodeforcesProblem.index problem)
     (CodeforcesProblem.contestId problem)
     (CodeforcesProblem.index problem)
     (CodeforcesProblem.name problem)
     (default 0 (CodeforcesProblem.rating problem))
     (problemUrl problem).

Definition getRandomCodeforcesProblem (env : Env) : M t :=
  let! problems := fetchCodeforcesProblems env in
  match problems with
  | [] => throw (Js.Error "No Codeforces problems available")
  | _ :: _ =>
      let! r := ask (random env) in
      match at_index problems (randomIndex r (length problems)) with
      | None => throw (Js.Error "Failed to select a random problem")
      | Some problem => ret (describe problem)
      end
  end.

End RandomProblem.

(** ** The part of discord.js the role code calls *)

Module Discord.

(** [member.roles.cache], as the set of the ids of the roles held. *)
Definition roles_cache (member : GuildMember.t) : M (gset string) :=
  gets (fun w =>
    default ∅ (member_roles w !! (GuildMember.guild member,
                                  GuildMember.user member))).

(** [member.guild.roles.cache.get(roleId)]; a role is identified with
    its id. *)
Definition guild_role (member : GuildMember.t) (roleId : string)
    : M (option string) :=
  gets (fun w =>
    match guilds w !! GuildMember.guild member with
    | Some roles => if decide (roleId ∈ roles) then Some roleId else None
    | None => None
    end).

Definition set_roles (member : GuildMember.t) (roles : gset string)
    : M unit :=
  modify (fun w =>
    set_member_roles
      (<[(GuildMember.guild member, GuildMember.user member) := roles]>
         (member_roles w)) w).

(** [member.roles.add(role, reason)] *)
Definition roles_add (env : Env) (member : GuildMember.t) (role : string)
    : M unit :=
  let! fault := ask (fun n => roles_add_fault env n member role) in
  match fault with
  | Some e => throw e
  | None =>
      let! held := roles_cache member in
      set_roles member ({[role]} ∪ held)
  end.

(** [member.roles.remove(roles, reason)] *)
Definition roles_remove (env : Env) (member : GuildMember.t)
    (roles : gset string) : M unit :=
  let! fault := ask (fun n => roles_remove_fault env n member roles) in
  match fault with
  | Some e => throw e
  | None =>
      let! held := roles_cache member in
      set_roles member (held ∖ roles)
  end.

(** The error of the API for a user who is not in the guild. *)
Definition UnknownMember : Js.thrown :=
  Js.ErrorObj "Unknown Member" (Some 10007).

(** [guild.members.fetch(userId)] *)
Definition members_fetch (env : Env) (guildId userId : string)
    : M GuildMember.t :=
  let! fault := ask (fun n => members_fetch_fault env n guildId userId) in
  match fault with
  | Some e => throw e
  | None =>
      let! known := gets (fun w => member_roles w !! (guildId, userId)) in
      match known with
      | Some _ => ret (GuildMember.mk guildId userId)
      | None => throw UnknownMember
      end
  end.

End Discord.

(** ** src/utils/roleManager.ts *)

Module RoleManager.

Record RoleAssignmentResults : Type := mkResults {
  verifiedRole : bool;
  rankRole : bool;
  errors : list string
}.

Definition assignVerifiedRole (env : Env) (member : GuildMember.t)
    (guildId : string) : M bool :=
  try_catch
    (let! config := Supabase.getGuildConfig guildId in
     match config with
     | None => ret false
     | Some config =>
         match GuildConfig.verified_role_id config with
         | None => ret false
         | Some verified_role_id =>
             if negb (Js.truthy verified_role_id) then ret false
             else
               let! role := Discord.guild_role member verified_role_id in
               match role with
               | None => ret false
               | Some role =>
                   let! held := Discord.roles_cache member in
                   if decide (role ∈ held) then ret true
                   else Discord.roles_add env member role >> ret true
               end
         end
     end)
    (fun error => ret false).

(** [Object.values(rankRoleMap)] *)
Definition Object_values (rankRoleMap : gmap string string) : list string :=
  (map_to_list rankRoleMap).*2.

Definition assignRankRole (env : Env) (member : GuildMember.t)
    (guildId : string) (rank : string) : M bool :=
  try_catch
    (if negb (Js.truthy rank) then ret false
     else
       let! config := Supabase.getGuildConfig guildId in
       match config with
       | None => ret false
       | Some config =>
           match GuildConfig.rank_role_map config with
           | None => ret false
           | Some rankRoleMap =>
               let normalizedRank := Js.toLowerCase rank in
               match rankRoleMap !! normalizedRank with
               | None => ret false
               | Some roleId =>
                   if negb (Js.truthy roleId) then ret false
                   else
                     let! role := Discord.guild_role member roleId in
                     match role with
                     | None => ret false
                     | Some role =>
                         let allRankRoleIds := Object_values rankRoleMap in
                         let! held := Discord.roles_cache member in
                         let rolesToRemove : gset string :=
                           filter (fun r => r ∈ allRankRoleIds ∧ r ≠ roleId)
                                  held in
                         let! _ :=
                           (if Nat.ltb 0 (size rolesToRemove)
                            then Discord.roles_remove env member rolesToRemove
                            else ret tt) in
                         let! held' := Discord.roles_cache member in
                         if decide (role ∈ held') then ret true
                         else Discord.roles_add env member role >> ret true
                     end
               end
           end
       end)
    (fun error => ret false).

Definition assignVerificationRoles (env : Env) (member : GuildMember.t)
    (guildId : string) (rank : option string) : M RoleAssignmentResults :=
  let results := mkResults false false [] in
  let! results :=
    try_catch
      (let! assigned := assignVerifiedRole env member guildId in
       ret (mkResults assigned (rankRole results) (errors results)))
      (fun error =>
         let errorMessage := Js.errorMessage error in
         ret (mkResults (verifiedRole results) (rankRole results)
                (errors results
                 ++ ["Failed to assign verified role: " +:+ errorMessage]))) in
  match rank with
  | Some rank =>
      if Js.truthy rank then
        try_catch
          (let! assigned := assignRankRole env member guildId rank in
           ret (mkResults (verifiedRole results) assigned (errors results)))
          (fun error =>
             let errorMessage := Js.errorMessage error in
             ret (mkResults (verifiedRole results) (rankRole results)
                    (errors results
                     ++ ["Failed to assign rank role: " +:+ errorMessage])))
      else ret results
  | None => ret results
  end.

End RoleManager.

(** ** src/commands/verify.ts *)

Module Verify.

(** The two shapes of an entry of [results]. *)
Inductive VerificationResult : Type :=
| Success (username : string) (message : string) (rank : option string)
    (rolesAssigned : RoleManager.RoleAssignmentResults)
| Failure (username : string) (message : string)
    (problemUrl : option string) (problemName : option string)
    (timeRemaining : option string).

(** What the command answers with. *)
Inductive Reply : Type :=
| NotInGuild
| NoPending
| Results (results : list VerificationResult)
| CommandError (content : string).

Definition is_digit (c : ascii) : bool :=
  let n := nat_of_ascii c in (48 <=? n)%nat && (n <=? 57)%nat.

Definition is_letter (c : ascii) : bool := Js.is_upper c || Js.is_lower c.

Fixpoint all_digits (s : string) : bool :=
  match s with
  | EmptyString => true
  | String c s' => is_digit c && all_digits s'
  end.

(** The longest prefix of digits, and what follows it. *)
Fixpoint span_digits (s : string) : string * string :=
  match s with
  | EmptyString => (EmptyString, EmptyString)
  | String c s' =>
      if is_digit c
      then let (digits, rest) := span_digits s' in (String c digits, rest)
      else (EmptyString, s)
  end.

(** [parseInt] on a string of digits: the integer that the digits
    spell.  The source returns this integer when it is safe
    ([Js.is_safe_integer]) and the number nearest to it otherwise; the
    statements that depend on the value are stated for safe
    integers. *)
Fixpoint parseInt_from (acc : Z) (s : string) : Z :=
  match s with
  | EmptyString => acc
  | String c s' => parseInt_from (10 * acc + Z.of_nat (nat_of_ascii c - 48)) s'
  end.

Definition parseInt (s : string) : Z := parseInt_from 0 s.

(** [problemId.match(...)] against the pattern "one or more digits, then
    one ASCII letter followed by any number of digits, up to the end":
    digits and letters being disjoint, the first group is the longest
    prefix of digits. *)
Definition parseCodeforcesProblemId (problemId : string) : M (Z * string) :=
  match span_digits problemId with
  | (String d ds, String c rest) =>
      if is_letter c && all_digits rest
      then ret (parseInt (String d ds), Js.toUpperCase (String c rest))
      else throw (Js.Error ("Invalid problem ID format: " +:+ problemId))
  | _ => throw (Js.Error ("Invalid problem ID format: " +:+ problemId))
  end.

(** The body of the loop over [pendingVerifications]: the entry pushed to
    [results] for one pending session. *)
Definition verifyPending (env : Env) (userId guildId : string)
    (member : GuildMember.t) (pending : PendingVerification.t)
    : M VerificationResult :=
  let username := PendingVerification.username pending in
  let! expired := Time.isExpired env (PendingVerification.expires_at pending) in
  if expired then
    Supabase.deletePendingVerification (PendingVerification.id pending) >>
    ret (Failure username
           "Verification expired. Please start a new verification with `/link`."
           None None None)
  else
    let! checked :=
      try_catch
        (let! parsed :=
           parseCodeforcesProblemId (PendingVerification.problem_id pending) in
         let (contestId, index) := parsed in
         let! startedAt :=
           match PendingVerification.started_at pending with
           | Some t => ret t
           | None => Date_now env
           end in
         let! verificationResult :=
           CodeforcesService.checkCompilationErrorSubmission
             env username contestId index startedAt in
         let! userRank :=
           (if VerificationResult.verified verificationResult then
              try_catch
                (let! rank := CodeforcesService.getUserRank env username in
                 ret (Some (Js.toLowerCase rank)))
                (fun _ => ret None)
            else ret None) in
         ret (inr (verificationResult, userRank)))
        (fun error =>
           let errorMessage := Js.errorMessage error in
           ret (inl (Failure username
                       ("Failed to check submissions: " +:+ errorMessage)
                       None None None))) in
    match checked with
    | inl failure => ret failure
    | inr (verificationResult, userRank) =>
        if VerificationResult.verified verificationResult then
          try_catch
            (Supabase.createLinkedAccount env userId guildId username userRank >>
             Supabase.deletePendingVerification (PendingVerification.id pending) >>
             let! roleResults :=
               RoleManager.assignVerificationRoles env member guildId userRank in
             ret (Success username "Account verified successfully!"
                    userRank roleResults))
            (fun error =>
               let errorMessage := Js.errorMessage error in
               ret (Failure username
                      ("Verification successful but failed to save: "
                       +:+ errorMessage)
                      None None None))
        else
          let! remaining :=
            Time.getRemainingTime env (PendingVerification.expires_at pending) in
          ret (Failure username
                 (Js.or_else (Some (VerificationResult.message verificationResult))
                    "No valid Compilation Error submission found.")
                 (Some (PendingVerification.problem_url pending))
                 (PendingVerification.problem_name pending)
                 (Some remaining))
    end.

(** [execute(interaction)]; the embeds that [sendVerificationResults]
    renders from [results] are not modelled. *)
Definition execute (env : Env) (userId : string) (guildId : option string)
    : M Reply :=
  try_catch
    (match guildId with
     | None => ret NotInGuild
     | Some guildId =>
         if negb (Js.truthy guildId) then ret NotInGuild
         else
           let! pendingVerifications :=
             Supabase.getPendingVerifications env userId guildId in
           match pendingVerifications with
           | [] => ret NoPending
           | _ :: _ =>
               let member := GuildMember.mk guildId userId in
               let! results :=
                 for_each (verifyPending env userId guildId member)
                          pendingVerifications in
               ret (Results results)
           end
     end)
    (fun error =>
       let errorMessage := Js.errorMessage error in
       ret (CommandError
              ("An error occurred during verification: " +:+ errorMessage))).

End Verify.

(** ** src/utils/roleSync.ts *)

Module RoleSync.

Definition API_DELAY : Z := 500.

(** [results.totalProcessed++] *)
Definition processed_one (r : SyncResults.t) : SyncResults.t :=
  SyncResults.mk (SyncResults.totalProcessed r + 1) (SyncResults.rolesUpdated r)
    (SyncResults.errors r) (SyncResults.skipped r).

(** [results.rolesUpdated++] *)
Definition updated_one (r : SyncResults.t) : SyncResults.t :=
  SyncResults.mk (SyncResults.totalProcessed r) (SyncResults.rolesUpdated r + 1)
    (SyncResults.errors r) (SyncResults.skipped r).

(** [results.errors.push(msg)] *)
Definition push_error (msg : string) (r : SyncResults.t) : SyncResults.t :=
  SyncResults.mk (SyncResults.totalProcessed r) (SyncResults.rolesUpdated r)
    (SyncResults.errors r ++ [msg]) (SyncResults.skipped r).

(** [results.skipped += n] *)
Definition skip (n : nat) (r : SyncResults.t) : SyncResults.t :=
  SyncResults.mk (SyncResults.totalProcessed r) (SyncResults.rolesUpdated r)
    (SyncResults.errors r) (SyncResults.skipped r + Z.of_nat n).

Definition update_results (f : SyncResults.t -> SyncResults.t) : M unit :=
  modify (fun w => set_results (f (results w)) w).

(** [accountsByGuild]: a [Map] keeps its keys in the order of their
    first insertion. *)
Fixpoint push_to_guild (account : LinkedAccounts.t)
    (groups : list (string * list LinkedAccounts.t))
    : list (string * list LinkedAccounts.t) :=
  match groups with
  | [] => [(LinkedAccounts.guild_id account, [account])]
  | (guildId, accounts) :: groups' =>
      if String.eqb guildId (LinkedAccounts.guild_id account)
      then (guildId, (accounts ++ [account])%list) :: groups'
      else (guildId, accounts) :: push_to_guild account groups'
  end.

Definition group_by_guild (allAccounts : list LinkedAccounts.t)
    : list (string * list LinkedAccounts.t) :=
  fold_left (fun groups account => push_to_guild account groups)
            allAccounts [].

Definition failed_to_sync (account : LinkedAccounts.t) (guildId : string)
    (error : Js.thrown) : string :=
  "Failed to sync " +:+ LinkedAccounts.username account +:+ " in guild "
  +:+ guildId +:+ ": " +:+ Js.errorMessage error.

(** What the inner [try] of the loop does once the stored rank is known
    to differ: fetch the member and hand over to the role manager. *)
Definition reassignRole (env : Env) (guildId : string)
    (account : LinkedAccounts.t) (currentRank : string) : M unit :=
  try_catch
    (let! member :=
       Discord.members_fetch env guildId
         (LinkedAccounts.discord_user_id account) in
     let! roleAssigned :=
       RoleManager.assignRankRole env member guildId currentRank in
     if roleAssigned then update_results updated_one else ret tt)
    (fun memberError =>
       match memberError with
       | Js.ErrorObj _ (Some 10007) => ret tt
       | _ => throw memberError
       end).

(** The outer [try] block of the loop over the accounts of a guild. *)
Definition syncAccountBody (env : Env) (guildId : string)
    (account : LinkedAccounts.t) : M unit :=
  sleep API_DELAY >>
  let! cfUserInfo := CodeforcesService.getUserInfo env
                       (LinkedAccounts.username account) in
  let currentRank := Js.toLowerCase (UserInfo.rank cfUserInfo) in
  let storedRank := Js.toLowerCase <$> LinkedAccounts.rank account in
  if Js.truthy currentRank
     && negb (bool_decide (Some currentRank = storedRank))
  then
    Supabase.updateLinkedAccountRank (LinkedAccounts.id account)
      currentRank >>
    reassignRole env guildId account currentRank
  else ret tt.

(** The body of the loop over the accounts of a guild. *)
Definition syncAccount (env : Env) (guildId : string)
    (account : LinkedAccounts.t) : M unit :=
  update_results processed_one >>
  try_catch
    (syncAccountBody env guildId account)
    (fun error =>
       update_results (push_error (failed_to_sync account guildId error))).

Fixpoint syncAccounts (env : Env) (guildId : string)
    (accounts : list LinkedAccounts.t) : M unit :=
  match accounts with
  | [] => ret tt
  | account :: accounts' =>
      syncAccount env guildId account >>
      syncAccounts env guildId accounts'
  end.

(** [!config || !config.rank_role_map ||
     Object.keys(config.rank_role_map).length === 0] *)
Definition no_rank_roles (config : option GuildConfig.t) : bool :=
  match config with
  | None => true
  | Some config =>
      match GuildConfig.rank_role_map config with
      | None => true
      | Some rankRoleMap => Nat.eqb (size rankRoleMap) 0
      end
  end.

(** The body of the loop over the guilds. *)
Definition syncGuild (env : Env) (guildId : string)
    (accounts : list LinkedAccounts.t) : M unit :=
  let! config := Supabase.getGuildConfig guildId in
  if no_rank_roles config then update_results (skip (length accounts))
  else
    let! guild := gets (fun w => guilds w !! guildId) in
    match guild with
    | None => update_results (skip (length accounts))
    | Some _ => syncAccounts env guildId accounts
    end.

Fixpoint syncGuilds (env : Env)
    (groups : list (string * list LinkedAccounts.t)) : M unit :=
  match groups with
  | [] => ret tt
  | (guildId, accounts) :: groups' =>
      syncGuild env guildId accounts >>
      syncGuilds env groups'
  end.

Definition syncAllRoles (env : Env) : M SyncResults.t :=
  modify (set_results (SyncResults.mk 0 0 [] 0)) >>
  try_catch
    (let! allAccounts := Supabase.getAllLinkedAccounts in
     match allAccounts with
     | [] => ret tt
     | _ :: _ => syncGuilds env (group_by_guild allAccounts)
     end)
    (fun error =>
       update_results (push_error ("Critical error: " +:+ Js.errorMessage error))) >>
  gets results.

End RoleSync.

(** ** src/commands/link.ts *)

Module Link.

(** What the embed of the challenge is built from. *)
Record Challenge : Type := mkChallenge {
  userInfo : UserInfo.t;
  problem : RandomProblem.t;
  expiresAt : Z;
  remaining : string
}.

(** What the command answers with. *)
Inductive Reply : Type :=
| NotInGuild
| UserNotFound (username : string)
| AlreadyLinked (username : string)
| Verification (challenge : Challenge)
| CommandError (errorMessage : string).

(** [configured] is the value of the variable VERIFICATION_TIMEOUT of
    the process, and [ilike] the operator of the store; the embed that is
    rendered from the challenge is not modelled. *)
Definition handleLinkCodeforces (env : Env) (ilike : string -> string -> bool)
    (configured : option Z) (username userId : string)
    (guildId : option string) : M Reply :=
  match guildId with
  | None => ret NotInGuild
  | Some guildId =>
      if negb (Js.truthy guildId) then ret NotInGuild
      else
        let! userExists := CodeforcesService.validateUser env username in
        if negb userExists then ret (UserNotFound username)
        else
          let! isLinkedByOther :=
            Supabase.isAccountLinkedByOther ilike guildId username userId in
          if isLinkedByOther then ret (AlreadyLinked username)
          else
            let! userInfo :=
              try_catch
                (CodeforcesService.getUserInfo env username)
                (fun _ =>
                   ret (UserInfo.mk username "unknown" 0 "unknown" 0
                          None None)) in
            let! problem := RandomProblem.getRandomCodeforcesProblem env in
            let! expiresAt :=
              Time.getExpirationTime env
                (Time.VERIFICATION_TIMEOUT configured) in
            let! remaining := Time.getRemainingTime env expiresAt in
            Supabase.createPendingVerification env
              (PendingVerification.mk 0 userId guildId
                 (UserInfo.handle userInfo)
                 (RandomProblem.id problem)
                 (RandomProblem.url problem)
                 (Some (RandomProblem.name problem))
                 expiresAt None) >>
            ret (Verification
                   (mkChallenge userInfo problem expiresAt remaining))
  end.

Definition execute (env : Env) (ilike : string -> string -> bool)
    (configured : option Z) (username userId : string)
    (guildId : option string) : M Reply :=
  try_catch
    (handleLinkCodeforces env ilike configured username userId guildId)
    (fun error =>
       let errorMessage := Js.errorMessage_or_unexpected error in
       ret (CommandError errorMessage)).

End Link.

(** ** src/commands/setup.ts *)

Module Setup.

(** The role option of the interaction. *)
Record Role : Type := mkRole {
  id : string;
  position : Z
}.

Inductive Reply : Type :=
| NotInServer
| NoBotMember
| RoleTooHigh (role : Role)
| VerifiedRoleSet (role : Role)
| RankRoleSet (displayRank : string) (role : Role).

(** [s.split(" ")] *)
Fixpoint split (s : string) : list string :=
  match s with
  | EmptyString => [EmptyString]
  | String c rest =>
      if Ascii.eqb c " "
      then EmptyString :: split rest
      else
        match split rest with
        | [] => [String c EmptyString]
        | word :: words => String c word :: words
        end
  end.

(** [word.charAt(0).toUpperCase() + word.slice(1)] *)
Definition capitalize (word : string) : string :=
  match word with
  | EmptyString => EmptyString
  | String c rest => String (Js.upper_char c) rest
  end.

Definition displayRank (rank : string) : string :=
  String.concat " " (map capitalize (split rank)).

(** The guild of the interaction is the one the client has cached under
    its id; [me] is the position of the highest role of the member of
    the bot in that guild, when the member is known. *)
Definition handleVerifiedRole (role : Role) (guildId : option string)
    (me : option Z) : M Reply :=
  match guildId with
  | None => ret NotInServer
  | Some guildId =>
      if negb (Js.truthy guildId) then ret NotInServer
      else
        let! guild := gets (fun w => guilds w !! guildId) in
        match guild with
        | None => ret NotInServer
        | Some _ =>
            match me with
            | None => ret NoBotMember
            | Some highest =>
                if highest <=? position role then ret (RoleTooHigh role)
                else
                  Supabase.setVerifiedRole guildId (id role) >>
                  ret (VerifiedRoleSet role)
            end
        end
  end.

Definition handleRankRole (rank : string) (role : Role)
    (guildId : option string) (me : option Z) : M Reply :=
  match guildId with
  | None => ret NotInServer
  | Some guildId =>
      if negb (Js.truthy guildId) then ret NotInServer
      else
        let! guild := gets (fun w => guilds w !! guildId) in
        match guild with
        | None => ret NotInServer
        | Some _ =>
            match me with
            | None => ret NoBotMember
            | Some highest =>
                if highest <=? position role then ret (RoleTooHigh role)
                else
                  Supabase.setRankRole guildId rank (id role) >>
                  ret (RankRoleSet (displayRank rank) role)
            end
        end
  end.

End Setup.

(** ** src/commands/leaderboard.ts

    The command imports its query of the store from supabase.client.js
    ([Module SupabaseClient]) and the lookup of a user from
    codeforces.service.js, a module that is not among the sources at hand:
    the lookup is taken to be the one of codeforces.service.ts. *)

Module Leaderboard.

Record LeaderboardEntry : Type := mkEntry {
  discordUserId : string;
  username : string;
  rating : Z;
  maxRating : Z;
  rank : string
}.

(** What the command answers with: a text, or the description and the
    fields of the embed. *)
Inductive Reply : Type :=
| NotInGuild
| NoAccounts
| NoData
| Board (description : string) (fields : list (string * string))
| CommandError (errorMessage : string).

Definition getPositionDisplay (position : Z) : string :=
  if position =? 1 then "🥇"
  else if position =? 2 then "🥈"
  else if position =? 3 then "🥉"
  else " **" +:+ Js.show position +:+ ".**".

(** The body of the loop over the linked accounts: what it pushes to
    [leaderboardData]. *)
Definition lookup (env : Env) (account : LinkedAccounts.t)
    : M (list LeaderboardEntry) :=
  try_catch
    (let! userInfo :=
       CodeforcesService.getUserInfo env (LinkedAccounts.username account) in
     ret [mkEntry (LinkedAccounts.discord_user_id account)
            (UserInfo.handle userInfo)
            (UserInfo.rating userInfo)
            (UserInfo.maxRating userInfo)
            (Js.or_else (Some (UserInfo.rank userInfo)) "unrated")])
    (fun _ => ret []).

(** [leaderboardData.sort((a, b) => b.rating - a.rating)]: the sort of
    an array is stable, and on ratings the comparison is a total order,
    so the result is the one of any stable sort. *)
Fixpoint insert (a : LeaderboardEntry) (sorted : list LeaderboardEntry)
    : list LeaderboardEntry :=
  match sorted with
  | [] => [a]
  | b :: rest =>
      if rating a <? rating b then b :: insert a rest else a :: sorted
  end.

Fixpoint sort (data : list LeaderboardEntry) : list LeaderboardEntry :=
  match data with
  | [] => []
  | a :: rest => insert a (sort rest)
  end.

(** The callback of [map], with the index of the entry. *)
Definition line (index : nat) (user : LeaderboardEntry) : string :=
  let position := getPositionDisplay (Z.of_nat index + 1) in
  let ratingDisplay :=
    if 0 <? rating user then Js.show (rating user) else "Unrated" in
  let maxRatingDisplay :=
    if 0 <? maxRating user
    then " (max: " +:+ Js.show (maxRating user) +:+ ")"
    else EmptyString in
  position +:+ " **" +:+ username user +:+ "** - " +:+ ratingDisplay
  +:+ maxRatingDisplay.

Definition chunkSize : nat := 10.

(** [for (let i = 0; i < entries.length; i += chunkSize)], from a given
    [i]; the loop makes at most one turn per entry. *)
Fixpoint rankings_from (turns : nat) (i : nat) (entries : list string)
    : list (string * string) :=
  match turns with
  | O => []
  | S turns' =>
      if (i <? length entries)%nat then
        let chunk := firstn chunkSize (skipn i entries) in
        let fieldName :=
          if (i =? 0)%nat then "Rankings" else "Rankings (continued)" in
        (fieldName, String.concat Js.nl chunk)
        :: rankings_from turns' (i + chunkSize) entries
      else []
  end.

Definition rankings (entries : list string) : list (string * string) :=
  rankings_from (length entries) 0 entries.

(** [Math.round(sum / totalUsers)]: the nearest integer, the upper one
    half way. *)
Definition averageRating (data : list LeaderboardEntry) : Z :=
  let totalUsers := Z.of_nat (length data) in
  let sum := fold_left (fun sum u => sum + rating u) data 0 in
  (2 * sum + totalUsers) / (2 * totalUsers).

Definition serverStats (data : list LeaderboardEntry) : string * string :=
  ("Server Stats",
   "**Total Users:** " +:+ Js.show (Z.of_nat (length data)) +:+ Js.nl
   +:+ "**Average Rating:** " +:+ Js.show (averageRating data)).

Definition board (leaderboardData : list LeaderboardEntry) : Reply :=
  let sorted := sort leaderboardData in
  let entries := imap line (firstn 25 sorted) in
  Board ("Showing top " +:+ Js.show (Z.min (Z.of_nat (length sorted)) 25)
         +:+ " users in this server")
        (rankings entries ++ [serverStats sorted]).

(** [platform] is the column of the table that the query of
    supabase.client.js tests. *)
Definition execute (env : Env)
    (platform : LinkedAccounts.t -> option string)
    (guildId : option string) : M Reply :=
  match guildId with
  | None => ret NotInGuild
  | Some guildId =>
      if negb (Js.truthy guildId) then ret NotInGuild
      else
        try_catch
          (let! linkedAccounts :=
             SupabaseClient.getAllGuildLinkedAccounts platform guildId in
           match linkedAccounts with
           | [] => ret NoAccounts
           | _ :: _ =>
               let! pushed := for_each (lookup env) linkedAccounts in
               let leaderboardData := concat pushed in
               match leaderboardData with
               | [] => ret NoData
               | _ :: _ => ret (board leaderboardData)
               end
           end)
          (fun error =>
             ret (CommandError (Js.errorMessage_or_unexpected error)))
  end.

End Leaderboard.

(** ** Notions of the specification *)

Module Spec.

(** Two characters are the same letter when they are equal or when one
    is the capital of the other. *)
Definition same_letter (a b : ascii) : Prop :=
  a = b
  \/ (Js.is_lower a = true /\ nat_of_ascii b = (nat_of_ascii a - 32)%nat)
  \/ (Js.is_lower b = true /\ nat_of_ascii a = (nat_of_ascii b - 32)%nat).

(** Equality of strings under case-insensitive comparison. *)
Inductive eq_ignoring_case : string -> string -> Prop :=
| eic_empty : eq_ignoring_case EmptyString EmptyString
| eic_letter a b s t :
    same_letter a b -> eq_ignoring_case s t ->
    eq_ignoring_case (String a s) (String b t).

(** The key of a session: (owning user, server, claimed username). *)
Definition session_key (row : PendingVerification.t)
    : string * string * string :=
  (PendingVerification.discord_user_id row,
   PendingVerification.guild_id row,
   PendingVerification.username row).

(** The sessions of the table that have the given key. *)
Definition sessions_of (key : string * string * string)
    (table : list PendingVerification.t) : list PendingVerification.t :=
  List.filter (fun row => bool_decide (session_key row = key)) table.

(** The sessions of the table that have another key. *)
Definition sessions_besides (key : string * string * string)
    (table : list PendingVerification.t) : list PendingVerification.t :=
  List.filter (fun row => negb (bool_decide (session_key row = key))) table.

(** The row that a creation call inserts in world [w]: the table gives
    it the next UUID and the current time as [started_at]. *)
Definition created_row (env : Env) (v : PendingVerification.t) (w : World)
    : PendingVerification.t :=
  PendingVerification.mk (next_uuid w)
    (PendingVerification.discord_user_id v)
    (PendingVerification.guild_id v)
    (PendingVerification.username v)
    (PendingVerification.problem_id v)
    (PendingVerification.problem_url v)
    (PendingVerification.problem_name v)
    (PendingVerification.expires_at v)
    (Some (clock env (steps w))).

(** The roles a member holds. *)
Definition roles_held (w : World) (member : GuildMember.t) : gset string :=
  default ∅ (member_roles w !! (GuildMember.guild member,
                                GuildMember.user member)).

(** The roles of the rank-role map other than the target, among those
    held. *)
Definition other_rank_roles (rankRoleMap : gmap string string)
    (roleId : string) (held : gset string) : gset string :=
  filter (fun r => r ∈ RoleManager.Object_values rankRoleMap /\ r ≠ roleId)
         held.

(** A guild whose accounts the role sync processes: rank roles are
    configured for it and the client has it cached. *)
Definition syncable (w : World) (guildId : string) : bool :=
  negb (RoleSync.no_rank_roles (guild_config w !! guildId))
  && bool_decide (is_Some (guilds w !! guildId)).

(** The number of accounts in the groups whose guild satisfies [P]. *)
Fixpoint weight (P : string -> bool)
    (groups : list (string * list LinkedAccounts.t)) : nat :=
  match groups with
  | [] => 0
  | (guildId, accounts) :: groups' =>
      ((if P guildId then length accounts else 0) + weight P groups')%nat
  end.

(** Every account of a group belongs to the guild of the group. *)
Definition grouped (groups : list (string * list LinkedAccounts.t)) : Prop :=
  forall guildId accounts account,
    In (guildId, accounts) groups -> In account accounts ->
    LinkedAccounts.guild_id account = guildId.

(** The account is in the group of its guild. *)
Definition placed (account : LinkedAccounts.t)
    (groups : list (string * list LinkedAccounts.t)) : Prop :=
  exists accounts,
    In (LinkedAccounts.guild_id account, accounts) groups
    /\ In account accounts.

(** What the role sync leaves alone while it processes one account,
    apart from the count of the updated roles. *)
Definition sync_frame (w w' : World) : Prop :=
  guild_config w' = guild_config w
  /\ guilds w' = guilds w
  /\ SyncResults.totalProcessed (results w')
     = SyncResults.totalProcessed (results w)
  /\ SyncResults.skipped (results w') = SyncResults.skipped (results w)
  /\ SyncResults.errors (results w') = SyncResults.errors (results w).

(** A computation respects a relation between worlds when the world it
    leaves is related to the world it starts from, whether it returns or
    throws. *)
Definition respects {A} (R : World -> World -> Prop) (m : M A) : Prop :=
  forall w, R w (fst (m w)).

(** A computation never throws. *)
Definition total {A} (m : M A) : Prop :=
  forall w, exists a, snd (m w) = inr a.

(** The table of sessions only loses rows. *)
Definition sessions_shrink (w w' : World) : Prop :=
  incl (pending_verifications w') (pending_verifications w).

(** The needle occurs in the text. *)
Definition occurs (needle hay : string) : Prop :=
  exists before after, hay = before +:+ needle +:+ after.

(** The thrown value is an [Error] whose message says "not found". *)
Definition says_not_found (e : Js.thrown) : Prop :=
  exists message code,
    e = Js.ErrorObj message code /\ occurs "not found" message.

(** The key of a linked account: (owning user, server, username). *)
Definition account_key (row : LinkedAccounts.t) : string * string * string :=
  (LinkedAccounts.discord_user_id row,
   LinkedAccounts.guild_id row,
   LinkedAccounts.username row).

(** The linked accounts of the table that have another key. *)
Definition accounts_besides (key : string * string * string)
    (table : list LinkedAccounts.t) : list LinkedAccounts.t :=
  List.filter (fun row => negb (bool_decide (account_key row = key))) table.

(** What the writing subcommands of /setup require: the command is used
    in guild [g], which the client has cached, the member of the bot is
    known there, and the role lies strictly below its highest role. *)
Definition setup_allowed (role : Setup.Role) (guildId : option string)
    (me : option Z) (w : World) (g : string) : Prop :=
  guildId = Some g /\ Js.truthy g = true /\ is_Some (guilds w !! g)
  /\ exists highest, me = Some highest /\ Setup.position role < highest.

(** The session that /link asks the store to create. *)
Definition requested_session (userId guildId : string)
    (userInfo : UserInfo.t) (problem : RandomProblem.t) (expiresAt : Z)
    : PendingVerification.t :=
  PendingVerification.mk 0 userId guildId (UserInfo.handle userInfo)
    (RandomProblem.id problem) (RandomProblem.url problem)
    (Some (RandomProblem.name problem)) expiresAt None.

(** The tables of the store are as before. *)
Definition same_store (w w' : World) : Prop :=
  pending_verifications w' = pending_verifications w
  /\ linked_accounts w' = linked_accounts w
  /\ guild_config w' = guild_config w.

(** The tables of the store and the roles of the members are as
    before. *)
Definition same_store_and_roles (w w' : World) : Prop :=
  pending_verifications w' = pending_verifications w
  /\ linked_accounts w' = linked_accounts w
  /\ guild_config w' = guild_config w
  /\ member_roles w' = member_roles w.

(** [result.username], on either shape of a result of /verify. *)
Definition result_username (r : Verify.VerificationResult) : string :=
  match r with
  | Verify.Success username _ _ _ => username
  | Verify.Failure username _ _ _ _ => username
  end.

(** The check that /verify runs for a pending session: the id of the
    problem is parsed and the submissions of the user are examined from
    the start of the session on (from the present time for a session
    that records no start). *)
Definition session_check (env : Env) (pending : PendingVerification.t)
    : M VerificationResult.t :=
  let! parsed :=
    Verify.parseCodeforcesProblemId (PendingVerification.problem_id pending) in
  let (contestId, index) := parsed in
  let! startedAt :=
    match PendingVerification.started_at pending with
    | Some t => ret t
    | None => Date_now env
    end in
  CodeforcesService.checkCompilationErrorSubmission env
    (PendingVerification.username pending) contestId index startedAt.

(** The fields of a linked account other than its rank. *)
Definition unranked (row : LinkedAccounts.t)
    : nat * (string * string * string) * bool * option Z :=
  (LinkedAccounts.id row, account_key row, LinkedAccounts.verified row,
   LinkedAccounts.verified_at row).

(** Down a leaderboard the ratings never grow. *)
Fixpoint descending (data : list Leaderboard.LeaderboardEntry) : Prop :=
  match data with
  | [] => True
  | a :: rest =>
      Forall (fun b => Leaderboard.rating b <= Leaderboard.rating a) rest
      /\ descending rest
  end.

(** The field of the embed that shows the k-th group of lines. *)
Definition rankings_field (k : nat) (chunk : list string)
    : string * string :=
  (if Nat.eqb k 0 then "Rankings" else "Rankings (continued)",
   String.concat Js.nl chunk).

(** The entry of the results of /verify that reports the expiry of a
    session. *)
Definition expiry_of (pending : PendingVerification.t)
    : Verify.VerificationResult :=
  Verify.Failure (PendingVerification.username pending)
    "Verification expired. Please start a new verification with `/link`."
    None None None.

(** The table of sessions without the rows of a given id. *)
Definition without_session (id : nat) (w : World)
    : list PendingVerification.t :=
  List.filter
    (fun row => negb (Nat.eqb (PendingVerification.id row) id))
    (pending_verifications w).

(** The verified Codeforces accounts of a guild, in the order of the
    table. *)
Definition codeforces_accounts_of
    (platform : LinkedAccounts.t -> option string) (guildId : string)
    (w : World) : list LinkedAccounts.t :=
  List.filter
    (fun row =>
       String.eqb (LinkedAccounts.guild_id row) guildId
       && bool_decide (platform row = Some "codeforces")
       && LinkedAccounts.verified row)
    (linked_accounts w).

(** What goes wrong while the role sync processes an account, from the
    world in which the turn of the account starts: the error of the
    lookup of the user; or, when the rank has changed, the error of the
    update of the stored rank, or the error of the fetch of the member,
    unless it is the error with the code 10007 of a member who has
    left.  The assignment of the role itself reports its failures as a
    flag and is no error. *)
Definition account_failure (env : Env) (guildId : string)
    (account : LinkedAccounts.t) (w : World) : option Js.thrown :=
  match CodeforcesService.getUserInfo env
          (LinkedAccounts.username account) w with
  | (_, inl e) => Some e
  | (w1, inr cfUserInfo) =>
      let currentRank := Js.toLowerCase (UserInfo.rank cfUserInfo) in
      let storedRank := Js.toLowerCase <$> LinkedAccounts.rank account in
      if Js.truthy currentRank
         && negb (bool_decide (Some currentRank = storedRank))
      then
        match Supabase.updateLinkedAccountRank
                (LinkedAccounts.id account) currentRank w1 with
        | (_, inl e) => Some e
        | (w2, inr _) =>
            match Discord.members_fetch env guildId
                    (LinkedAccounts.discord_user_id account) w2 with
            | (_, inl (Js.ErrorObj _ (Some 10007))) => None
            | (_, inl e) => Some e
            | (_, inr _) => None
            end
        end
      else None
  end.

(** The entry of the errors for an account whose turn starts in a given
    world: none when nothing goes wrong. *)
Definition recorded_failure (env : Env)
    (visit : LinkedAccounts.t * World) : list string :=
  let (account, w) := visit in
  match account_failure env (LinkedAccounts.guild_id account) account w with
  | Some e =>
      [RoleSync.failed_to_sync account (LinkedAccounts.guild_id account) e]
  | None => []
  end.

(** What a world reached during a role sync has in common with the
    world in which the sync started: the configuration, the cached
    guilds, the sessions, and the rows of the accounts up to their
    ranks. *)
Definition during_sync (w w' : World) : Prop :=
  guild_config w' = guild_config w
  /\ guilds w' = guilds w
  /\ pending_verifications w' = pending_verifications w
  /\ map unranked (linked_accounts w') = map unranked (linked_accounts w).

End Spec.

(** ** Worlds and environments to run the model on *)

Module Fixtures.

(** An environment in which the clock stands at 0 and every remote call
    fails. *)
Definition offline : Env :=
  {| clock := fun _ => 0;
     localTZA := fun _ _ => 0;
     random := fun _ => 0%Q;
     user_status := fun _ _ _ _ => AxiosOther (Js.Error "offline");
     user_info := fun _ _ => AxiosOther (Js.Error "offline");
     problemset_problems := fun _ => AxiosOther (Js.Error "offline");
     roles_add_fault := fun _ _ _ => None;
     roles_remove_fault := fun _ _ _ => None;
     members_fetch_fault := fun _ _ _ => None |}.

Definition with_clock (c : nat -> Z) (env : Env) : Env :=
  {| clock := c;
     localTZA := localTZA env;
     random := random env;
     user_status := user_status env;
     user_info := user_info env;
     problemset_problems := problemset_problems env;
     roles_add_fault := roles_add_fault env;
     roles_remove_fault := roles_remove_fault env;
     members_fetch_fault := members_fetch_fault env |}.

(** [{status: "OK", result}] *)
Definition OK {T} (result : T) : AxiosOutcome T :=
  Fulfilled (CodeforcesApiResponse.mk "OK" (Some result) None).

(** An environment in which the user has made the given submissions. *)
Definition with_submissions (subs : list CodeforcesSubmission.t) (env : Env)
    : Env :=
  {| clock := clock env;
     localTZA := localTZA env;
     random := random env;
     user_status := fun _ _ _ _ => OK subs;
     user_info := user_info env;
     problemset_problems := problemset_problems env;
     roles_add_fault := roles_add_fault env;
     roles_remove_fault := roles_remove_fault env;
     members_fetch_fault := members_fetch_fault env |}.

Definition empty_world : World :=
  mkWorld 0 0 None None [] [] ∅ 0 ∅ ∅ (SyncResults.mk 0 0 [] 0).

(** A submission to problem 1500A. *)
Definition submission_1500A (index : string) (verdict : option string)
    (creationTimeSeconds : Z) : CodeforcesSubmission.t :=
  CodeforcesSubmission.mk 1
    (CodeforcesProblem.mk 1500 index "Watermelon" (Some 1600))
    verdict creationTimeSeconds "GNU C++17".

(** An environment whose catalogue is the given list of problems and
    whose draws are all 0. *)
Definition with_catalogue (problems : list CodeforcesProblem.t) (env : Env)
    : Env :=
  {| clock := clock env;
     localTZA := localTZA env;
     random := fun _ => 0%Q;
     user_status := user_status env;
     user_info := user_info env;
     problemset_problems := fun _ => OK problems;
     roles_add_fault := roles_add_fault env;
     roles_remove_fault := roles_remove_fault env;
     members_fetch_fault := members_fetch_fault env |}.

(** A catalogue whose only problem has a lower-case index. *)
Definition lower_case_catalogue : Env :=
  with_catalogue [CodeforcesProblem.mk 1500 "a" "Watermelon" (Some 1600)]
    offline.

(** The user submitted a compile error to 1500A at second 10. *)
Definition early_compile_error : Env :=
  with_submissions [submission_1500A "A" (Some "COMPILATION_ERROR") 10]
    offline.

(** The user submitted a wrong answer to 1500a at second 20. *)
Definition wrong_answer : Env :=
  with_submissions [submission_1500A "a" (Some "WRONG_ANSWER") 20] offline.

(** An environment whose clock always reads the given time. *)
Definition at_time (t : Z) : Env := with_clock (fun _ => t) offline.

(** A challenge on problem 1500A issued to user 42 in guild g1 for the
    handle alice, expiring at 600 s. *)
Definition challenge_A : PendingVerification.t :=
  PendingVerification.mk 7 "42" "g1" "alice" "1500A"
    "https://codeforces.com/problemset/problem/1500/A" (Some "Watermelon")
    600000 (Some 0).

(** An older challenge for the same key. *)
Definition challenge_A_old : PendingVerification.t :=
  PendingVerification.mk 6 "42" "g1" "alice" "1499C"
    "https://codeforces.com/problemset/problem/1499/C" (Some "Minimum Grid Path")
    300000 (Some 0).

(** A later challenge for the same key, on problem 1501B. *)
Definition challenge_B : PendingVerification.t :=
  PendingVerification.mk 0 "42" "g1" "alice" "1501B"
    "https://codeforces.com/problemset/problem/1501/B" (Some "Theatre Square")
    900000 None.

(** A challenge of another user. *)
Definition challenge_of_bob : PendingVerification.t :=
  PendingVerification.mk 8 "43" "g1" "bob" "1500A"
    "https://codeforces.com/problemset/problem/1500/A" (Some "Watermelon")
    600000 (Some 0).

(** The rank roles of guild g1. *)
Definition rank_roles_g1 : gmap string string :=
  <["newbie" := "role-newbie"]>
    (<["pupil" := "role-pupil"]> (<["expert" := "role-expert"]> ∅)).

Definition config_g1 : GuildConfig.t :=
  GuildConfig.mk "g1" (Some "role-verified") (Some rank_roles_g1).

Definition member_42 : GuildMember.t := GuildMember.mk "g1" "42".

Definition account (id : nat) (user guild username : string)
    (rank : option string) : LinkedAccounts.t :=
  LinkedAccounts.mk id user guild username true (Some 0) rank.

(** Guild g1 is configured and cached, guild g2 is not configured.  User
    42 holds the verified role and two rank roles.  The table of
    sessions holds two sessions of the key (42, g1, alice) and one of
    another key; three accounts are linked in g1 and one in g2. *)
Definition busy_world : World :=
  mkWorld 0 0 None None
    [challenge_A_old; challenge_of_bob; challenge_A]
    [account 1 "42" "g1" "alice" (Some "newbie");
     account 2 "43" "g1" "bob" (Some "pupil");
     account 3 "44" "g2" "carol" None;
     account 4 "45" "g1" "dave" None]
    (<["g1" := config_g1]> ∅)
    9
    (<["g1" := {["role-verified"; "role-newbie"; "role-pupil"; "role-expert"]}]> ∅)
    (<[("g1", "42") := {["role-verified"; "role-newbie"; "role-pupil"]}]>
       (<[("g1", "43") := ∅]> (<[("g1", "45") := ∅]> ∅)))
    (SyncResults.mk 0 0 [] 0).

(** [{handle, rank}] as the user-info endpoint answers it. *)
Definition user (handle rank : string) : CodeforcesUser.t :=
  CodeforcesUser.mk handle (Some rank) (Some 1600) (Some rank) (Some 1600)
    None None.

(** The lookup of alice times out, bob is an expert, dave a pupil. *)
Definition alice_times_out : Env :=
  {| clock := fun _ => 0;
     localTZA := fun _ _ => 0;
     random := fun _ => 0%Q;
     user_status := fun _ _ _ _ => AxiosOther (Js.Error "offline");
     user_info := fun _ handle =>
       if String.eqb handle "alice"
       then AxiosNoResponse "ECONNABORTED" "timeout of 15000ms exceeded"
       else if String.eqb handle "bob" then OK [user "bob" "expert"]
       else OK [user handle "pupil"];
     problemset_problems := fun _ => AxiosOther (Js.Error "offline");
     roles_add_fault := fun _ _ _ => None;
     roles_remove_fault := fun _ _ _ => None;
     members_fetch_fault := fun _ _ _ => None |}.

(** A world whose snapshot of the pool, taken at time 1, holds one
    problem. *)
Definition world_with_snapshot : World :=
  mkWorld 0 0
    (Some [CodeforcesProblem.mk 1500 "A" "Watermelon" (Some 1600)]) (Some 1)
    [] [] ∅ 0 ∅ ∅ (SyncResults.mk 0 0 [] 0).

(** The Discord API refuses to add any role. *)
Definition missing_permissions : Env :=
  {| clock := fun _ => 0;
     localTZA := fun _ _ => 0;
     random := fun _ => 0%Q;
     user_status := fun _ _ _ _ => AxiosOther (Js.Error "offline");
     user_info := fun _ _ => AxiosOther (Js.Error "offline");
     problemset_problems := fun _ => AxiosOther (Js.Error "offline");
     roles_add_fault := fun _ _ _ =>
       Some (Js.ErrorObj "Missing Permissions" (Some 50013));
     roles_remove_fault := fun _ _ _ => None;
     members_fetch_fault := fun _ _ _ => None |}.

(** Bob is an expert, everybody else a pupil; no member can be fetched,
    they have all left. *)
Definition everybody_left : Env :=
  {| clock := fun _ => 0;
     localTZA := fun _ _ => 0;
     random := fun _ => 0%Q;
     user_status := fun _ _ _ _ => AxiosOther (Js.Error "offline");
     user_info := fun _ handle =>
       if String.eqb handle "bob" then OK [user "bob" "expert"]
       else OK [user handle "pupil"];
     problemset_problems := fun _ => AxiosOther (Js.Error "offline");
     roles_add_fault := fun _ _ _ => None;
     roles_remove_fault := fun _ _ _ => None;
     members_fetch_fault := fun _ _ _ => Some Discord.UnknownMember |}.

(** The clock reads 100 ms at the first reading and 700 s at every
    later one: a command that starts at 100 ms reaches its sessions
    after they have expired. *)
Definition slow_command : Env :=
  with_clock (fun n => if Nat.eqb n 0 then 100 else 700000) offline.

(** Codeforces answers every lookup, and its catalogue holds one
    problem. *)
Definition codeforces_up : Env :=
  with_catalogue [CodeforcesProblem.mk 1500 "A" "Watermelon" (Some 1600)]
    everybody_left.

(** A stand-in for the operator [ilike] of the store in the examples:
    what it computes on texts and patterns of ASCII letters and
    digits. *)
Definition ilike_plain (text pattern : string) : bool :=
  String.eqb (Js.toUpperCase text) (Js.toUpperCase pattern).

(** Codeforces answers every request for users with the user bob, as it
    does for a query that lists several handles of which bob is the
    first. *)
Definition answers_bob : Env :=
  {| clock := fun _ => 0;
     localTZA := fun _ _ => 0;
     random := fun _ => 0%Q;
     user_status := fun _ _ _ _ => AxiosOther (Js.Error "offline");
     user_info := fun _ _ => OK [user "bob" "expert"];
     problemset_problems := fun _ =>
       OK [CodeforcesProblem.mk 1500 "A" "Watermelon" (Some 1600)];
     roles_add_fault := fun _ _ _ => None;
     roles_remove_fault := fun _ _ _ => None;
     members_fetch_fault := fun _ _ _ => None |}.

(** New York on 3 November 2024, five minutes before the clocks go back
    from 2:00 to 1:00 local time (at 6:00 UTC): the offset is 4 hours
    before that instant and 5 hours from it on. *)
Definition new_york_fall_back : Env :=
  {| clock := fun _ => 1730613300000;
     localTZA := fun t isUTC =>
       if isUTC
       then (if t <? 1730613600000 then -14400000 else -18000000)
       else (if t <? 1730599200000 then -14400000 else -18000000);
     random := fun _ => 0%Q;
     user_status := fun _ _ _ _ => AxiosOther (Js.Error "offline");
     user_info := fun _ _ => AxiosOther (Js.Error "offline");
     problemset_problems := fun _ => AxiosOther (Js.Error "offline");
     roles_add_fault := fun _ _ _ => None;
     roles_remove_fault := fun _ _ _ => None;
     members_fetch_fault := fun _ _ _ => None |}.

(** Bob is an expert, everybody else a pupil; the Discord API refuses
    every fetch of a member. *)
Definition fetch_refused : Env :=
  {| clock := fun _ => 0;
     localTZA := fun _ _ => 0;
     random := fun _ => 0%Q;
     user_status := fun _ _ _ _ => AxiosOther (Js.Error "offline");
     user_info := fun _ handle =>
       if String.eqb handle "bob" then OK [user "bob" "expert"]
       else OK [user handle "pupil"];
     problemset_problems := fun _ => AxiosOther (Js.Error "offline");
     roles_add_fault := fun _ _ _ => None;
     roles_remove_fault := fun _ _ _ => None;
     members_fetch_fault := fun _ _ _ =>
       Some (Js.ErrorObj "Missing Access" (Some 50001)) |}.

(** Every row of the table of accounts is a Codeforces account. *)
Definition all_codeforces (row : LinkedAccounts.t) : option string :=
  Some "codeforces".

Definition account_of_bob : LinkedAccounts.t :=
  account 2 "43" "g1" "bob" (Some "pupil").

End Fixtures.

(** * Properties *)

(** ** Case-insensitive comparison *)

Section CaseInsensitive.

Import Spec.

Lemma nat_of_upper_char c :
  nat_of_ascii (Js.upper_char c) =
  if Js.is_lower c then (nat_of_ascii c - 32)%nat else nat_of_ascii c.
Proof.
  unfold Js.upper_char. destruct (Js.is_lower c) eqn:E; [|reflexivity].
  apply nat_ascii_embedding. pose proof (nat_ascii_bounded c). lia.
Qed.

Lemma is_lower_bounds c :
  Js.is_lower c = true <-> (97 <= nat_of_ascii c <= 122)%nat.
Proof.
  unfold Js.is_lower. rewrite andb_true_iff, !Nat.leb_le. tauto.
Qed.

Lemma nat_of_ascii_inj a b : nat_of_ascii a = nat_of_ascii b -> a = b.
Proof.
  intros H. rewrite <- (ascii_nat_embedding a), <- (ascii_nat_embedding b).
  now rewrite H.
Qed.

Lemma upper_char_eq_iff a b :
  Js.upper_char a = Js.upper_char b <-> same_letter a b.
Proof.
  unfold same_letter. split.
  - intros H. apply (f_equal nat_of_ascii) in H.
    rewrite !nat_of_upper_char in H.
    destruct (Js.is_lower a) eqn:Ea, (Js.is_lower b) eqn:Eb.
    + left. apply nat_of_ascii_inj.
      apply is_lower_bounds in Ea, Eb. lia.
    + right; left. split; [reflexivity|]. lia.
    + right; right. split; [reflexivity|]. lia.
    + left. now apply nat_of_ascii_inj.
  - intros [->|[[Ea H]|[Eb H]]]; [reflexivity| |];
      apply nat_of_ascii_inj; rewrite !nat_of_upper_char.
    + rewrite Ea. destruct (Js.is_lower b) eqn:Eb; [|lia].
      apply is_lower_bounds in Ea, Eb. lia.
    + rewrite Eb. destruct (Js.is_lower a) eqn:Ea; [|lia].
      apply is_lower_bounds in Ea, Eb. lia.
Qed.

(** On strings of ASCII characters, comparing the upper-cased strings
    is comparing without regard to the case of the letters. *)
Lemma toUpperCase_eq_iff s t :
  Js.is_ascii s = true -> Js.is_ascii t = true ->
  (Js.toUpperCase s = Js.toUpperCase t <-> eq_ignoring_case s t).
Proof.
  intros _ _. split.
  - revert t. induction s as [|a s IH]; intros [|b t] H; simpl in H;
      try discriminate.
    + constructor.
    + injection H as Hc Hs. constructor.
      * now apply upper_char_eq_iff.
      * now apply IH.
  - induction 1 as [|a b s t Hab _ IH]; simpl; [reflexivity|].
    f_equal; [now apply upper_char_eq_iff | exact IH].
Qed.

End CaseInsensitive.

(** ** The Codeforces service *)

Section Service.

Import CodeforcesService Spec.

Variable env : Env.

(** The world after a request: three oracle readings were made (two of
    the clock, one of the endpoint) and the time of the second reading
    was recorded. *)
Lemma makeRequest_run {T} (call : nat -> AxiosOutcome T) w :
  makeRequest env call w =
  (set_lastRequestTime (clock env (S (steps w))) (set_steps (3 + steps w) w),
   settle (call (2 + steps w)%nat)).
Proof.
  unfold makeRequest, respectRateLimit, bind, Date_now, ask, gets, modify,
    sleep, ret, settled.
  simpl. destruct (_ <? _); reflexivity.
Qed.

(** The submissions examined are the answer of the upstream to the
    request for the 20 most recent ones, field by field. *)
Lemma getRecentSubmissions_run username count w :
  getRecentSubmissions env username count w =
  (set_lastRequestTime (clock env (S (steps w))) (set_steps (3 + steps w) w),
   match settle (user_status env (2 + steps w)%nat username 1 count) with
   | inl e => inl e
   | inr raw => inr (map to_submission raw)
   end).
Proof.
  unfold getRecentSubmissions, try_catch, bind. rewrite makeRequest_run.
  destruct (settle _); reflexivity.
Qed.

(** Running the check is running the fetch and then the two scans. *)
Lemma checkCompilationErrorSubmission_run username contestId problemIndex startedAt w :
  checkCompilationErrorSubmission env username contestId problemIndex startedAt w =
  match getRecentSubmissions env username 20 w with
  | (w', inl e) => (w', inl e)
  | (w', inr submissions) =>
      (w', inr
         match find (isMatchingSubmission contestId problemIndex startedAt)
                    submissions with
         | Some found =>
             VerificationResult.mk true (Some found)
               "Compilation Error submission found!"
         | None =>
             match find (isProblemSubmission contestId problemIndex startedAt)
                        submissions with
             | Some other =>
                 VerificationResult.mk false (Some other)
                   (wrong_verdict_message other)
             | None =>
                 VerificationResult.mk false None
                   "No submission found to the specified problem"
             end
         end)
  end.
Proof.
  unfold checkCompilationErrorSubmission, try_catch, bind.
  destruct (getRecentSubmissions env username 20 w) as [w' [e|submissions]];
    [reflexivity|].
  destruct (find _ submissions); [reflexivity|].
  destruct (find _ submissions); reflexivity.
Qed.

Lemma isProblemMatch_iff contestId problemIndex sub :
  isProblemMatch contestId problemIndex sub = true <->
  Submission.contestId sub = contestId
  /\ Js.toUpperCase (Submission.problemIndex sub)
     = Js.toUpperCase problemIndex.
Proof.
  unfold isProblemMatch.
  rewrite andb_true_iff, Z.eqb_eq, String.eqb_eq. tauto.
Qed.

Lemma isCompilationError_iff sub :
  isCompilationError sub = true <->
  Submission.verdict sub = Some "COMPILATION_ERROR".
Proof.
  unfold isCompilationError. destruct (Submission.verdict sub) as [v|].
  - rewrite String.eqb_eq. split; congruence.
  - split; discriminate.
Qed.

Lemma isSubmissionAfterStart_iff submissionTime startedAt :
  Time.isSubmissionAfterStart submissionTime startedAt = true <->
  startedAt / 1000 <= submissionTime.
Proof. unfold Time.isSubmissionAfterStart. apply Z.leb_le. Qed.

Lemma isMatchingSubmission_iff contestId problemIndex startedAt sub :
  isMatchingSubmission contestId problemIndex startedAt sub = true <->
  Submission.contestId sub = contestId
  /\ Js.toUpperCase (Submission.problemIndex sub)
     = Js.toUpperCase problemIndex
  /\ Submission.verdict sub = Some "COMPILATION_ERROR"
  /\ startedAt / 1000 <= Submission.creationTimeSeconds sub.
Proof.
  unfold isMatchingSubmission.
  rewrite !andb_true_iff, isProblemMatch_iff, isCompilationError_iff,
    isSubmissionAfterStart_iff. tauto.
Qed.

Lemma isProblemSubmission_iff contestId problemIndex startedAt sub :
  isProblemSubmission contestId problemIndex startedAt sub = true <->
  Submission.contestId sub = contestId
  /\ Js.toUpperCase (Submission.problemIndex sub)
     = Js.toUpperCase problemIndex
  /\ startedAt / 1000 <= Submission.creationTimeSeconds sub.
Proof.
  unfold isProblemSubmission.
  rewrite !andb_true_iff, isProblemMatch_iff, isSubmissionAfterStart_iff.
  tauto.
Qed.

(** [find] returns the first element that satisfies the test. *)
Lemma find_first {A} (f : A -> bool) l x :
  find f l = Some x ->
  exists before after,
    l = (before ++ x :: after)%list
    /\ f x = true
    /\ Forall (fun y => f y = false) before.
Proof.
  induction l as [|y l IH]; simpl; [discriminate|].
  destruct (f y) eqn:Ey.
  - intros [= ->]. exists [], l. repeat split; [exact Ey|constructor].
  - intros H. destruct (IH H) as (before & after & -> & Hx & Hb).
    exists (y :: before), after. repeat split; [exact Hx|].
    constructor; assumption.
Qed.

End Service.

Section Evaluation.

Import CodeforcesService Spec.

(** A request that is answered with the status OK and a result returns
    the result. *)
Lemma settle_ok {T} (outcome : AxiosOutcome T) result :
  settle outcome = inr result <->
  exists comment,
    outcome = Fulfilled (CodeforcesApiResponse.mk "OK" (Some result) comment).
Proof.
  unfold settle. split.
  - destruct outcome as [[status [r|] comment]|c m|code m|e]; cbn;
      try discriminate.
    + destruct (String.eqb status "OK") eqn:Hs; [|discriminate].
      apply String.eqb_eq in Hs. intros [= ->]. subst status. eauto.
    + destruct (String.eqb code "ECONNABORTED"); discriminate.
  - intros [comment ->]. reflexivity.
Qed.

(** What the test of the first scan says of a submission as the
    upstream answers it. *)
Lemma isMatchingSubmission_raw contestId problemIndex startedAt raw :
  isMatchingSubmission contestId problemIndex startedAt (to_submission raw)
  = true <->
  CodeforcesProblem.contestId (CodeforcesSubmission.problem raw) = contestId
  /\ Js.toUpperCase (CodeforcesProblem.index (CodeforcesSubmission.problem raw))
     = Js.toUpperCase problemIndex
  /\ CodeforcesSubmission.verdict raw = Some "COMPILATION_ERROR"
  /\ startedAt / 1000 <= CodeforcesSubmission.creationTimeSeconds raw.
Proof. apply isMatchingSubmission_iff. Qed.

(** C1.  The check asks the upstream for the 20 most recent submissions
    of the username.  When the upstream answers with the status OK and a
    list of submissions, the check returns a result, and the result is
    [verified] exactly when one of the submissions of the answer has the
    contest id of the challenge, an index whose upper-cased form is the
    upper-cased index of the challenge, the verdict COMPILATION_ERROR,
    and a creation time (in seconds) not below the start of the session
    converted to seconds.  When the indices are strings of ASCII
    characters, the condition on the index is equality without regard to
    the case of the letters.  On any other answer the check throws. *)
Theorem verified_iff_compilation_error_in_window
    env username contestId problemIndex startedAt w :
  let answer := user_status env (2 + steps w)%nat username 1 20 in
  (forall fetched comment,
      answer
      = Fulfilled (CodeforcesApiResponse.mk "OK" (Some fetched) comment) ->
      exists w' result,
        checkCompilationErrorSubmission env username contestId problemIndex
          startedAt w = (w', inr result)
        /\ (VerificationResult.verified result = true <->
            exists sub,
              In sub fetched
              /\ CodeforcesProblem.contestId (CodeforcesSubmission.problem sub)
                 = contestId
              /\ Js.toUpperCase
                   (CodeforcesProblem.index (CodeforcesSubmission.problem sub))
                 = Js.toUpperCase problemIndex
              /\ CodeforcesSubmission.verdict sub = Some "COMPILATION_ERROR"
              /\ startedAt / 1000
                 <= CodeforcesSubmission.creationTimeSeconds sub)
        /\ (Js.is_ascii problemIndex = true ->
            Forall (fun sub =>
                      Js.is_ascii
                        (CodeforcesProblem.index
                           (CodeforcesSubmission.problem sub)) = true)
                   fetched ->
            (VerificationResult.verified result = true <->
             exists sub,
               In sub fetched
               /\ CodeforcesProblem.contestId (CodeforcesSubmission.problem sub)
                  = contestId
               /\ eq_ignoring_case
                    (CodeforcesProblem.index (CodeforcesSubmission.problem sub))
                    problemIndex
               /\ CodeforcesSubmission.verdict sub = Some "COMPILATION_ERROR"
               /\ startedAt / 1000
                  <= CodeforcesSubmission.creationTimeSeconds sub)))
  /\ ((forall fetched comment,
         answer
         <> Fulfilled (CodeforcesApiResponse.mk "OK" (Some fetched) comment)) ->
      exists w' e,
        checkCompilationErrorSubmission env username contestId problemIndex
          startedAt w = (w', inl e)).
Proof.
  intros answer. rewrite checkCompilationErrorSubmission_run,
    getRecentSubmissions_run. fold answer.
  split.
  - intros fetched comment Hanswer.
    rewrite (proj2 (settle_ok answer fetched)) by eauto.
    eexists _, _. split; [reflexivity|].
    assert (Hverified :
      VerificationResult.verified
        match find (isMatchingSubmission contestId problemIndex startedAt)
                (map to_submission fetched) with
        | Some found =>
            VerificationResult.mk true (Some found)
              "Compilation Error submission found!"
        | None =>
            match find (isProblemSubmission contestId problemIndex startedAt)
                    (map to_submission fetched) with
            | Some other =>
                VerificationResult.mk false (Some other)
                  (wrong_verdict_message other)
            | None =>
                VerificationResult.mk false None
                  "No submission found to the specified problem"
            end
        end = true <->
      exists sub,
        In sub fetched
        /\ isMatchingSubmission contestId problemIndex startedAt
             (to_submission sub) = true).
    { destruct (find (isMatchingSubmission _ _ _) (map to_submission fetched))
        as [found|] eqn:Hfind.
      - cbn. split; [intros _|reflexivity].
        apply find_some in Hfind as [Hin Hm].
        apply in_map_iff in Hin as (sub & <- & Hin). eauto.
      - split.
        + destruct (find (isProblemSubmission _ _ _) _); discriminate.
        + intros (sub & Hin & Hm).
          pose proof (find_none _ _ Hfind (to_submission sub)
                        (in_map to_submission _ _ Hin)). congruence. }
    split.
    + rewrite Hverified. split; intros (sub & Hin & Hm); exists sub;
        (split; [exact Hin|]); now apply isMatchingSubmission_raw.
    + intros Hascii Hall. rewrite Hverified.
      rewrite List.Forall_forall in Hall.
      split; intros (sub & Hin & Hm); exists sub; (split; [exact Hin|]).
      * apply isMatchingSubmission_raw in Hm as (Hc & Hi & Hv & Ht).
        repeat split; try assumption.
        apply toUpperCase_eq_iff; auto.
      * destruct Hm as (Hc & Hi & Hv & Ht).
        apply isMatchingSubmission_raw. repeat split; try assumption.
        apply toUpperCase_eq_iff; auto.
  - intros Hother.
    destruct (settle answer) as [e|fetched] eqn:Hsettle; [eauto|].
    apply settle_ok in Hsettle as [comment Hanswer].
    now destruct (Hother fetched comment).
Qed.

(** C4, as amended.  A submission whose creation time is below the start
    of the session converted to whole seconds never makes the check
    return [verified]: the submission returned with [verified] is not
    such a one, and when every compile-error submission to the challenge
    problem is such a one the result is not [verified].  A submission
    is to the challenge problem when it has its contest id and an index
    that upper-cases to the upper-cased index of the challenge, which is
    the comparison that the source makes. *)
Theorem submission_before_start_second_never_verifies
    env username contestId problemIndex startedAt w :
  match getRecentSubmissions env username 20 w with
  | (w', inr submissions) =>
      exists result,
        checkCompilationErrorSubmission env username contestId problemIndex
          startedAt w = (w', inr result)
        /\ (VerificationResult.verified result = true ->
            exists sub,
              VerificationResult.submission result = Some sub
              /\ In sub submissions
              /\ startedAt / 1000 <= Submission.creationTimeSeconds sub)
        /\ ((forall sub,
               In sub submissions ->
               Submission.contestId sub = contestId ->
               Js.toUpperCase (Submission.problemIndex sub)
               = Js.toUpperCase problemIndex ->
               Submission.verdict sub = Some "COMPILATION_ERROR" ->
               Submission.creationTimeSeconds sub < startedAt / 1000) ->
            VerificationResult.verified result = false)
  | (w', inl e) =>
      checkCompilationErrorSubmission env username contestId problemIndex
        startedAt w = (w', inl e)
  end.
Proof.
  rewrite checkCompilationErrorSubmission_run.
  destruct (getRecentSubmissions env username 20 w) as [w' [e|submissions]];
    [reflexivity|].
  eexists; split; [reflexivity|].
  destruct (find (isMatchingSubmission _ _ _) submissions) as [found|] eqn:Hfind.
  - apply find_some in Hfind as [Hin Hm].
    apply isMatchingSubmission_iff in Hm as (Hc & Hi & Hv & Ht).
    split.
    + intros _. exists found. simpl. auto.
    + intros Hstale. specialize (Hstale found Hin Hc Hi Hv). lia.
  - split.
    + destruct (find (isProblemSubmission _ _ _) submissions); discriminate.
    + intros _.
      destruct (find (isProblemSubmission _ _ _) submissions); reflexivity.
Qed.

(** C5.  When no fetched submission is a compile error to the challenge
    problem within the window: if some submission to the problem lies in
    the window, the result is not verified, carries the first such
    submission (whose verdict is therefore another one) and a message
    that quotes its verdict; if none does, the result is not verified
    and carries the not-found message.  A submission is to the
    challenge problem when it has its contest id and an index that
    upper-cases to the upper-cased index of the challenge, which is the
    comparison that the source makes. *)
Theorem other_verdict_is_named
    env username contestId problemIndex startedAt w w' submissions :
  getRecentSubmissions env username 20 w = (w', inr submissions) ->
  (forall sub,
     In sub submissions ->
     ~ (Submission.contestId sub = contestId
        /\ Js.toUpperCase (Submission.problemIndex sub)
           = Js.toUpperCase problemIndex
        /\ Submission.verdict sub = Some "COMPILATION_ERROR"
        /\ startedAt / 1000 <= Submission.creationTimeSeconds sub)) ->
  ((exists sub,
      In sub submissions
      /\ Submission.contestId sub = contestId
      /\ Js.toUpperCase (Submission.problemIndex sub)
         = Js.toUpperCase problemIndex
      /\ startedAt / 1000 <= Submission.creationTimeSeconds sub) ->
   exists before other after,
     submissions = (before ++ other :: after)%list
     /\ Forall (fun sub =>
                  ~ (Submission.contestId sub = contestId
                     /\ Js.toUpperCase (Submission.problemIndex sub)
                        = Js.toUpperCase problemIndex
                     /\ startedAt / 1000 <= Submission.creationTimeSeconds sub))
               before
     /\ Submission.contestId other = contestId
     /\ Js.toUpperCase (Submission.problemIndex other)
        = Js.toUpperCase problemIndex
     /\ startedAt / 1000 <= Submission.creationTimeSeconds other
     /\ Submission.verdict other <> Some "COMPILATION_ERROR"
     /\ checkCompilationErrorSubmission env username contestId problemIndex
          startedAt w =
        (w', inr (VerificationResult.mk false (Some other)
                    ("Found submission but verdict was " +:+ Js.dq
                     +:+ Js.show_opt (Submission.verdict other) +:+ Js.dq
                     +:+ " instead of " +:+ Js.dq +:+ "COMPILATION_ERROR"
                     +:+ Js.dq))))
  /\ ((forall sub,
         In sub submissions ->
         ~ (Submission.contestId sub = contestId
            /\ Js.toUpperCase (Submission.problemIndex sub)
               = Js.toUpperCase problemIndex
            /\ startedAt / 1000 <= Submission.creationTimeSeconds sub)) ->
      checkCompilationErrorSubmission env username contestId problemIndex
        startedAt w =
      (w', inr (VerificationResult.mk false None
                  "No submission found to the specified problem"))).
Proof.
  intros Hfetch Hno.
  rewrite checkCompilationErrorSubmission_run, Hfetch.
  assert (Hnone : find (isMatchingSubmission contestId problemIndex startedAt)
                    submissions = None).
  { destruct (find _ submissions) as [found|] eqn:Hfind; [|reflexivity].
    apply find_some in Hfind as [Hin Hm].
    apply isMatchingSubmission_iff in Hm. now destruct (Hno found Hin). }
  rewrite Hnone. split.
  - intros (sub & Hin & Hsub).
    destruct (find (isProblemSubmission _ _ _) submissions) as [other|] eqn:Hfind.
    + destruct (find_first _ _ _ Hfind) as (before & after & Heq & Ho & Hb).
      apply isProblemSubmission_iff in Ho as (Hc & Hi & Ht).
      exists before, other, after. repeat split; try assumption.
      * eapply List.Forall_impl; [|exact Hb]. intros y Hy Hy'.
        apply isProblemSubmission_iff in Hy'. congruence.
      * intros Hv. apply (Hno other).
        -- rewrite Heq. apply in_or_app. right. now left.
        -- auto.
    + apply (find_none _ _ Hfind) in Hin.
      apply isProblemSubmission_iff in Hsub. congruence.
  - intros Hnoproblem.
    destruct (find (isProblemSubmission _ _ _) submissions) as [other|] eqn:Hfind;
      [|reflexivity].
    apply find_some in Hfind as [Hin Hm].
    apply isProblemSubmission_iff in Hm. now destruct (Hnoproblem other Hin).
Qed.

End Evaluation.

Section EvaluationInstances.

Import CodeforcesService Spec Fixtures.

(** C4, as stated, fails: the session starts at 10.500 s, the compile
    error was submitted at 10 s, half a second earlier, and the check
    returns [verified] with that submission. *)
Lemma compile_error_half_a_second_early_verifies :
  snd (checkCompilationErrorSubmission early_compile_error "alice" 1500 "A"
         10500 empty_world)
  = inr (VerificationResult.mk true
           (Some (to_submission
                    (submission_1500A "A" (Some "COMPILATION_ERROR") 10)))
           "Compilation Error submission found!")
  /\ 1000 * CodeforcesSubmission.creationTimeSeconds
              (submission_1500A "A" (Some "COMPILATION_ERROR") 10) < 10500.
Proof. split; [reflexivity|reflexivity]. Qed.

(** The only submission to the problem is a wrong answer to index [a],
    made after the start: the result is not verified and its message
    quotes WRONG_ANSWER. *)
Lemma other_verdict_is_named_witness :
  snd (checkCompilationErrorSubmission wrong_answer "alice" 1500 "A" 10500
         empty_world)
  = inr (VerificationResult.mk false
           (Some (to_submission (submission_1500A "a" (Some "WRONG_ANSWER") 20)))
           ("Found submission but verdict was " +:+ Js.dq +:+ "WRONG_ANSWER"
            +:+ Js.dq +:+ " instead of " +:+ Js.dq +:+ "COMPILATION_ERROR"
            +:+ Js.dq)).
Proof.
  destruct (other_verdict_is_named wrong_answer "alice" 1500 "A" 10500
              empty_world
              (fst (getRecentSubmissions wrong_answer "alice" 20 empty_world))
              [to_submission (submission_1500A "a" (Some "WRONG_ANSWER") 20)]
              eq_refl) as [Hnamed _].
  - intros sub [<-|[]] (_ & _ & Hv & _). discriminate Hv.
  - destruct Hnamed as (before & other & after & Heq & _ & _ & _ & _ & _ & Hrun).
    + eexists. split; [left; reflexivity|].
      split; [reflexivity|]. split; [reflexivity|].
      apply Z.leb_le; reflexivity.
    + rewrite Hrun. simpl.
      destruct before as [|b before]; simpl in Heq.
      * injection Heq as <- _. reflexivity.
      * injection Heq as _ Heq. destruct before; discriminate Heq.
Defined.

End EvaluationInstances.

(** ** Loops *)

Section Loops.

Context {A B : Type} (f : A -> M B).

(** A loop over a concatenation runs the first part, then the second. *)
Lemma for_each_app xs ys w :
  for_each f (xs ++ ys) w =
  match for_each f xs w with
  | (w1, inl e) => (w1, inl e)
  | (w1, inr bs) =>
      match for_each f ys w1 with
      | (w2, inl e) => (w2, inl e)
      | (w2, inr cs) => (w2, inr (bs ++ cs))
      end
  end.
Proof.
  revert w. induction xs as [|x xs IH]; intros w; simpl.
  - unfold ret. destruct (for_each f ys w) as [w2 [e|cs]]; reflexivity.
  - unfold bind, ret. destruct (f x w) as [w1 [e|b]]; [reflexivity|].
    rewrite IH.
    destruct (for_each f xs w1) as [w2 [e|bs]]; [reflexivity|].
    destruct (for_each f ys w2) as [w3 [e|cs]]; reflexivity.
Qed.

End Loops.

(** ** Sessions of the store *)

Section Sessions.

Import Supabase Spec.

Variable env : Env.

Lemma pending_key_is_iff u g n row :
  pending_key_is u g n row = true <-> session_key row = (u, g, n).
Proof.
  unfold pending_key_is, session_key.
  rewrite !andb_true_iff, !String.eqb_eq. split.
  - intros [[-> ->] ->]. reflexivity.
  - intros [= -> -> ->]. auto.
Qed.

Lemma pending_key_is_decide v row :
  pending_key_is (PendingVerification.discord_user_id v)
    (PendingVerification.guild_id v) (PendingVerification.username v) row
  = bool_decide (session_key row = session_key v).
Proof.
  apply eq_true_iff_eq. rewrite pending_key_is_iff, bool_decide_eq_true.
  reflexivity.
Qed.

(** A creation deletes the sessions of the key, inserts the new one and
    returns it. *)
Lemma createPendingVerification_run v w :
  createPendingVerification env v w =
  (set_pending
     (sessions_besides (session_key v) (pending_verifications w)
      ++ [created_row env v w])
     (set_steps (S (steps w)) (set_next_uuid (S (next_uuid w)) w)),
   inr (created_row env v w)).
Proof.
  assert (Hfilter :
    List.filter
      (fun row =>
         negb (pending_key_is (PendingVerification.discord_user_id v)
                 (PendingVerification.guild_id v)
                 (PendingVerification.username v) row))
      (pending_verifications w)
    = sessions_besides (session_key v) (pending_verifications w)).
  { apply List.filter_ext. intros row. now rewrite pending_key_is_decide. }
  unfold createPendingVerification, uuid_generate_v4, Date_now, ask, bind,
    modify, gets, ret, created_row. simpl.
  now rewrite Hfilter.
Qed.

Lemma sessions_of_app key l1 l2 :
  sessions_of key (l1 ++ l2) = (sessions_of key l1 ++ sessions_of key l2)%list.
Proof. apply List.filter_app. Qed.

Lemma sessions_besides_app key l1 l2 :
  sessions_besides key (l1 ++ l2)
  = (sessions_besides key l1 ++ sessions_besides key l2)%list.
Proof. apply List.filter_app. Qed.

Lemma sessions_of_besides key l : sessions_of key (sessions_besides key l) = [].
Proof.
  unfold sessions_of, sessions_besides.
  induction l as [|row l IH]; simpl; [reflexivity|].
  destruct (bool_decide (session_key row = key)) eqn:E; simpl; [exact IH|].
  now rewrite E.
Qed.

Lemma sessions_besides_idem key l :
  sessions_besides key (sessions_besides key l) = sessions_besides key l.
Proof.
  unfold sessions_besides.
  induction l as [|row l IH]; simpl; [reflexivity|].
  destruct (bool_decide (session_key row = key)) eqn:E; simpl; [exact IH|].
  rewrite E. simpl. now rewrite IH.
Qed.

(** After one creation, whatever the table held: exactly the new session
    has the key, and the sessions of the other keys are as before. *)
Lemma one_session_after_creation v w :
  let w' := fst (createPendingVerification env v w) in
  sessions_of (session_key v) (pending_verifications w') = [created_row env v w]
  /\ sessions_besides (session_key v) (pending_verifications w')
     = sessions_besides (session_key v) (pending_verifications w).
Proof.
  rewrite createPendingVerification_run. simpl. split.
  - rewrite sessions_of_app, sessions_of_besides. simpl.
    unfold sessions_of. simpl.
    now rewrite bool_decide_eq_true_2.
  - rewrite sessions_besides_app, sessions_besides_idem.
    unfold sessions_besides at 2. simpl.
    rewrite bool_decide_eq_true_2 by reflexivity. simpl.
    now rewrite app_nil_r.
Qed.

Lemma creations_never_throw calls w :
  exists rows, snd (for_each (createPendingVerification env) calls w) = inr rows.
Proof.
  revert w. induction calls as [|v calls IH]; intros w; simpl.
  - now exists [].
  - unfold bind at 1. rewrite createPendingVerification_run.
    unfold bind. destruct (IH (set_pending
       (sessions_besides (session_key v) (pending_verifications w)
          ++ [created_row env v w])
       (set_steps (S (steps w)) (set_next_uuid (S (next_uuid w)) w))))
      as [rows Hrows].
    destruct (for_each _ calls _) as [w2 [e|rows']]; simpl in *;
      [discriminate|]. now eexists.
Qed.

Lemma creations_keep_other_keys key calls w :
  Forall (fun v => session_key v = key) calls ->
  sessions_besides key
    (pending_verifications (fst (for_each (createPendingVerification env) calls w)))
  = sessions_besides key (pending_verifications w).
Proof.
  revert w. induction calls as [|v calls IH]; intros w Hall; simpl;
    [reflexivity|].
  inversion Hall as [|? ? Hv Hrest]; subst.
  unfold bind at 1.
  pose proof (one_session_after_creation v w) as [_ Hframe].
  destruct (createPendingVerification env v w) as [w1 [e|row]] eqn:Hrun.
  - rewrite createPendingVerification_run in Hrun. discriminate.
  - simpl in Hframe. specialize (IH w1 Hrest).
    unfold bind.
    destruct (for_each _ calls w1) as [w2 [e|rows]]; simpl in *;
      now rewrite IH.
Qed.

(** C3.  After any sequence of creation calls for one key, started from
    any table, exactly one session has the key (so at most one does):
    the one the latest call inserted and returned, which carries the
    challenge of that call.  The sessions of the other keys are as
    before. *)
Theorem one_session_per_key_after_creations key calls latest w :
  Forall (fun v => session_key v = key) (calls ++ [latest]) ->
  let run := for_each (createPendingVerification env) (calls ++ [latest]) w in
  exists earlier row,
    snd run = inr (earlier ++ [row])
    /\ sessions_of key (pending_verifications (fst run)) = [row]
    /\ (length (sessions_of key (pending_verifications (fst run))) <= 1)%nat
    /\ session_key row = key
    /\ PendingVerification.problem_id row = PendingVerification.problem_id latest
    /\ PendingVerification.problem_url row = PendingVerification.problem_url latest
    /\ PendingVerification.problem_name row = PendingVerification.problem_name latest
    /\ PendingVerification.expires_at row = PendingVerification.expires_at latest
    /\ sessions_besides key (pending_verifications (fst run))
       = sessions_besides key (pending_verifications w).
Proof.
  intros Hall run.
  pose proof (creations_keep_other_keys key _ w Hall) as Hframe.
  apply Forall_app in Hall as [Hcalls Hlatest].
  inversion Hlatest as [|? ? Hkey _]; subst.
  subst run. revert Hframe. rewrite for_each_app.
  destruct (creations_never_throw calls w) as [earlier Hearlier].
  destruct (for_each _ calls w) as [w1 [e|rows]]; simpl in Hearlier;
    [discriminate|]. injection Hearlier as ->.
  pose proof (one_session_after_creation latest w1) as [Hone _].
  cbv zeta in Hone. revert Hone.
  cbn [for_each]. unfold bind, ret.
  rewrite createPendingVerification_run. cbn [fst snd].
  intros Hone Hframe.
  exists earlier, (created_row env latest w1).
  rewrite Hone. repeat split; try reflexivity; try exact Hframe.
Qed.

End Sessions.

(** ** Frame rules: what a computation leaves alone *)

Section Frame.

Import Spec.

Variable R : World -> World -> Prop.
Hypothesis R_refl : forall w, R w w.
Hypothesis R_trans : forall a b c, R a b -> R b c -> R a c.

Lemma respects_ret {A} (a : A) : respects R (ret a).
Proof. intros w. apply R_refl. Qed.

Lemma respects_throw {A} e : respects R (@throw A e).
Proof. intros w. apply R_refl. Qed.

Lemma respects_settled {A} (r : Js.thrown + A) : respects R (settled r).
Proof. intros w. apply R_refl. Qed.

Lemma respects_gets {A} (f : World -> A) : respects R (gets f).
Proof. intros w. apply R_refl. Qed.

Lemma respects_sleep ms : respects R (sleep ms).
Proof. intros w. apply R_refl. Qed.

Lemma respects_modify f : (forall w, R w (f w)) -> respects R (modify f).
Proof. intros H w. apply H. Qed.

Lemma respects_bind {A B} (m : M A) (k : A -> M B) :
  respects R m -> (forall a, respects R (k a)) -> respects R (bind m k).
Proof.
  intros Hm Hk w. unfold bind. specialize (Hm w).
  destruct (m w) as [w1 [e|a]]; [exact Hm|].
  eapply R_trans; [exact Hm|apply Hk].
Qed.

Lemma respects_try_catch {A} (body : M A) handler :
  respects R body -> (forall e, respects R (handler e)) ->
  respects R (try_catch body handler).
Proof.
  intros Hm Hk w. unfold try_catch. specialize (Hm w).
  destruct (body w) as [w1 [e|a]]; [|exact Hm].
  eapply R_trans; [exact Hm|apply Hk].
Qed.

Lemma respects_for_each {A B} (f : A -> M B) xs :
  (forall x, respects R (f x)) -> respects R (for_each f xs).
Proof.
  intros Hf. induction xs as [|x xs IH]; simpl.
  - apply respects_ret.
  - apply respects_bind; [apply Hf|]. intros y.
    apply respects_bind; [exact IH|]. intros ys. apply respects_ret.
Qed.

Hypothesis R_steps : forall w n, R w (set_steps n w).

Lemma respects_ask {A} (oracle : nat -> A) : respects R (ask oracle).
Proof. intros w. apply R_steps. Qed.

End Frame.

(** Splits a goal [respects R m] along the structure of [m]. *)
Ltac frame_step :=
  lazymatch goal with
  | |- Spec.respects _ (ret _) => apply respects_ret; assumption
  | |- Spec.respects _ (throw _) => apply respects_throw; assumption
  | |- Spec.respects _ (settled _) => apply respects_settled; assumption
  | |- Spec.respects _ (gets _) => apply respects_gets; assumption
  | |- Spec.respects _ (sleep _) => apply respects_sleep; assumption
  | |- Spec.respects _ (ask _) => apply respects_ask; assumption
  | |- Spec.respects _ (bind _ _) =>
      apply respects_bind; [..|intros]; try assumption
  | |- Spec.respects _ (try_catch _ _) =>
      apply respects_try_catch; [..|intros]; try assumption
  | |- Spec.respects _ (match ?x with _ => _ end) => destruct x
  end.

Ltac frame := repeat frame_step.

(** ** What the services leave alone *)

Section ServiceFrames.

Import Spec.

Variable env : Env.
Variable R : World -> World -> Prop.
Hypothesis R_refl : forall w, R w w.
Hypothesis R_trans : forall a b c, R a b -> R b c -> R a c.
Hypothesis R_steps : forall w n, R w (set_steps n w).
Hypothesis R_lastRequestTime : forall w t, R w (set_lastRequestTime t w).
Hypothesis R_linked : forall w l, R w (set_linked l w).
Hypothesis R_next_uuid : forall w n, R w (set_next_uuid n w).
Hypothesis R_member_roles : forall w r, R w (set_member_roles r w).

Lemma respects_Date_now : respects R (Date_now env).
Proof. unfold Date_now. frame. Qed.

Lemma respects_isExpired e : respects R (Time.isExpired env e).
Proof. unfold Time.isExpired, Date_now. frame. Qed.

Lemma respects_getRemainingTime e : respects R (Time.getRemainingTime env e).
Proof. unfold Time.getRemainingTime, Date_now. frame. Qed.

Lemma respects_makeRequest {T} (call : nat -> AxiosOutcome T) :
  respects R (CodeforcesService.makeRequest env call).
Proof.
  unfold CodeforcesService.makeRequest, CodeforcesService.respectRateLimit,
    Date_now.
  frame. apply respects_modify. intros w. apply R_lastRequestTime.
Qed.

Lemma respects_getUserInfo username :
  respects R (CodeforcesService.getUserInfo env username).
Proof.
  unfold CodeforcesService.getUserInfo.
  frame. apply respects_makeRequest.
Qed.

Lemma respects_getUserRank username :
  respects R (CodeforcesService.getUserRank env username).
Proof.
  unfold CodeforcesService.getUserRank. frame. apply respects_getUserInfo.
Qed.

Lemma respects_checkCompilationErrorSubmission username contestId index startedAt :
  respects R (CodeforcesService.checkCompilationErrorSubmission env username
                contestId index startedAt).
Proof.
  unfold CodeforcesService.checkCompilationErrorSubmission,
    CodeforcesService.getRecentSubmissions.
  frame. apply respects_makeRequest.
Qed.

Lemma respects_createLinkedAccount u g n rank :
  respects R (Supabase.createLinkedAccount env u g n rank).
Proof.
  unfold Supabase.createLinkedAccount, Supabase.uuid_generate_v4, Date_now.
  frame; apply respects_modify; intros w; auto.
Qed.

Lemma respects_updateLinkedAccountRank accountId newRank :
  respects R (Supabase.updateLinkedAccountRank accountId newRank).
Proof.
  unfold Supabase.updateLinkedAccountRank.
  frame; apply respects_modify; intros w; auto.
Qed.

Lemma respects_roles_add member role :
  respects R (Discord.roles_add env member role).
Proof.
  unfold Discord.roles_add, Discord.roles_cache, Discord.set_roles.
  frame. apply respects_modify; intros w; auto.
Qed.

Lemma respects_roles_remove member roles :
  respects R (Discord.roles_remove env member roles).
Proof.
  unfold Discord.roles_remove, Discord.roles_cache, Discord.set_roles.
  frame. apply respects_modify; intros w; auto.
Qed.

Lemma respects_members_fetch guildId userId :
  respects R (Discord.members_fetch env guildId userId).
Proof. unfold Discord.members_fetch. frame. Qed.

Lemma respects_assignVerifiedRole member guildId :
  respects R (RoleManager.assignVerifiedRole env member guildId).
Proof.
  unfold RoleManager.assignVerifiedRole, Supabase.getGuildConfig,
    Discord.guild_role, Discord.roles_cache.
  frame. apply respects_roles_add.
Qed.

Lemma respects_assignRankRole member guildId rank :
  respects R (RoleManager.assignRankRole env member guildId rank).
Proof.
  unfold RoleManager.assignRankRole, Supabase.getGuildConfig,
    Discord.guild_role, Discord.roles_cache.
  frame; first [apply respects_roles_add | apply respects_roles_remove].
Qed.

Lemma respects_assignVerificationRoles member guildId rank :
  respects R (RoleManager.assignVerificationRoles env member guildId rank).
Proof.
  unfold RoleManager.assignVerificationRoles.
  frame; first [apply respects_assignVerifiedRole | apply respects_assignRankRole].
Qed.

End ServiceFrames.

(** ** The /verify command *)

Section Expiry.

Import Verify Spec.

Lemma isExpired_run env expiresAt w :
  Time.isExpired env expiresAt w =
  (set_steps (S (steps w)) w, inr (expiresAt <? clock env (steps w))).
Proof. reflexivity. Qed.

Lemma sessions_shrink_refl w : sessions_shrink w w.
Proof. apply incl_refl. Qed.

Lemma sessions_shrink_trans a b c :
  sessions_shrink a b -> sessions_shrink b c -> sessions_shrink a c.
Proof. unfold sessions_shrink. intros Hab Hbc. eapply incl_tran; eassumption. Qed.

Lemma respects_deletePendingVerification verificationId :
  respects sessions_shrink (Supabase.deletePendingVerification verificationId).
Proof. intros w. apply incl_filter. Qed.

Local Ltac shrink_side :=
  first [ assumption
        | exact sessions_shrink_refl
        | exact sessions_shrink_trans
        | intros; apply incl_refl ].

(** Evaluating a pending session never adds a row to the table of
    sessions. *)
Lemma verifyPending_only_removes env userId guildId member pending :
  respects sessions_shrink (verifyPending env userId guildId member pending).
Proof.
  pose proof sessions_shrink_refl as R_refl.
  pose proof sessions_shrink_trans as R_trans.
  assert (R_steps : forall w n, sessions_shrink w (set_steps n w))
    by (intros; apply incl_refl).
  unfold verifyPending.
  apply respects_bind; [assumption| |intros expired].
  { apply respects_isExpired; shrink_side. }
  destruct expired.
  { frame. apply respects_deletePendingVerification. }
  apply respects_bind; [assumption| |intros [failure|[verificationResult userRank]]].
  - apply respects_try_catch; [assumption| |intros; frame].
    unfold parseCodeforcesProblemId.
    apply respects_bind; [assumption|frame|intros [contestId index]].
    apply respects_bind; [assumption| |intros startedAt].
    { destruct (PendingVerification.started_at pending);
        [frame|apply respects_Date_now; shrink_side]. }
    apply respects_bind; [assumption| |intros verificationResult].
    { apply respects_checkCompilationErrorSubmission; shrink_side. }
    apply respects_bind; [assumption| |intros; frame].
    destruct (VerificationResult.verified verificationResult); [|frame].
    frame. apply respects_getUserRank; shrink_side.
  - frame.
  - destruct (VerificationResult.verified verificationResult).
    + frame.
      * apply respects_createLinkedAccount; shrink_side.
      * apply respects_deletePendingVerification.
      * apply respects_assignVerificationRoles; shrink_side.
    + frame. apply respects_getRemainingTime; shrink_side.
Qed.

(** The whole command never adds a row to the table of sessions. *)
Lemma execute_only_removes env userId guildId :
  respects sessions_shrink (execute env userId guildId).
Proof.
  pose proof sessions_shrink_refl as R_refl.
  pose proof sessions_shrink_trans as R_trans.
  assert (R_steps : forall w n, sessions_shrink w (set_steps n w))
    by (intros; apply incl_refl).
  unfold execute, Supabase.getPendingVerifications, Date_now.
  frame.
  apply respects_for_each; [assumption|assumption|].
  intros pending. apply verifyPending_only_removes.
Qed.

(** The body of the loop of the command, on a session whose expiry the
    clock, read by [isExpired], is strictly past: the evaluation deletes
    the session and reports the expiry.  It does so whatever the
    environment holds as submissions: the outcome depends on the
    environment through this one reading of the clock, and no request is
    made.  The rows left have another id, also after any further /verify
    commands. *)
Lemma expired_session_evaluation
    env userId guildId member pending w :
  PendingVerification.expires_at pending < clock env (steps w) ->
  let w' :=
    set_pending
      (List.filter
         (fun row => negb (Nat.eqb (PendingVerification.id row)
                                   (PendingVerification.id pending)))
         (pending_verifications w))
      (set_steps (S (steps w)) w) in
  verifyPending env userId guildId member pending w =
    (w', inr (Failure (PendingVerification.username pending)
                "Verification expired. Please start a new verification with `/link`."
                None None None))
  /\ (forall env',
        clock env' (steps w) = clock env (steps w) ->
        verifyPending env' userId guildId member pending w =
        verifyPending env userId guildId member pending w)
  /\ lastRequestTime w' = lastRequestTime w
  /\ steps w' = S (steps w)
  /\ (forall row,
        In row (pending_verifications w') ->
        PendingVerification.id row <> PendingVerification.id pending)
  /\ (forall env' commands row,
        In row (pending_verifications
                  (fst (for_each (fun command => execute env' (fst command) (snd command))
                          commands w'))) ->
        PendingVerification.id row <> PendingVerification.id pending)
  /\ (forall expiresAt w0,
        exists answer,
          Time.isExpired env expiresAt w0
          = (set_steps (S (steps w0)) w0, inr answer)
          /\ (answer = true <-> clock env (steps w0) > expiresAt))
  /\ (forall w0,
        exists evaluated,
          Supabase.getPendingVerifications env userId guildId w0
          = (set_steps (S (steps w0)) w0, inr evaluated)
          /\ forall row,
               In row evaluated <->
               In row (pending_verifications w0)
               /\ PendingVerification.discord_user_id row = userId
               /\ PendingVerification.guild_id row = guildId
               /\ clock env (steps w0) < PendingVerification.expires_at row).
Proof.
  intros Hexpired w'.
  assert (Hrun : forall env0,
            PendingVerification.expires_at pending < clock env0 (steps w) ->
            verifyPending env0 userId guildId member pending w =
            (w', inr (Failure (PendingVerification.username pending)
                        "Verification expired. Please start a new verification with `/link`."
                        None None None))).
  { intros env0 H. unfold verifyPending, bind. rewrite isExpired_run.
    apply Z.ltb_lt in H. rewrite H. reflexivity. }
  assert (Hgone : forall row,
            In row (pending_verifications w') ->
            PendingVerification.id row <> PendingVerification.id pending).
  { intros row Hin. simpl in Hin. apply filter_In in Hin as [_ Hne].
    apply negb_true_iff, Nat.eqb_neq in Hne. exact Hne. }
  split; [now apply Hrun|].
  split; [intros env' Hclock; rewrite !Hrun; [reflexivity|assumption|lia]|].
  split; [reflexivity|]. split; [reflexivity|].
  split; [exact Hgone|].
  split; [|split].
  - intros env' commands row Hin. apply Hgone.
    assert (Hshrink :
      respects sessions_shrink
        (for_each (fun command => execute env' (fst command) (snd command))
           commands)).
    { apply respects_for_each.
      - exact sessions_shrink_refl.
      - exact sessions_shrink_trans.
      - intros command. apply execute_only_removes. }
    apply (Hshrink w'). exact Hin.
  - intros expiresAt w0. eexists. split; [apply isExpired_run|].
    rewrite Z.ltb_lt. lia.
  - intros w0. eexists. split; [reflexivity|].
    intros row. rewrite filter_In, !andb_true_iff, !String.eqb_eq, Z.ltb_lt.
    tauto.
Qed.

(** A session that has expired by the time the command queries the table
    is not among the sessions the query returns: when every session of
    the user in the guild is such a one, the command answers that nothing
    is pending and leaves the table as it is. *)
Lemma execute_leaves_sessions_expired_at_query env userId guildId w :
  Js.truthy guildId = true ->
  (forall row,
     In row (pending_verifications w) ->
     PendingVerification.discord_user_id row = userId ->
     PendingVerification.guild_id row = guildId ->
     PendingVerification.expires_at row <= clock env (steps w)) ->
  execute env userId (Some guildId) w = (set_steps (S (steps w)) w, inr NoPending).
Proof.
  intros Hguild Hall.
  unfold execute, try_catch, bind, Supabase.getPendingVerifications, Date_now,
    ask, gets. rewrite Hguild. simpl.
  assert (Hnone : List.filter
            (fun row =>
               String.eqb (PendingVerification.discord_user_id row) userId
               && String.eqb (PendingVerification.guild_id row) guildId
               && (clock env (steps w) <? PendingVerification.expires_at row))
            (pending_verifications w) = []).
  { induction (pending_verifications w) as [|row l IH]; [reflexivity|].
    simpl.
    destruct (String.eqb _ userId) eqn:Eu; simpl.
    2:{ apply IH. intros r Hr. apply Hall. now right. }
    destruct (String.eqb _ guildId) eqn:Eg; simpl.
    2:{ apply IH. intros r Hr. apply Hall. now right. }
    apply String.eqb_eq in Eu, Eg.
    pose proof (Hall row (or_introl eq_refl) Eu Eg) as Hle.
    apply Z.ltb_ge in Hle. rewrite Hle.
    apply IH. intros r Hr. apply Hall. now right. }
  rewrite Hnone. reflexivity.
Qed.

End Expiry.

(** ** The problem pool *)

Section Pool.

Import RandomProblem Spec.

Variable env : Env.

(** The validity test of the cache returns, and leaves the cache as it
    is. *)
Lemma cache_still_valid_run w :
  exists w0 valid,
    cache_still_valid env w = (w0, inr valid)
    /\ cfProblemsCache w0 = cfProblemsCache w
    /\ cfCacheTimestamp w0 = cfCacheTimestamp w
    /\ (valid = true -> exists cached, cfProblemsCache w = Some cached).
Proof.
  unfold cache_still_valid, bind, gets, ret, Date_now, ask.
  destruct (cfProblemsCache w) as [cached|] eqn:Hc;
    [destruct (cfCacheTimestamp w) as [t|] eqn:Ht; [destruct (Z.eqb t 0)|]|];
    do 2 eexists; (split; [reflexivity|]); simpl;
    repeat split; try assumption; try discriminate; eauto.
Qed.

(** A refresh that fails leaves the cache as it is. *)
Lemma failed_refresh_keeps_cache w w1 e :
  refresh env w = (w1, inl e) ->
  cfProblemsCache w1 = cfProblemsCache w
  /\ cfCacheTimestamp w1 = cfCacheTimestamp w.
Proof.
  unfold refresh, axios_get, bind, ask, throw, ret, modify, Date_now.
  destruct (problemset_problems env (steps w)) as [data|c m|c m|e0];
    try (intros [= <- _]; split; reflexivity).
  destruct (CodeforcesApiResponse.result data) as [all_problems|];
    [destruct (String.eqb _ _)|];
    simpl; try discriminate; intros [= <- _]; split; reflexivity.
Qed.

(** A refresh that succeeds returns the problems of the answer that lie
    in the band, and stores them. *)
Lemma successful_refresh w w1 problems :
  refresh env w = (w1, inr problems) ->
  exists all_problems comment,
    problemset_problems env (steps w)
    = Fulfilled (CodeforcesApiResponse.mk "OK" (Some all_problems) comment)
    /\ problems = List.filter in_band all_problems
    /\ cfProblemsCache w1 = Some problems.
Proof.
  unfold refresh, axios_get, bind, ask, throw, ret, modify, Date_now.
  destruct (problemset_problems env (steps w)) as [data|c m|c m|e0];
    try discriminate.
  destruct data as [status result comment]. simpl.
  destruct result as [all_problems|]; [|discriminate].
  destruct (String.eqb status "OK") eqn:Hs; [|discriminate].
  apply String.eqb_eq in Hs. subst status.
  intros [= <- <-]. exists all_problems, comment. auto.
Qed.

Lemma fetchCodeforcesProblems_refreshing w w0 :
  cache_still_valid env w = (w0, inr false) ->
  fetchCodeforcesProblems env w =
  match refresh env w0 with
  | (w1, inr problems) => (w1, inr problems)
  | (w1, inl e) =>
      match cfProblemsCache w1 with
      | Some cached => (w1, inr cached)
      | None => (w1, inl e)
      end
  end.
Proof.
  intros Hvalid. unfold fetchCodeforcesProblems, bind at 1. rewrite Hvalid.
  unfold bind, gets, try_catch. simpl.
  destruct (refresh env w0) as [w1 [e|problems]]; [|reflexivity].
  unfold ret, throw. destruct (cfProblemsCache w1); reflexivity.
Qed.

Lemma getRandomCodeforcesProblem_run w :
  getRandomCodeforcesProblem env w =
  match fetchCodeforcesProblems env w with
  | (w1, inl e) => (w1, inl e)
  | (w1, inr []) => (w1, inl (Js.Error "No Codeforces problems available"))
  | (w1, inr (first :: rest)) =>
      (set_steps (S (steps w1)) w1,
       match at_index (first :: rest)
               (randomIndex (random env (steps w1)) (length (first :: rest))) with
       | None => inl (Js.Error "Failed to select a random problem")
       | Some problem => inr (describe problem)
       end)
  end.
Proof.
  unfold getRandomCodeforcesProblem, bind at 1.
  destruct (fetchCodeforcesProblems env w) as [w1 [e|[|first rest]]];
    try reflexivity.
  unfold bind, ask, throw, ret.
  destruct (at_index _ _); reflexivity.
Qed.

Lemma at_index_In {A} (l : list A) i x : at_index l i = Some x -> In x l.
Proof.
  unfold at_index. destruct (i <? 0); [discriminate|]. apply nth_error_In.
Qed.

(** A draw in [0, 1) selects an element of a pool that is not empty. *)
Lemma draw_selects {A} (l : list A) (r : Q) :
  l <> [] -> (0 <= r)%Q -> (r < 1)%Q ->
  exists x, at_index l (randomIndex r (length l)) = Some x.
Proof.
  intros Hl H0 H1. unfold at_index, randomIndex.
  set (n := Z.of_nat (length l)).
  assert (Hn : 0 < n) by (destruct l; [congruence|simpl in n; lia]).
  assert (Hlo : 0 <= Qfloor (r * inject_Z n)).
  { change 0 with (Qfloor 0). apply Qfloor_resp_le.
    apply Qmult_le_0_compat; [exact H0|].
    change 0%Q with (inject_Z 0). rewrite <- Zle_Qle. lia. }
  assert (Hhi : Qfloor (r * inject_Z n) < n).
  { rewrite Zlt_Qlt.
    apply Qle_lt_trans with (r * inject_Z n)%Q; [apply Qfloor_le|].
    rewrite <- (Qmult_1_l (inject_Z n)) at 2.
    apply Qmult_lt_compat_r; [|exact H1].
    change 0%Q with (inject_Z 0). rewrite <- Zlt_Qlt. exact Hn. }
  destruct (Qfloor (r * inject_Z n) <? 0) eqn:E; [apply Z.ltb_lt in E; lia|].
  destruct (nth_error l (Z.to_nat (Qfloor (r * inject_Z n)))) eqn:En;
    [eauto|].
  apply nth_error_None in En. lia.
Qed.

End Pool.

Section Challenge.

Import RandomProblem Spec Fixtures.

(** C6, as stated, fails: the catalogue holds problem 1500 with index
    [a]; the challenge drawn has the id [1500a], which is not the
    contest id followed by the upper-cased index. *)
Lemma lower_case_index_is_kept :
  snd (getRandomCodeforcesProblem lower_case_catalogue empty_world)
  = inr (RandomProblem.mk "1500a" 1500 "a" "Watermelon" 1600
           "https://codeforces.com/problemset/problem/1500/a")
  /\ "1500a" <> Js.show 1500 +:+ Js.toUpperCase "a".
Proof. split; [reflexivity|]. vm_compute. discriminate. Qed.

(** C6, as amended.  Every problem the issuer returns comes from the
    pool; its id is the decimal contest id followed by the index as the
    catalogue spells it, and its URL is the problem-set address followed
    by the contest id, a slash and the same index.  The id is the one
    with the upper-cased index whenever the catalogue's index has no
    lower-case letter.  A draw in [0, 1) on a pool that is not empty
    does return a problem. *)
Theorem problem_id_and_url_follow_catalogue env w :
  (forall w2 p,
     getRandomCodeforcesProblem env w = (w2, inr p) ->
     RandomProblem.id p
     = Js.show (RandomProblem.contestId p) +:+ RandomProblem.index p
     /\ RandomProblem.url p
        = "https://codeforces.com/problemset/problem/"
          +:+ Js.show (RandomProblem.contestId p) +:+ "/"
          +:+ RandomProblem.index p
     /\ (Js.toUpperCase (RandomProblem.index p) = RandomProblem.index p ->
         RandomProblem.id p
         = Js.show (RandomProblem.contestId p)
           +:+ Js.toUpperCase (RandomProblem.index p))
     /\ exists w1 pool problem,
          fetchCodeforcesProblems env w = (w1, inr pool)
          /\ In problem pool
          /\ RandomProblem.contestId p = CodeforcesProblem.contestId problem
          /\ RandomProblem.index p = CodeforcesProblem.index problem
          /\ RandomProblem.name p = CodeforcesProblem.name problem)
  /\ (forall w1 pool,
        fetchCodeforcesProblems env w = (w1, inr pool) ->
        pool <> [] ->
        (0 <= random env (steps w1))%Q ->
        (random env (steps w1) < 1)%Q ->
        exists problem,
          In problem pool
          /\ getRandomCodeforcesProblem env w
             = (set_steps (S (steps w1)) w1, inr (describe problem))).
Proof.
  split.
  - intros w2 p. rewrite getRandomCodeforcesProblem_run.
    destruct (fetchCodeforcesProblems env w) as [w1 [e|[|first rest]]];
      try discriminate.
    destruct (at_index _ _) as [problem|] eqn:Hat; [|discriminate].
    intros [= <- <-]. apply at_index_In in Hat.
    split; [reflexivity|]. split; [reflexivity|]. split.
    + intros Hupper. simpl in *. now rewrite Hupper.
    + exists w1, (first :: rest), problem. auto.
  - intros w1 pool Hfetch Hpool H0 H1.
    rewrite getRandomCodeforcesProblem_run, Hfetch.
    destruct (draw_selects pool _ Hpool H0 H1) as [problem Hat].
    exists problem. split; [now apply at_index_In in Hat|].
    destruct pool as [|first rest]; [congruence|]. now rewrite Hat.
Qed.

(** C7.  An empty pool makes the issuer fail.  When the refresh of the
    pool fails and a snapshot is cached, the snapshot is served and
    stays cached; when none is cached, the failure of the refresh is
    what the fetch and the issuer throw.  What the issuer returns always
    describes a problem of the pool: there is no default problem. *)
Theorem unavailable_pool_fails_and_stale_snapshot_is_served env w :
  (forall w1,
     fetchCodeforcesProblems env w = (w1, inr []) ->
     getRandomCodeforcesProblem env w
     = (w1, inl (Js.Error "No Codeforces problems available")))
  /\ (forall w0 w1 e cached,
        cache_still_valid env w = (w0, inr false) ->
        refresh env w0 = (w1, inl e) ->
        cfProblemsCache w = Some cached ->
        fetchCodeforcesProblems env w = (w1, inr cached)
        /\ cfProblemsCache w1 = Some cached
        /\ cfCacheTimestamp w1 = cfCacheTimestamp w)
  /\ (forall w0 w1 e,
        cache_still_valid env w = (w0, inr false) ->
        refresh env w0 = (w1, inl e) ->
        cfProblemsCache w = None ->
        fetchCodeforcesProblems env w = (w1, inl e)
        /\ getRandomCodeforcesProblem env w = (w1, inl e))
  /\ (forall w2 p,
        getRandomCodeforcesProblem env w = (w2, inr p) ->
        exists w1 pool problem,
          fetchCodeforcesProblems env w = (w1, inr pool)
          /\ In problem pool
          /\ p = describe problem).
Proof.
  split; [|split; [|split]].
  - intros w1 Hfetch. now rewrite getRandomCodeforcesProblem_run, Hfetch.
  - intros w0 w1 e cached Hvalid Hrefresh Hcache.
    destruct (failed_refresh_keeps_cache env _ _ _ Hrefresh) as [Hc Ht].
    destruct (cache_still_valid_run env w) as (w0' & valid & Hv & Hc0 & Ht0 & _).
    rewrite Hvalid in Hv. injection Hv as <- <-.
    rewrite (fetchCodeforcesProblems_refreshing env _ _ Hvalid), Hrefresh.
    rewrite Hc, Hc0, Hcache, Ht, Ht0. auto.
  - intros w0 w1 e Hvalid Hrefresh Hcache.
    destruct (failed_refresh_keeps_cache env _ _ _ Hrefresh) as [Hc _].
    destruct (cache_still_valid_run env w) as (w0' & valid & Hv & Hc0 & _).
    rewrite Hvalid in Hv. injection Hv as <- <-.
    rewrite getRandomCodeforcesProblem_run.
    rewrite (fetchCodeforcesProblems_refreshing env _ _ Hvalid), Hrefresh.
    rewrite Hc, Hc0, Hcache. auto.
  - intros w2 p. rewrite getRandomCodeforcesProblem_run.
    destruct (fetchCodeforcesProblems env w) as [w1 [e|[|first rest]]];
      try discriminate.
    destruct (at_index _ _) as [problem|] eqn:Hat; [|discriminate].
    intros [= <- <-]. apply at_index_In in Hat.
    exists w1, (first :: rest), problem. auto.
Qed.

End Challenge.

(** ** The role manager *)

Section Roles.

Local Set Warnings "-clear-no-such-hyp".

Import RoleManager Spec.

Variable env : Env.

Lemma try_catch_total {A} (body : M A) handler :
  (forall e, total (handler e)) -> total (try_catch body handler).
Proof.
  intros Hh w. unfold try_catch.
  destruct (body w) as [w1 [e|a]]; [apply Hh|]. now exists a.
Qed.

Lemma assignVerifiedRole_total member guildId :
  total (assignVerifiedRole env member guildId).
Proof. apply try_catch_total. intros e w. now exists false. Qed.

Lemma assignRankRole_total member guildId rank :
  total (assignRankRole env member guildId rank).
Proof. apply try_catch_total. intros e w. now exists false. Qed.

Lemma total_run {A} (m : M A) w :
  total m -> exists w' a, m w = (w', inr a).
Proof.
  intros Hm. destruct (Hm w) as [a Ha].
  destruct (m w) as [w' r]. simpl in Ha. subst r. now exists w', a.
Qed.

Lemma roles_remove_run member roles w :
  Discord.roles_remove env member roles w =
  match roles_remove_fault env (steps w) member roles with
  | Some e => (set_steps (S (steps w)) w, inl e)
  | None =>
      (set_member_roles
         (<[(GuildMember.guild member, GuildMember.user member) :=
              roles_held w member ∖ roles]> (member_roles w))
         (set_steps (S (steps w)) w),
       inr tt)
  end.
Proof.
  unfold Discord.roles_remove, bind, ask. simpl.
  destruct (roles_remove_fault env (steps w) member roles); reflexivity.
Qed.

Lemma roles_add_run member role w :
  Discord.roles_add env member role w =
  match roles_add_fault env (steps w) member role with
  | Some e => (set_steps (S (steps w)) w, inl e)
  | None =>
      (set_member_roles
         (<[(GuildMember.guild member, GuildMember.user member) :=
              {[role]} ∪ roles_held w member]> (member_roles w))
         (set_steps (S (steps w)) w),
       inr tt)
  end.
Proof.
  unfold Discord.roles_add, bind, ask. simpl.
  destruct (roles_add_fault env (steps w) member role); reflexivity.
Qed.

Lemma roles_held_set_roles w member roles n :
  roles_held
    (set_member_roles
       (<[(GuildMember.guild member, GuildMember.user member) := roles]>
          (member_roles w))
       (set_steps n w)) member = roles.
Proof. unfold roles_held. simpl. now rewrite lookup_insert_eq. Qed.

Lemma mapped_role_is_a_rank_role (rankRoleMap : gmap string string) rank roleId :
  rankRoleMap !! rank = Some roleId -> roleId ∈ Object_values rankRoleMap.
Proof.
  intros H. unfold Object_values. apply list_elem_of_fmap.
  exists (rank, roleId). split; [reflexivity|].
  now apply elem_of_map_to_list.
Qed.

Lemma other_rank_roles_spec rankRoleMap roleId held r :
  r ∈ other_rank_roles rankRoleMap roleId held <->
  r ∈ held /\ r ∈ Object_values rankRoleMap /\ r ≠ roleId.
Proof. unfold other_rank_roles. rewrite elem_of_filter. tauto. Qed.

(** C8.  When the rank-role assignment returns [true], the rank is
    mapped in the configuration of the guild and the mapped role exists
    in the guild; the member then holds, of the roles of the rank-role
    map, the mapped role and no other.  The roles held are those held
    before, less the other rank roles, plus the mapped one; a role that
    is not a rank role is held exactly when it was.  The Discord API was
    called once if some rank role had to be removed, and once more if
    the mapped role was not held: it is added only then.  The roles of
    the other members are as before. *)
Theorem rank_role_is_exclusive_after_assignment member guildId rank w w' :
  assignRankRole env member guildId rank w = (w', inr true) ->
  exists config rankRoleMap roleId,
    guild_config w !! guildId = Some config
    /\ GuildConfig.rank_role_map config = Some rankRoleMap
    /\ rankRoleMap !! Js.toLowerCase rank = Some roleId
    /\ (exists roles,
          guilds w !! GuildMember.guild member = Some roles /\ roleId ∈ roles)
    /\ (forall r,
          r ∈ roles_held w' member /\ r ∈ Object_values rankRoleMap
          <-> r = roleId)
    /\ roles_held w' member
       = {[roleId]}
         ∪ (roles_held w member
            ∖ other_rank_roles rankRoleMap roleId (roles_held w member))
    /\ (forall r,
          r ∉ Object_values rankRoleMap ->
          (r ∈ roles_held w' member <-> r ∈ roles_held w member))
    /\ steps w'
       = (steps w
          + (if decide (other_rank_roles rankRoleMap roleId (roles_held w member) = ∅)
             then 0 else 1)
          + (if decide (roleId ∈ roles_held w member) then 0 else 1))%nat
    /\ (forall other,
          other <> (GuildMember.guild member, GuildMember.user member) ->
          member_roles w' !! other = member_roles w !! other).
Proof.
  unfold assignRankRole, try_catch, bind, Supabase.getGuildConfig, gets,
    Discord.guild_role, Discord.roles_cache, ret.
  destruct (Js.truthy rank); simpl; [|discriminate].
  destruct (guild_config w !! guildId) as [config|] eqn:Hconfig;
    [|discriminate].
  destruct (GuildConfig.rank_role_map config) as [rankRoleMap|] eqn:Hmap;
    [|discriminate].
  destruct (rankRoleMap !! Js.toLowerCase rank) as [roleId|] eqn:Hrole;
    [|discriminate].
  destruct (Js.truthy roleId); simpl; [|discriminate].
  destruct (guilds w !! GuildMember.guild member) as [roles|] eqn:Hguild;
    [|discriminate].
  destruct (decide (roleId ∈ roles)) as [Hin|]; [|discriminate].
  fold (roles_held w member).
  fold (other_rank_roles rankRoleMap roleId (roles_held w member)).
  set (before := roles_held w member).
  set (others := other_rank_roles rankRoleMap roleId before).
  pose proof (mapped_role_is_a_rank_role _ _ _ Hrole) as Hrank.
  assert (Hothers : forall r,
            r ∈ others <-> r ∈ before /\ r ∈ Object_values rankRoleMap /\ r ≠ roleId)
    by (intros r; apply other_rank_roles_spec).
  intros Hrun.
  assert (Hafter :
    roles_held w' member = {[roleId]} ∪ (before ∖ others)
    /\ steps w'
       = (steps w + (if decide (others = ∅) then 0 else 1)
          + (if decide (roleId ∈ before) then 0 else 1))%nat
    /\ (forall other,
          other <> (GuildMember.guild member, GuildMember.user member) ->
          member_roles w' !! other = member_roles w !! other)).
  { destruct (0 <? size others)%nat eqn:Hsize.
    - assert (Hne : others <> ∅).
      { intros He. rewrite He, size_empty in Hsize. discriminate. }
      rewrite roles_remove_run in Hrun.
      destruct (roles_remove_fault env (steps w) member others);
        [discriminate|].
      fold (roles_held
              (set_member_roles
                 (<[(GuildMember.guild member, GuildMember.user member) :=
                      roles_held w member ∖ others]> (member_roles w))
                 (set_steps (S (steps w)) w)) member) in Hrun.
      rewrite roles_held_set_roles in Hrun. fold before in Hrun.
      destruct (decide (roleId ∈ before ∖ others)) as [Hheld|Hnot].
      + injection Hrun as <-. rewrite roles_held_set_roles.
        destruct (decide (others = ∅)); [contradiction|].
        destruct (decide (roleId ∈ before)) as [|Hn]; [|set_solver].
        repeat split; [set_solver|simpl; lia|].
        intros other Hother. simpl. now rewrite lookup_insert_ne.
      + rewrite roles_add_run in Hrun. simpl in Hrun.
        destruct (roles_add_fault env (S (steps w)) member roleId);
          [discriminate|].
        injection Hrun as <-.
        unfold roles_held at 1. simpl. rewrite lookup_insert_eq. simpl.
        unfold roles_held at 1. simpl. rewrite lookup_insert_eq. simpl.
        destruct (decide (others = ∅)); [contradiction|].
        destruct (decide (roleId ∈ before)) as [Hb|Hn].
        { exfalso. apply Hnot. apply elem_of_difference. split; [exact Hb|].
          rewrite Hothers. tauto. }
        repeat split; [simpl; lia|].
        intros other Hother. simpl. now rewrite !lookup_insert_ne.
    - assert (He : others = ∅).
      { apply Nat.ltb_ge in Hsize. apply leibniz_equiv, size_empty_iff. lia. }
      change (default ∅ (member_roles w !! _)) with before in Hrun.
      destruct (decide (roleId ∈ before)) as [Hheld|Hnot].
      + injection Hrun as <-. fold before.
        destruct (decide (others = ∅)); [|contradiction].
        repeat split; [set_solver|lia].
      + rewrite roles_add_run in Hrun.
        destruct (roles_add_fault env (steps w) member roleId);
          [discriminate|].
        injection Hrun as <-. rewrite roles_held_set_roles.
        destruct (decide (others = ∅)); [|contradiction].
        fold before.
        repeat split; [set_solver|simpl; lia|].
        intros other Hother. simpl. now rewrite lookup_insert_ne. }
  destruct Hafter as (Hafter & Hsteps & Hframe).
  exists config, rankRoleMap, roleId.
  split; [reflexivity|]. split; [exact Hmap|]. split; [exact Hrole|].
  split; [exists roles; auto|].
  split.
  { intros r. split.
    - intros [Hr Hrr]. rewrite Hafter in Hr.
      destruct (decide (r = roleId)) as [|Hne]; [assumption|].
      exfalso. apply elem_of_union in Hr as [Hr|Hr].
      + apply elem_of_singleton in Hr. contradiction.
      + apply elem_of_difference in Hr as [Hb Ho]. apply Ho.
        apply Hothers. auto.
    - intros ->. split; [|exact Hrank].
      rewrite Hafter. apply elem_of_union. left. now apply elem_of_singleton. }
  split; [exact Hafter|].
  split; [|split; [exact Hsteps|exact Hframe]].
  intros r Hnr. rewrite Hafter. split.
  - intros Hr. apply elem_of_union in Hr as [Hr|Hr].
    + apply elem_of_singleton in Hr. subst r. contradiction.
    + now apply elem_of_difference in Hr as [Hb _].
  - intros Hr. apply elem_of_union. right.
    apply elem_of_difference. split; [exact Hr|].
    rewrite Hothers. tauto.
Qed.

(** The assignment does return [true] when the rank is mapped to a role
    of the guild and the Discord API raises no fault. *)
Lemma assignRankRole_succeeds member guildId rank w config rankRoleMap roleId roles :
  Js.truthy rank = true ->
  guild_config w !! guildId = Some config ->
  GuildConfig.rank_role_map config = Some rankRoleMap ->
  rankRoleMap !! Js.toLowerCase rank = Some roleId ->
  Js.truthy roleId = true ->
  guilds w !! GuildMember.guild member = Some roles ->
  roleId ∈ roles ->
  (forall n m rs, roles_remove_fault env n m rs = None) ->
  (forall n m r, roles_add_fault env n m r = None) ->
  snd (assignRankRole env member guildId rank w) = inr true.
Proof.
  intros Hrank Hconfig Hmap Hrole Htruthy Hguild Hin Hremove Hadd.
  unfold assignRankRole, try_catch, bind, Supabase.getGuildConfig, gets,
    Discord.guild_role, Discord.roles_cache, ret.
  rewrite Hrank. simpl. rewrite Hconfig, Hmap, Hrole, Htruthy. simpl.
  rewrite Hguild. destruct (decide (roleId ∈ roles)); [|contradiction].
  destruct (0 <? size _)%nat.
  - rewrite roles_remove_run, Hremove.
    destruct (decide (roleId ∈ _)); [reflexivity|].
    rewrite roles_add_run, Hadd. reflexivity.
  - destruct (decide (roleId ∈ _)); [reflexivity|].
    rewrite roles_add_run, Hadd. reflexivity.
Qed.

(** C10.  The assignment of the verification roles never throws and its
    list of errors is always empty.  Each of the two assignments it calls
    returns a flag whatever happens inside, so the handlers that would
    record an error never run: the flags of the result are the flags
    the two calls returned, the rank assignment being called only for a
    rank that is neither missing nor empty. *)
Theorem role_assignment_reports_failures_as_flags_only member guildId rank w :
  total (assignVerifiedRole env member guildId)
  /\ (forall r, total (assignRankRole env member guildId r))
  /\ exists w1 verified,
       assignVerifiedRole env member guildId w = (w1, inr verified)
       /\ match rank with
          | Some r =>
              if Js.truthy r then
                exists w2 ranked,
                  assignRankRole env member guildId r w1 = (w2, inr ranked)
                  /\ assignVerificationRoles env member guildId rank w
                     = (w2, inr (mkResults verified ranked []))
              else
                assignVerificationRoles env member guildId rank w
                = (w1, inr (mkResults verified false []))
          | None =>
              assignVerificationRoles env member guildId rank w
              = (w1, inr (mkResults verified false []))
          end.
Proof.
  split; [apply assignVerifiedRole_total|].
  split; [intros r; apply assignRankRole_total|].
  destruct (total_run _ w (assignVerifiedRole_total member guildId))
    as (w1 & verified & Hverified).
  exists w1, verified. split; [exact Hverified|].
  unfold assignVerificationRoles, try_catch, bind. rewrite Hverified.
  unfold ret. simpl.
  destruct rank as [r|]; [|reflexivity].
  destruct (Js.truthy r); [|reflexivity].
  destruct (total_run _ w1 (assignRankRole_total member guildId r))
    as (w2 & ranked & Hranked).
  exists w2, ranked. split; [exact Hranked|].
  rewrite Hranked. reflexivity.
Qed.

End Roles.

(** ** The role sync *)

Section Grouping.

Import RoleSync Spec.

Variable P : string -> bool.

Lemma weight_push account groups :
  weight P (push_to_guild account groups)
  = (weight P groups
     + (if P (LinkedAccounts.guild_id account) then 1 else 0))%nat.
Proof.
  induction groups as [|[guildId accounts] groups IH]; simpl.
  - destruct (P _); reflexivity.
  - destruct (String.eqb guildId (LinkedAccounts.guild_id account)) eqn:E.
    + apply String.eqb_eq in E. subst guildId. simpl.
      rewrite length_app. simpl. destruct (P _); lia.
    + simpl. rewrite IH. lia.
Qed.

Lemma weight_fold accounts groups :
  weight P (fold_left (fun groups account => push_to_guild account groups)
              accounts groups)
  = (weight P groups
     + length (List.filter (fun a => P (LinkedAccounts.guild_id a)) accounts))%nat.
Proof.
  revert groups. induction accounts as [|a accounts IH]; intros groups; simpl.
  - lia.
  - rewrite IH, weight_push. destruct (P _); simpl; lia.
Qed.

(** Grouping neither loses nor duplicates an account. *)
Lemma weight_group_by_guild accounts :
  weight P (group_by_guild accounts)
  = length (List.filter (fun a => P (LinkedAccounts.guild_id a)) accounts).
Proof. unfold group_by_guild. now rewrite weight_fold. Qed.

End Grouping.

Section GroupMembers.

Import RoleSync Spec.

Lemma grouped_push account groups :
  grouped groups -> grouped (push_to_guild account groups).
Proof.
  induction groups as [|[guildId accounts] groups IH]; intros Hg; simpl.
  - intros g accs a [[= <- <-]|[]] [->|[]]. reflexivity.
  - destruct (String.eqb guildId (LinkedAccounts.guild_id account)) eqn:E.
    + apply String.eqb_eq in E.
      intros g accs a [[= <- <-]|Hin] Ha.
      * apply in_app_or in Ha as [Ha|[->|[]]]; [|now symmetry].
        apply (Hg guildId accounts a); [now left|exact Ha].
      * apply (Hg g accs a); [now right|exact Ha].
    + intros g accs a [[= <- <-]|Hin] Ha.
      * apply (Hg guildId accounts a); [now left|exact Ha].
      * apply (IH (fun g' accs' a' H1 H2 => Hg g' accs' a' (or_intror H1) H2)
                  g accs a Hin Ha).
Qed.

Lemma placed_push_same account groups : placed account (push_to_guild account groups).
Proof.
  induction groups as [|[guildId accounts] groups IH]; simpl.
  - exists [account]. split; now left.
  - destruct (String.eqb guildId (LinkedAccounts.guild_id account)) eqn:E.
    + apply String.eqb_eq in E. subst guildId.
      exists (accounts ++ [account]). split; [now left|].
      apply in_or_app. right. now left.
    + destruct IH as (accs & Hin & Ha). exists accs. split; [now right|exact Ha].
Qed.

Lemma placed_push_other a account groups :
  placed a groups -> placed a (push_to_guild account groups).
Proof.
  induction groups as [|[guildId accounts] groups IH];
    intros (accs & Hin & Ha); simpl.
  - destruct Hin.
  - destruct (String.eqb guildId (LinkedAccounts.guild_id account)) eqn:E.
    + destruct Hin as [Heq|Hin].
      * injection Heq as Hguild Haccs. subst accs.
        exists (accounts ++ [account]). split; [left; now rewrite Hguild|].
        apply in_or_app. now left.
      * exists accs. split; [now right|exact Ha].
    + destruct Hin as [Heq|Hin].
      * injection Heq as Hguild Haccs. subst accs.
        exists accounts. split; [left; now rewrite Hguild|exact Ha].
      * destruct IH as (accs' & Hin' & Ha'); [now exists accs|].
        exists accs'. split; [now right|exact Ha'].
Qed.

Lemma group_by_guild_fold accounts groups :
  grouped groups ->
  let groups' := fold_left (fun groups account => push_to_guild account groups)
                   accounts groups in
  grouped groups'
  /\ (forall a, placed a groups -> placed a groups')
  /\ (forall a, In a accounts -> placed a groups').
Proof.
  revert groups. induction accounts as [|account accounts IH];
    intros groups Hg; simpl.
  - repeat split; [exact Hg|auto|intros a []].
  - destruct (IH (push_to_guild account groups) (grouped_push _ _ Hg))
      as (Hg' & Hkeep & Hnew).
    split; [exact Hg'|]. split.
    + intros a Ha. apply Hkeep. now apply placed_push_other.
    + intros a [<-|Ha]; [|now apply Hnew].
      apply Hkeep. apply placed_push_same.
Qed.

Lemma group_by_guild_spec accounts :
  grouped (group_by_guild accounts)
  /\ (forall a, In a accounts -> placed a (group_by_guild accounts)).
Proof.
  destruct (group_by_guild_fold accounts []) as (Hg & _ & Hnew).
  - intros g accs a [].
  - split; assumption.
Qed.

Lemma members_push account groups guildId accounts a :
  In (guildId, accounts) (push_to_guild account groups) -> In a accounts ->
  a = account \/ exists accounts', In (guildId, accounts') groups /\ In a accounts'.
Proof.
  induction groups as [|[g accs] groups IH]; simpl.
  - intros [[= <- <-]|[]] [->|[]]. now left.
  - destruct (String.eqb g (LinkedAccounts.guild_id account)).
    + intros [Heq|Hin] Ha.
      * injection Heq as <- <-. apply in_app_or in Ha as [Ha|[->|[]]]; [|now left].
        right. exists accs. split; [now left|exact Ha].
      * right. exists accounts. split; [now right|exact Ha].
    + intros [Heq|Hin] Ha.
      * injection Heq as <- <-. right. exists accs. split; [now left|exact Ha].
      * destruct (IH Hin Ha) as [->|(accs' & Hin' & Ha')]; [now left|].
        right. exists accs'. split; [now right|exact Ha'].
Qed.

Lemma members_fold accounts groups guildId accs a :
  In (guildId, accs)
     (fold_left (fun groups account => push_to_guild account groups)
        accounts groups) ->
  In a accs ->
  In a accounts \/ exists accs', In (guildId, accs') groups /\ In a accs'.
Proof.
  revert groups accs. induction accounts as [|account accounts IH];
    intros groups accs Hin Ha; simpl in *.
  - right. now exists accs.
  - destruct (IH _ _ Hin Ha) as [Hrest|(accs' & Hin' & Ha')]; [auto|].
    destruct (members_push _ _ _ _ _ Hin' Ha') as [->|Hold]; auto.
Qed.

(** Every account of a group is one of the accounts that were grouped. *)
Lemma group_by_guild_members accounts guildId accs a :
  In (guildId, accs) (group_by_guild accounts) -> In a accs -> In a accounts.
Proof.
  intros Hin Ha.
  destruct (members_fold accounts [] guildId accs a Hin Ha)
    as [H|(accs' & [] & _)]. exact H.
Qed.

End GroupMembers.

Section Sync.

Import RoleSync Spec.

Variable env : Env.

Lemma sync_frame_refl w : sync_frame w w.
Proof. unfold sync_frame. auto. Qed.

Lemma sync_frame_trans a b c :
  sync_frame a b -> sync_frame b c -> sync_frame a c.
Proof. unfold sync_frame. intuition congruence. Qed.

Local Ltac sync_side :=
  first [ assumption
        | exact sync_frame_refl
        | exact sync_frame_trans
        | intros; apply sync_frame_refl
        | intros; unfold sync_frame; simpl; auto ].

(** Processing an account changes, in the results, the count of updated
    roles at most, whether it ends normally or throws. *)
Lemma respects_syncAccountBody guildId account :
  respects sync_frame (syncAccountBody env guildId account).
Proof.
  pose proof sync_frame_refl as R_refl.
  pose proof sync_frame_trans as R_trans.
  unfold syncAccountBody, reassignRole, update_results.
  frame;
    first [ apply respects_getUserInfo; sync_side
          | apply respects_updateLinkedAccountRank; sync_side
          | apply respects_members_fetch; sync_side
          | apply respects_assignRankRole; sync_side
          | apply respects_modify; sync_side ].
Qed.

(** The lookup of the rank is the first thing that can fail. *)
Lemma syncAccountBody_lookup_fails guildId account e w :
  snd (CodeforcesService.getUserInfo env (LinkedAccounts.username account) w)
  = inl e ->
  snd (syncAccountBody env guildId account w) = inl e.
Proof.
  unfold syncAccountBody, bind, sleep, ret.
  destruct (CodeforcesService.getUserInfo env _ w) as [w1 [e'|info]];
    simpl; congruence.
Qed.

(** One turn of the loop over the accounts: the count of processed
    accounts grows by one, and what the body throws is caught and
    recorded. *)
Lemma syncAccount_run guildId account w :
  exists w',
    syncAccount env guildId account w = (w', inr tt)
    /\ guild_config w' = guild_config w
    /\ guilds w' = guilds w
    /\ SyncResults.totalProcessed (results w')
       = SyncResults.totalProcessed (results w) + 1
    /\ SyncResults.skipped (results w') = SyncResults.skipped (results w)
    /\ SyncResults.errors (results w')
       = SyncResults.errors (results w)
         ++ match snd (syncAccountBody env guildId account
                         (set_results (processed_one (results w)) w)) with
            | inl e => [failed_to_sync account guildId e]
            | inr _ => []
            end.
Proof.
  unfold syncAccount, bind, try_catch, update_results, modify.
  pose proof (respects_syncAccountBody guildId account
                (set_results (processed_one (results w)) w))
    as (Hc & Hg & Ht & Hs & He).
  destruct (syncAccountBody env guildId account _) as [w1 [e|[]]];
    simpl in *; eexists; (split; [reflexivity|]); simpl;
    rewrite ?Hc, ?Hg, ?Ht, ?Hs, ?He, ?app_nil_r; auto.
Qed.

(** The loop over the accounts of a guild processes every account,
    whichever of them fail. *)
Lemma syncAccounts_run guildId accounts w :
  exists w' more,
    syncAccounts env guildId accounts w = (w', inr tt)
    /\ guild_config w' = guild_config w
    /\ guilds w' = guilds w
    /\ SyncResults.totalProcessed (results w')
       = SyncResults.totalProcessed (results w) + Z.of_nat (length accounts)
    /\ SyncResults.skipped (results w') = SyncResults.skipped (results w)
    /\ SyncResults.errors (results w') = SyncResults.errors (results w) ++ more
    /\ Forall (fun msg => exists a e,
                 In a accounts /\ msg = failed_to_sync a guildId e) more
    /\ (forall a e,
          In a accounts ->
          (forall w0,
             snd (CodeforcesService.getUserInfo env (LinkedAccounts.username a) w0)
             = inl e) ->
          In (failed_to_sync a guildId e) more).
Proof.
  revert w. induction accounts as [|account accounts IH]; intros w.
  - exists w, []. simpl. rewrite app_nil_r, Z.add_0_r.
    repeat split; auto.
  - destruct (syncAccount_run guildId account w)
      as (w1 & Hrun & Hc & Hg & Ht & Hs & He).
    destruct (IH w1) as (w2 & more & Hrun' & Hc' & Hg' & Ht' & Hs' & He' & Hform & Hfail).
    eexists w2, (_ ++ more).
    split; [simpl; unfold bind; rewrite Hrun; exact Hrun'|].
    split; [congruence|]. split; [congruence|].
    split; [rewrite Ht', Ht; simpl length; lia|].
    split; [congruence|].
    split; [rewrite He', He, app_assoc; reflexivity|].
    split.
    + apply Forall_app. split.
      * destruct (snd _) as [e|]; [|constructor].
        constructor; [|constructor]. exists account, e. split; [now left|reflexivity].
      * eapply List.Forall_impl; [|exact Hform].
        intros msg (a & e & Ha & ->). exists a, e. split; [now right|reflexivity].
    + intros a e [<-|Ha] Hlookup; apply in_or_app.
      * left. rewrite (syncAccountBody_lookup_fails guildId account e _ (Hlookup _)).
        now left.
      * right. now apply Hfail.
Qed.

Lemma syncable_frame w w' guildId :
  guild_config w' = guild_config w -> guilds w' = guilds w ->
  syncable w' guildId = syncable w guildId.
Proof. unfold syncable. now intros -> ->. Qed.

Lemma weight_ext (P Q : string -> bool) groups :
  (forall g, P g = Q g) -> weight P groups = weight Q groups.
Proof.
  intros H. induction groups as [|[g accs] groups IH]; simpl; [reflexivity|].
  now rewrite H, IH.
Qed.

(** One turn of the loop over the guilds: the accounts of a guild
    without rank roles or out of the cache are skipped, the others are
    all processed. *)
Lemma syncGuild_run guildId accounts w :
  exists w' more,
    syncGuild env guildId accounts w = (w', inr tt)
    /\ guild_config w' = guild_config w
    /\ guilds w' = guilds w
    /\ SyncResults.totalProcessed (results w')
       = SyncResults.totalProcessed (results w)
         + Z.of_nat (if syncable w guildId then length accounts else 0)
    /\ SyncResults.skipped (results w')
       = SyncResults.skipped (results w)
         + Z.of_nat (if syncable w guildId then 0 else length accounts)
    /\ SyncResults.errors (results w') = SyncResults.errors (results w) ++ more
    /\ Forall (fun msg => syncable w guildId = true
                          /\ exists a e,
                               In a accounts
                               /\ msg = failed_to_sync a guildId e) more
    /\ (syncable w guildId = true ->
        forall a e,
          In a accounts ->
          (forall w0,
             snd (CodeforcesService.getUserInfo env (LinkedAccounts.username a) w0)
             = inl e) ->
          In (failed_to_sync a guildId e) more).
Proof.
  unfold syncGuild, bind, Supabase.getGuildConfig, gets, syncable,
    update_results, modify.
  destruct (no_rank_roles (guild_config w !! guildId)); simpl.
  { eexists _, []. split; [reflexivity|]. simpl.
    rewrite app_nil_r, Z.add_0_r. repeat split; auto. discriminate. }
  destruct (guilds w !! guildId) as [guild|] eqn:Hguild; simpl.
  - rewrite ?bool_decide_eq_true_2 by eauto.
    destruct (syncAccounts_run guildId accounts w)
      as (w' & more & Hrun & Hc & Hg & Ht & Hs & He & Hform & Hfail).
    exists w', more. rewrite Z.add_0_r. repeat split; auto.
    eapply List.Forall_impl; [|exact Hform]. intros msg Hmsg. auto.
  - rewrite ?bool_decide_eq_false_2 by (intros [? ?]; discriminate).
    eexists _, []. split; [reflexivity|]. simpl.
    rewrite app_nil_r, Z.add_0_r. repeat split; auto. discriminate.
Qed.

(** The loop over the guilds. *)
Lemma syncGuilds_run groups w :
  exists w' more,
    syncGuilds env groups w = (w', inr tt)
    /\ guild_config w' = guild_config w
    /\ guilds w' = guilds w
    /\ SyncResults.totalProcessed (results w')
       = SyncResults.totalProcessed (results w)
         + Z.of_nat (weight (syncable w) groups)
    /\ SyncResults.skipped (results w')
       = SyncResults.skipped (results w)
         + Z.of_nat (weight (fun g => negb (syncable w g)) groups)
    /\ SyncResults.errors (results w') = SyncResults.errors (results w) ++ more
    /\ Forall (fun msg => exists guildId accounts a e,
                 In (guildId, accounts) groups /\ In a accounts
                 /\ syncable w guildId = true
                 /\ msg = failed_to_sync a guildId e) more
    /\ (forall guildId accounts a e,
          In (guildId, accounts) groups ->
          In a accounts ->
          syncable w guildId = true ->
          (forall w0,
             snd (CodeforcesService.getUserInfo env (LinkedAccounts.username a) w0)
             = inl e) ->
          In (failed_to_sync a guildId e) more).
Proof.
  revert w. induction groups as [|[guildId accounts] groups IH]; intros w.
  - exists w, []. simpl. rewrite app_nil_r, !Z.add_0_r.
    repeat split; auto.
  - destruct (syncGuild_run guildId accounts w)
      as (w1 & more1 & Hrun & Hc & Hg & Ht & Hs & He & Hform & Hfail).
    destruct (IH w1)
      as (w2 & more2 & Hrun' & Hc' & Hg' & Ht' & Hs' & He' & Hform' & Hfail').
    assert (Hsame : forall g, syncable w1 g = syncable w g)
      by (intros g; now apply syncable_frame).
    rewrite (weight_ext _ _ groups Hsame) in Ht'.
    rewrite (weight_ext (fun g => negb (syncable w1 g))
               (fun g => negb (syncable w g)) groups) in Hs'
      by (intros g; now rewrite Hsame).
    exists w2, (more1 ++ more2).
    split; [simpl; unfold bind; rewrite Hrun; exact Hrun'|].
    split; [congruence|]. split; [congruence|].
    split.
    { rewrite Ht', Ht. simpl weight. destruct (syncable w guildId); lia. }
    split.
    { rewrite Hs', Hs. simpl weight. destruct (syncable w guildId); simpl; lia. }
    split; [rewrite He', He, app_assoc; reflexivity|].
    split.
    + apply Forall_app. split.
      * eapply List.Forall_impl; [|exact Hform].
        intros msg (Hsync & a & e & Ha & ->).
        exists guildId, accounts, a, e. split; [now left|]. auto.
      * eapply List.Forall_impl; [|exact Hform'].
        intros msg (g & accs & a & e & Hin & Ha & Hsync & ->).
        exists g, accs, a, e. split; [now right|].
        rewrite <- Hsame. auto.
    + intros g accs a e [[= <- <-]|Hin] Ha Hsync Hlookup; apply in_or_app.
      * left. now apply Hfail.
      * right. apply (Hfail' g accs a e Hin Ha); [|exact Hlookup].
        now rewrite Hsame.
Qed.

(** *** What goes wrong on an account, and what is recorded *)

Lemma during_sync_refl w : during_sync w w.
Proof. unfold during_sync. auto. Qed.

Lemma during_sync_trans a b c :
  during_sync a b -> during_sync b c -> during_sync a c.
Proof. unfold during_sync. intuition congruence. Qed.

Local Ltac during_side :=
  first [ assumption
        | exact during_sync_refl
        | exact during_sync_trans
        | intros; apply during_sync_refl
        | intros; unfold during_sync; simpl; auto ].

Lemma unranked_with_rank newRank row :
  unranked (Supabase.with_rank newRank row) = unranked row.
Proof. reflexivity. Qed.

(** The update of a rank leaves the rows what they are, up to their
    ranks. *)
Lemma during_updateLinkedAccountRank accountId newRank :
  respects during_sync (Supabase.updateLinkedAccountRank accountId newRank).
Proof.
  intros w.
  assert (Hworld :
    fst (Supabase.updateLinkedAccountRank accountId newRank w)
    = set_linked
        (map (fun row =>
                if Nat.eqb (LinkedAccounts.id row) accountId
                then Supabase.with_rank newRank row else row)
             (linked_accounts w)) w).
  { unfold Supabase.updateLinkedAccountRank, bind, gets, modify, throw, ret.
    destruct (List.find _ (linked_accounts w)); reflexivity. }
  rewrite Hworld. unfold during_sync. cbn.
  repeat (split; [reflexivity|]).
  rewrite map_map. apply map_ext. intros row.
  destruct (Nat.eqb _ _); reflexivity.
Qed.

Lemma during_syncAccountBody guildId account :
  respects during_sync (syncAccountBody env guildId account).
Proof.
  pose proof during_sync_refl as R_refl.
  pose proof during_sync_trans as R_trans.
  unfold syncAccountBody, reassignRole, update_results.
  frame;
    first [ apply respects_getUserInfo; during_side
          | apply during_updateLinkedAccountRank
          | apply respects_members_fetch; during_side
          | apply respects_assignRankRole; during_side
          | apply respects_modify; during_side ].
Qed.

(** The try block of an account throws exactly what goes wrong on the
    account. *)
Lemma syncAccountBody_outcome guildId account w :
  snd (syncAccountBody env guildId account w)
  = match account_failure env guildId account w with
    | Some e => inl e
    | None => inr tt
    end.
Proof.
  unfold syncAccountBody, account_failure, sleep.
  unfold bind at 1 2, ret at 1.
  destruct (CodeforcesService.getUserInfo env _ w) as [w1 [e|info]];
    [reflexivity|].
  cbv zeta. destruct (_ && _); [|reflexivity].
  unfold bind at 1.
  destruct (Supabase.updateLinkedAccountRank _ _ w1) as [w2 [e|row]];
    [reflexivity|].
  unfold reassignRole, try_catch. unfold bind at 1.
  destruct (Discord.members_fetch env guildId _ w2) as [w3 [e|member]].
  - destruct e as [message [code|]|text]; [|reflexivity|reflexivity].
    destruct code as [|code|code]; try reflexivity.
    repeat (destruct code as [code|code|]; try reflexivity).
  - unfold bind.
    destruct (total_run _ w3
                (assignRankRole_total env member guildId
                   (Js.toLowerCase (UserInfo.rank info))))
      as (w4 & assigned & ->).
    destruct assigned; reflexivity.
Qed.

(** One turn of the loop over the accounts records what goes wrong on
    the account, in the world in which its try block starts. *)
Lemma syncAccount_records guildId account w :
  LinkedAccounts.guild_id account = guildId ->
  let start := set_results (processed_one (results w)) w in
  exists w',
    syncAccount env guildId account w = (w', inr tt)
    /\ during_sync w start
    /\ during_sync w w'
    /\ SyncResults.errors (results w')
       = SyncResults.errors (results w) ++ recorded_failure env (account, start).
Proof.
  intros Hguild start.
  destruct (syncAccount_run guildId account w)
    as (w' & Hrun & _ & _ & _ & _ & He).
  fold start in He. rewrite syncAccountBody_outcome in He.
  exists w'. split; [exact Hrun|].
  split; [unfold during_sync; cbn; auto|].
  split.
  - assert (Hframe : respects during_sync (syncAccount env guildId account)).
    { pose proof during_sync_refl as R_refl.
      pose proof during_sync_trans as R_trans.
      unfold syncAccount, update_results.
      frame; first [ apply during_syncAccountBody
                   | apply respects_modify; during_side ]. }
    specialize (Hframe w). now rewrite Hrun in Hframe.
  - rewrite He. unfold recorded_failure. rewrite Hguild.
    destruct (account_failure env guildId account start); reflexivity.
Qed.

(** The loop over the accounts of a guild: the worlds in which the
    turns start, and what is recorded. *)
Lemma syncAccounts_records guildId accounts w :
  Forall (fun a => LinkedAccounts.guild_id a = guildId) accounts ->
  exists w' visits,
    syncAccounts env guildId accounts w = (w', inr tt)
    /\ map fst visits = accounts
    /\ Forall (fun visit => during_sync w (snd visit)) visits
    /\ during_sync w w'
    /\ SyncResults.errors (results w')
       = SyncResults.errors (results w)
         ++ flat_map (recorded_failure env) visits.
Proof.
  revert w. induction accounts as [|account accounts IH]; intros w Hguild.
  - exists w, []. cbn. rewrite app_nil_r.
    repeat split; auto using during_sync_refl.
  - apply Forall_cons in Hguild as [Hfirst Hrest].
    destruct (syncAccount_records guildId account w Hfirst)
      as (w1 & Hrun & Hstart & Hframe & He).
    destruct (IH w1 Hrest) as (w2 & visits & Hrun' & Hmap & Hworlds & Hframe' & He').
    exists w2,
      ((account, set_results (processed_one (results w)) w) :: visits).
    split; [cbn; unfold bind; rewrite Hrun; exact Hrun'|].
    split; [cbn; now rewrite Hmap|].
    split.
    { constructor; [exact Hstart|].
      eapply List.Forall_impl; [|exact Hworlds].
      intros visit Hvisit. eapply during_sync_trans; eassumption. }
    split; [eapply during_sync_trans; eassumption|].
    rewrite He', He. cbn [flat_map]. now rewrite app_assoc.
Qed.

(** The accounts of the groups whose guild is processed, in the order
    in which they are processed. *)
Lemma syncGuilds_records groups w :
  grouped groups ->
  exists w' visits,
    syncGuilds env groups w = (w', inr tt)
    /\ map fst visits
       = flat_map (fun group =>
                     if syncable w (fst group) then snd group else [])
                  groups
    /\ Forall (fun visit => during_sync w (snd visit)) visits
    /\ during_sync w w'
    /\ SyncResults.errors (results w')
       = SyncResults.errors (results w)
         ++ flat_map (recorded_failure env) visits.
Proof.
  revert w. induction groups as [|[guildId accounts] groups IH];
    intros w Hgrouped.
  - exists w, []. cbn. rewrite app_nil_r.
    repeat split; auto using during_sync_refl.
  - assert (Hrest : grouped groups).
    { intros g accs a Hin. apply (Hgrouped g accs a). now right. }
    assert (Hhere : Forall (fun a => LinkedAccounts.guild_id a = guildId)
                      accounts).
    { apply List.Forall_forall. intros a Ha.
      apply (Hgrouped guildId accounts a); [now left|exact Ha]. }
    assert (Hturn : exists w1 visits,
              syncGuild env guildId accounts w = (w1, inr tt)
              /\ map fst visits
                 = (if syncable w guildId then accounts else [])
              /\ Forall (fun visit => during_sync w (snd visit)) visits
              /\ during_sync w w1
              /\ SyncResults.errors (results w1)
                 = SyncResults.errors (results w)
                   ++ flat_map (recorded_failure env) visits).
    { unfold syncGuild, bind, Supabase.getGuildConfig, gets, syncable,
        update_results, modify.
      destruct (no_rank_roles (guild_config w !! guildId)); cbn.
      { eexists _, []. split; [reflexivity|]. cbn. rewrite app_nil_r.
        repeat split; auto. }
      destruct (guilds w !! guildId) as [guild|] eqn:Hguild; cbn.
      - rewrite ?bool_decide_eq_true_2 by eauto.
        apply (syncAccounts_records guildId accounts w Hhere).
      - rewrite ?bool_decide_eq_false_2 by (intros [? ?]; discriminate).
        eexists _, []. split; [reflexivity|]. cbn. rewrite app_nil_r.
        repeat split; auto. }
    destruct Hturn as (w1 & visits1 & Hrun & Hmap & Hworlds & Hframe & He).
    destruct (IH w1 Hrest)
      as (w2 & visits2 & Hrun' & Hmap' & Hworlds' & Hframe' & He').
    assert (Hsame : forall g, syncable w1 g = syncable w g).
    { intros g. destruct Hframe as (Hc & Hg & _).
      now apply syncable_frame. }
    exists w2, (visits1 ++ visits2).
    split; [cbn; unfold bind; rewrite Hrun; exact Hrun'|].
    split.
    { rewrite map_app, Hmap, Hmap'. cbn [flat_map fst snd]. f_equal.
      apply flat_map_ext. intros group. now rewrite Hsame. }
    split.
    { apply Forall_app. split; [exact Hworlds|].
      eapply List.Forall_impl; [|exact Hworlds'].
      intros visit Hvisit. eapply during_sync_trans; eassumption. }
    split; [eapply during_sync_trans; eassumption|].
    rewrite He', He, flat_map_app. now rewrite app_assoc.
Qed.

(** Grouping by guild neither loses nor repeats an account. *)
Lemma push_to_guild_perm (P : string -> bool) account groups :
  flat_map (fun group => if P (fst group) then snd group else [])
           (push_to_guild account groups)
  ≡ₚ flat_map (fun group => if P (fst group) then snd group else []) groups
     ++ (if P (LinkedAccounts.guild_id account) then [account] else []).
Proof.
  induction groups as [|[guildId accounts] groups IH]; cbn.
  - now rewrite app_nil_r.
  - destruct (String.eqb guildId (LinkedAccounts.guild_id account)) eqn:E.
    + apply String.eqb_eq in E. subst guildId. cbn.
      destruct (P _).
      * rewrite <- !app_assoc. apply Permutation_app_head.
        apply Permutation_app_comm.
      * now rewrite app_nil_r.
    + cbn. rewrite IH. now rewrite app_assoc.
Qed.

Lemma group_by_guild_perm (P : string -> bool) accounts :
  flat_map (fun group => if P (fst group) then snd group else [])
           (group_by_guild accounts)
  ≡ₚ List.filter (fun a => P (LinkedAccounts.guild_id a)) accounts.
Proof.
  unfold group_by_guild.
  assert (Hfold : forall groups,
    flat_map (fun group => if P (fst group) then snd group else [])
      (fold_left (fun groups account => push_to_guild account groups)
                 accounts groups)
    ≡ₚ flat_map (fun group => if P (fst group) then snd group else []) groups
       ++ List.filter (fun a => P (LinkedAccounts.guild_id a)) accounts).
  { induction accounts as [|a accounts IH]; intros groups; cbn.
    - now rewrite app_nil_r.
    - rewrite IH, push_to_guild_perm, <- app_assoc.
      apply Permutation_app_head. destruct (P _); reflexivity. }
  apply (Hfold []).
Qed.

(** C9.  A role sync never throws.  Every verified account of a guild
    that has rank roles configured and is cached is processed and
    counted, whatever happens while any of them is processed; the
    accounts of the other guilds are counted as skipped.  The errors
    are, in the order of the turns, the entries of the accounts on
    which something goes wrong: each account that is processed has one
    turn, and its turn records an entry exactly when, from the world in
    which its try block starts, the lookup of the user throws, or, the
    rank having changed, the update of the stored rank throws or the
    fetch of the member throws anything but the error of a member who
    has left.  The entry names the username and the guild of the
    account and quotes the message of what was thrown.  In particular
    an account whose lookup always fails, and an account on which
    something goes wrong in every world that the sync can reach, have
    their entries. *)
Theorem single_account_failures_do_not_abort_the_batch w :
  let accounts := List.filter LinkedAccounts.verified (linked_accounts w) in
  exists w' r,
    syncAllRoles env w = (w', inr r)
    /\ SyncResults.totalProcessed r
       = Z.of_nat (length (List.filter
                             (fun a => syncable w (LinkedAccounts.guild_id a))
                             accounts))
    /\ SyncResults.skipped r
       = Z.of_nat (length (List.filter
                             (fun a => negb (syncable w (LinkedAccounts.guild_id a)))
                             accounts))
    /\ Forall (fun msg => exists a e,
                 In a accounts
                 /\ syncable w (LinkedAccounts.guild_id a) = true
                 /\ msg = "Failed to sync " +:+ LinkedAccounts.username a
                          +:+ " in guild " +:+ LinkedAccounts.guild_id a
                          +:+ ": " +:+ Js.errorMessage e)
              (SyncResults.errors r)
    /\ (forall a e,
          In a accounts ->
          syncable w (LinkedAccounts.guild_id a) = true ->
          (forall w0,
             snd (CodeforcesService.getUserInfo env (LinkedAccounts.username a) w0)
             = inl e) ->
          In ("Failed to sync " +:+ LinkedAccounts.username a
              +:+ " in guild " +:+ LinkedAccounts.guild_id a
              +:+ ": " +:+ Js.errorMessage e)
             (SyncResults.errors r))
    /\ (exists visits,
          map fst visits
          ≡ₚ List.filter (fun a => syncable w (LinkedAccounts.guild_id a))
               accounts
          /\ Forall (fun visit => during_sync w (snd visit)) visits
          /\ SyncResults.errors r = flat_map (recorded_failure env) visits)
    /\ (forall a e,
          In a accounts ->
          syncable w (LinkedAccounts.guild_id a) = true ->
          (forall w0,
             during_sync w w0 ->
             account_failure env (LinkedAccounts.guild_id a) a w0 = Some e) ->
          In ("Failed to sync " +:+ LinkedAccounts.username a
              +:+ " in guild " +:+ LinkedAccounts.guild_id a
              +:+ ": " +:+ Js.errorMessage e)
             (SyncResults.errors r)).
Proof.
  intros accounts.
  unfold syncAllRoles, bind, modify, try_catch, Supabase.getAllLinkedAccounts,
    gets. simpl. fold accounts.
  destruct accounts as [|first rest] eqn:Haccounts.
  { eexists _, _. split; [reflexivity|]. simpl.
    split; [reflexivity|]. split; [reflexivity|]. split; [constructor|].
    split; [intros a e []|]. split; [|intros a e []].
    exists []. split; [reflexivity|]. split; [constructor|reflexivity]. }
  rewrite <- Haccounts.
  set (start := set_results (SyncResults.mk 0 0 [] 0) w).
  destruct (syncGuilds_run (group_by_guild accounts) start)
    as (w' & more & Hrun & Hc & Hg & Ht & Hs & He & Hform & Hfail).
  destruct (group_by_guild_spec accounts) as [Hgrouped Hplaced].
  destruct (syncGuilds_records (group_by_guild accounts) start Hgrouped)
    as (w'' & visits & Hrun' & Hmap & Hworlds & _ & He').
  rewrite Hrun in Hrun'. injection Hrun' as <-.
  assert (Hsame : forall g, syncable start g = syncable w g)
    by (intros g; reflexivity).
  assert (Hstart : forall w0, during_sync start w0 -> during_sync w w0)
    by (intros w0 H; exact H).
  assert (Hvisited :
    map fst visits
    ≡ₚ List.filter (fun a => syncable w (LinkedAccounts.guild_id a)) accounts).
  { rewrite Hmap.
    rewrite (flat_map_ext _
               (fun group => if syncable w (fst group) then snd group else []))
      by (intros group; now rewrite Hsame).
    apply (group_by_guild_perm (syncable w)). }
  exists w', (results w'). split; [rewrite Hrun; reflexivity|].
  split.
  { rewrite Ht. simpl. rewrite (weight_ext _ _ _ Hsame).
    now rewrite weight_group_by_guild. }
  split.
  { rewrite Hs. simpl.
    rewrite (weight_ext _ (fun g => negb (syncable w g)))
      by (intros g; now rewrite Hsame).
    now rewrite (weight_group_by_guild (fun g => negb (syncable w g))). }
  split.
  { rewrite He. simpl.
    eapply List.Forall_impl; [|exact Hform].
    intros msg (g & accs & a & e & Hin & Ha & Hsync & ->).
    pose proof (Hgrouped g accs a Hin Ha) as <-.
    exists a, e. split; [|split; [|reflexivity]].
    + apply (group_by_guild_members accounts _ accs a Hin Ha).
    + now rewrite <- Hsame. }
  split.
  { rewrite He. simpl. intros a e Ha Hsync Hlookup.
    destruct (Hplaced a Ha) as (accs & Hin & Hacc).
    apply (Hfail _ accs a e Hin Hacc); [now rewrite Hsame|exact Hlookup]. }
  split.
  { exists visits. split; [exact Hvisited|]. split.
    - eapply List.Forall_impl; [|exact Hworlds]. intros visit. apply Hstart.
    - rewrite He'. reflexivity. }
  intros a e Ha Hsync Halways.
  assert (Hturn : In a (map fst visits)).
  { rewrite Hvisited. apply filter_In. split; [exact Ha|exact Hsync]. }
  apply in_map_iff in Hturn as ([a' wa] & Heq & Hin). cbn in Heq. subst a'.
  rewrite He'. cbn [SyncResults.errors results start set_results app].
  apply in_flat_map. exists (a, wa). split; [exact Hin|].
  rewrite List.Forall_forall in Hworlds.
  unfold recorded_failure.
  rewrite (Halways wa (Hstart wa (Hworlds (a, wa) Hin))).
  left. reflexivity.
Qed.

End Sync.

(** ** Problem ids, from the issuer to the /verify command *)

Section ProblemIds.

Import Verify.

Lemma pretty_N_char_digit x :
  (x < 10)%N ->
  is_digit (pretty_N_char x) = true
  /\ Z.of_nat (nat_of_ascii (pretty_N_char x) - 48) = Z.of_N x.
Proof.
  intros Hx.
  assert (x = 0 \/ x = 1 \/ x = 2 \/ x = 3 \/ x = 4 \/ x = 5 \/ x = 6
          \/ x = 7 \/ x = 8 \/ x = 9)%N as Hcases by lia.
  repeat (destruct Hcases as [->|Hcases]; [split; reflexivity|]).
  subst x. split; reflexivity.
Qed.

Lemma parseInt_from_acc s acc :
  parseInt_from acc s
  = acc * 10 ^ Z.of_nat (String.length s) + parseInt_from 0 s.
Proof.
  revert acc. induction s as [|c s IH]; intros acc; simpl String.length.
  - simpl. lia.
  - cbn [parseInt_from]. rewrite IH, (IH (10 * 0 + _)).
    rewrite Nat2Z.inj_succ, Z.pow_succ_r by lia. lia.
Qed.

(** Reading back the digits that the printer put in front of [ds]. *)
Lemma parseInt_pretty_N_go x ds :
  parseInt_from 0 (pretty_N_go x ds)
  = Z.of_N x * 10 ^ Z.of_nat (String.length ds) + parseInt_from 0 ds.
Proof.
  revert ds. induction (N.lt_wf_0 x) as [x _ IH]; intros ds.
  assert (x = 0 \/ 0 < x)%N as [->|Hpos] by lia.
  - rewrite pretty_N_go_0. simpl. lia.
  - rewrite pretty_N_go_step by exact Hpos.
    rewrite IH by (apply N.div_lt; lia).
    destruct (pretty_N_char_digit (x `mod` 10)%N) as [_ Hd];
      [apply N.mod_lt; lia|].
    cbn [parseInt_from String.length]. rewrite parseInt_from_acc, Hd.
    rewrite Nat2Z.inj_succ, Z.pow_succ_r by lia.
    pose proof (N.div_mod x 10 ltac:(lia)) as Hdm.
    apply (f_equal Z.of_N) in Hdm. rewrite N2Z.inj_add, N2Z.inj_mul in Hdm.
    change (Z.of_N 10) with 10 in Hdm. lia.
Qed.

Lemma span_digits_pretty_N_go x s :
  span_digits (pretty_N_go x s)
  = (pretty_N_go x (fst (span_digits s)), snd (span_digits s)).
Proof.
  revert s. induction (N.lt_wf_0 x) as [x _ IH]; intros s.
  assert (x = 0 \/ 0 < x)%N as [->|Hpos] by lia.
  - rewrite !pretty_N_go_0. now destruct (span_digits s).
  - rewrite pretty_N_go_step by exact Hpos.
    rewrite IH by (apply N.div_lt; lia).
    destruct (pretty_N_char_digit (x `mod` 10)%N) as [Hd _];
      [apply N.mod_lt; lia|].
    cbn [span_digits]. rewrite Hd.
    destruct (span_digits s) as [ds rest]. cbn [fst snd].
    rewrite (pretty_N_go_step x ds Hpos). reflexivity.
Qed.

Lemma pretty_N_go_append x s t :
  pretty_N_go x s +:+ t = pretty_N_go x (s +:+ t).
Proof.
  revert s. induction (N.lt_wf_0 x) as [x _ IH]; intros s.
  assert (x = 0 \/ 0 < x)%N as [->|Hpos] by lia.
  - now rewrite !pretty_N_go_0.
  - rewrite (pretty_N_go_step x s Hpos), (pretty_N_go_step x (s +:+ t) Hpos).
    now rewrite IH by (apply N.div_lt; lia).
Qed.

Lemma letter_is_no_digit c : is_letter c = true -> is_digit c = false.
Proof.
  unfold is_letter, is_digit, Js.is_upper, Js.is_lower.
  rewrite orb_true_iff, !andb_true_iff, andb_false_iff, !Nat.leb_le, !Nat.leb_gt.
  lia.
Qed.

(** The id of an issued challenge splits into the digits of the contest
    id and the index. *)
Lemma span_digits_issued_id contestId c rest :
  0 <= contestId -> is_letter c = true ->
  exists d ds,
    span_digits (Js.show contestId +:+ String c rest)
    = (String d ds, String c rest)
    /\ parseInt (String d ds) = contestId.
Proof.
  intros Hpos Hletter. apply letter_is_no_digit in Hletter.
  destruct contestId as [|p|p]; [| |lia].
  - exists "0"%char, EmptyString.
    change (Js.show 0 +:+ String c rest) with (String "0" (String c rest)).
    cbn [span_digits]. change (is_digit "0") with true. cbn iota.
    now rewrite Hletter.
  - unfold Js.show, pretty, pretty_Z, pretty, pretty_positive, pretty, pretty_N.
    destruct (decide (N.pos p = 0%N)) as [|_]; [discriminate|].
    rewrite pretty_N_go_append, span_digits_pretty_N_go.
    change ("" +:+ String c rest) with (String c rest).
    cbn [span_digits]. rewrite Hletter. cbn [fst snd].
    pose proof (parseInt_pretty_N_go (N.pos p) EmptyString) as Hparse.
    cbn [String.length parseInt_from] in Hparse.
    destruct (pretty_N_go (N.pos p) EmptyString) as [|d ds] eqn:Hdigits.
    + cbn in Hparse. lia.
    + exists d, ds. split; [reflexivity|].
      unfold parseInt. rewrite Hparse. cbn. lia.
Qed.

(** X1.  The /verify command reads the id of an issued challenge back
    as the contest id and the upper-cased index of the problem, for a
    contest id that is a safe integer and not negative, and an index
    made of a letter followed by digits. *)
Lemma issued_id_parses_back problem c rest w :
  0 <= CodeforcesProblem.contestId problem ->
  Js.is_safe_integer (CodeforcesProblem.contestId problem) = true ->
  CodeforcesProblem.index problem = String c rest ->
  is_letter c = true ->
  all_digits rest = true ->
  parseCodeforcesProblemId (RandomProblem.id (RandomProblem.describe problem)) w
  = (w, inr (CodeforcesProblem.contestId problem,
             Js.toUpperCase (CodeforcesProblem.index problem))).
Proof.
  intros Hpos _ Hindex Hletter Hdigits.
  unfold parseCodeforcesProblemId. cbn [RandomProblem.describe RandomProblem.id].
  rewrite Hindex.
  destruct (span_digits_issued_id _ c rest Hpos Hletter)
    as (d & ds & -> & Hparse).
  now rewrite Hletter, Hdigits, Hparse.
Qed.

End ProblemIds.

(** ** The theorems at work *)

Section Instances.

Import Spec Fixtures.

(** Two challenges issued in a row for the key (42, g1, alice), on a
    table that held two sessions of the key: one session of the key is
    left, on the problem of the second call. *)
Lemma second_challenge_supersedes :
  exists row,
    sessions_of ("42", "g1", "alice")
      (pending_verifications
         (fst (for_each (Supabase.createPendingVerification (at_time 5))
                 [challenge_A; challenge_B] busy_world)))
    = [row]
    /\ PendingVerification.problem_id row = "1501B".
Proof.
  destruct (one_session_per_key_after_creations (at_time 5)
              ("42", "g1", "alice") [challenge_A] challenge_B busy_world)
    as (earlier & row & _ & Hone & _ & _ & Hid & _).
  - repeat constructor.
  - exists row. split; [exact Hone|exact Hid].
Defined.

(** User 42 held the roles of newbie and pupil; assigning the rank
    Expert returns [true]. *)
Lemma expert_role_replaces_the_others :
  exists config rankRoleMap roleId,
    guild_config busy_world !! "g1" = Some config
    /\ GuildConfig.rank_role_map config = Some rankRoleMap
    /\ rankRoleMap !! Js.toLowerCase "Expert" = Some roleId
    /\ roles_held
         (fst (RoleManager.assignRankRole offline member_42 "g1" "Expert"
                 busy_world)) member_42
       = {[roleId]}
         ∪ (roles_held busy_world member_42
            ∖ other_rank_roles rankRoleMap roleId
                (roles_held busy_world member_42)).
Proof.
  destruct (rank_role_is_exclusive_after_assignment offline member_42 "g1"
              "Expert" busy_world
              (fst (RoleManager.assignRankRole offline member_42 "g1" "Expert"
                      busy_world)))
    as (config & rankRoleMap & roleId & Hc & Hm & Hr & _ & _ & Hafter & _).
  - vm_compute. reflexivity.
  - exists config, rankRoleMap, roleId. auto.
Defined.

(** The roles user 42 holds afterwards. *)
Example roles_after_expert :
  elements
    (roles_held
       (fst (RoleManager.assignRankRole offline member_42 "g1" "Expert"
               busy_world)) member_42)
  = ["role-expert"; "role-verified"].
Proof. vm_compute. reflexivity. Qed.

(** The check on a user whose only submission to the problem is a wrong
    answer. *)
Example lower_case_index_matches :
  CodeforcesService.isProblemMatch 1500 "A"
    (CodeforcesService.to_submission
       (submission_1500A "a" (Some "WRONG_ANSWER") 20)) = true.
Proof. reflexivity. Qed.

(** Ids as /verify reads them. *)
Example parse_1500A :
  snd (Verify.parseCodeforcesProblemId "1500A" empty_world)
  = inr (1500, "A").
Proof. reflexivity. Qed.

Example parse_1500a1 :
  snd (Verify.parseCodeforcesProblemId "1500a1" empty_world)
  = inr (1500, "A1").
Proof. reflexivity. Qed.

Example parse_without_index :
  snd (Verify.parseCodeforcesProblemId "1500" empty_world)
  = inl (Js.Error "Invalid problem ID format: 1500").
Proof. reflexivity. Qed.

Example parse_two_letters :
  snd (Verify.parseCodeforcesProblemId "1500AB" empty_world)
  = inl (Js.Error "Invalid problem ID format: 1500AB").
Proof. reflexivity. Qed.

(** The remaining time is printed in whole minutes and seconds. *)
Example remaining_time :
  snd (Time.getRemainingTime (at_time 1000) 600000 empty_world)
  = inr "9m 59s".
Proof. reflexivity. Qed.

(** An empty catalogue: the issuer fails. *)
Example empty_catalogue_fails :
  snd (RandomProblem.getRandomCodeforcesProblem (with_catalogue [] offline)
         empty_world)
  = inl (Js.Error "No Codeforces problems available").
Proof. reflexivity. Qed.

(** No catalogue and no snapshot: the failure of the fetch is thrown. *)
Example unfetchable_catalogue_fails :
  snd (RandomProblem.getRandomCodeforcesProblem offline empty_world)
  = inl (Js.Error "offline").
Proof. reflexivity. Qed.

(** No catalogue, but a snapshot taken two hours ago: it is served. *)
Example stale_snapshot_is_served :
  snd (RandomProblem.getRandomCodeforcesProblem (at_time 7200001)
         world_with_snapshot)
  = inr (RandomProblem.mk "1500A" 1500 "A" "Watermelon" 1600
           "https://codeforces.com/problemset/problem/1500/A").
Proof. vm_compute. reflexivity. Qed.

(** The Discord API refuses to add roles: both flags are [false] and no
    error is listed. *)
Example refused_roles_show_as_flags :
  snd (RoleManager.assignVerificationRoles missing_permissions
         (GuildMember.mk "g1" "43") "g1" (Some "pupil") busy_world)
  = inr (RoleManager.mkResults false false []).
Proof. vm_compute. reflexivity. Qed.

(** The lookup of alice times out: bob and dave, of the same guild, are
    still processed; carol's guild has no configuration. *)
Example batch_survives_a_timeout :
  snd (RoleSync.syncAllRoles alice_times_out busy_world)
  = inr (SyncResults.mk 3 2
           ["Failed to sync alice in guild g1: Codeforces API request timed out"]
           1).
Proof. vm_compute. reflexivity. Qed.

(** The query of the command returns the sessions that have not expired
    yet: the session of user 42 that expired at 600 s is pending in the
    table, and the command run at 700 s, which does not evaluate it,
    answers that nothing is pending and leaves it in the table. *)
Example session_expired_before_the_query_stays :
  In challenge_A (pending_verifications busy_world)
  /\ PendingVerification.expires_at challenge_A
     < clock (at_time 700000) (steps busy_world)
  /\ Verify.execute (at_time 700000) "42" (Some "g1") busy_world
     = (set_steps 1 busy_world, inr Verify.NoPending)
  /\ In challenge_A (pending_verifications (set_steps 1 busy_world)).
Proof.
  split; [right; right; left; reflexivity|].
  split; [reflexivity|]. split; [reflexivity|].
  right; right; left; reflexivity.
Qed.

(** The query runs at 100 ms and the loop reaches the sessions at 700 s:
    both sessions of user 42 are reported as expired. *)
Example sessions_expiring_during_the_command_are_reported :
  snd (Verify.execute
         (with_clock (fun n => if Nat.eqb n 0 then 100 else 700000) offline)
         "42" (Some "g1") busy_world)
  = inr (Verify.Results
           [Verify.Failure "alice"
              "Verification expired. Please start a new verification with `/link`."
              None None None;
            Verify.Failure "alice"
              "Verification expired. Please start a new verification with `/link`."
              None None None]).
Proof. vm_compute. reflexivity. Qed.

End Instances.

(** ** Deadlines and the time that remains *)

Section Deadlines.

Import Verify.

(** The printer puts digits in front of what it is given. *)
Lemma pretty_N_go_head x c s :
  is_digit c = true ->
  exists c' s', pretty_N_go x (String c s) = String c' s' /\ is_digit c' = true.
Proof.
  revert c s. induction (N.lt_wf_0 x) as [x _ IH]; intros c s Hc.
  assert (x = 0 \/ 0 < x)%N as [->|Hpos] by lia.
  - rewrite pretty_N_go_0. eauto.
  - rewrite pretty_N_go_step by exact Hpos.
    apply IH; [apply N.div_lt; lia|].
    apply pretty_N_char_digit. apply N.mod_lt. lia.
Qed.

(** A number that is not negative is printed with a digit first. *)
Lemma show_head z :
  0 <= z -> exists c s, Js.show z = String c s /\ is_digit c = true.
Proof.
  intros Hz. destruct z as [|p|p]; [| |lia].
  - exists "0"%char, EmptyString. split; reflexivity.
  - unfold Js.show, pretty, pretty_Z, pretty, pretty_positive, pretty, pretty_N.
    destruct (decide (N.pos p = 0%N)) as [|_]; [discriminate|].
    rewrite pretty_N_go_step by lia.
    apply pretty_N_go_head. apply pretty_N_char_digit. apply N.mod_lt. lia.
Qed.

Lemma getRemainingTime_run env expiresAt w :
  Time.getRemainingTime env expiresAt w =
  (set_steps (S (steps w)) w,
   inr (let diff := expiresAt - clock env (steps w) in
        if diff <=? 0 then "Expired"
        else Js.show (diff / 60000) +:+ "m "
             +:+ Js.show (Z.rem diff 60000 / 1000) +:+ "s")).
Proof.
  unfold Time.getRemainingTime, bind, Date_now, ask, ret. cbn [fst snd].
  destruct (_ <=? 0); reflexivity.
Qed.

(** The text is [Expired] exactly when the deadline is not after the
    clock. *)
Lemma getRemainingTime_expired_iff env expiresAt w :
  snd (Time.getRemainingTime env expiresAt w) = inr "Expired"
  <-> expiresAt <= clock env (steps w).
Proof.
  rewrite getRemainingTime_run. cbn [snd]. cbv zeta.
  destruct (expiresAt - clock env (steps w) <=? 0) eqn:Hdiff.
  - apply Z.leb_le in Hdiff. split; [lia|reflexivity].
  - apply Z.leb_gt in Hdiff. split; [|lia]. intros [= Htext].
    assert (Hmin : 0 <= (expiresAt - clock env (steps w)) / 60000)
      by (apply Z.div_pos; lia).
    destruct (show_head _ Hmin) as (c & s & Hshow & Hc).
    rewrite Hshow in Htext. cbn in Htext.
    injection Htext as -> _. discriminate Hc.
Qed.

(** X2.  [getRemainingTime] reads the clock once and returns a text.
    The text is [Expired] exactly when the deadline is not after the
    clock.  Otherwise it is the number of whole minutes and the number
    of whole seconds beyond them that remain, each printed in decimal:
    the seconds are below 60, and what is not shown is less than a
    second. *)
Theorem remaining_time_is_whole_minutes_and_seconds env expiresAt w :
  let now := clock env (steps w) in
  exists text,
    Time.getRemainingTime env expiresAt w
    = (set_steps (S (steps w)) w, inr text)
    /\ (text = "Expired" <-> expiresAt <= now)
    /\ (now < expiresAt ->
        exists minutes seconds,
          text = Js.show minutes +:+ "m " +:+ Js.show seconds +:+ "s"
          /\ 0 <= minutes
          /\ 0 <= seconds < 60
          /\ 60000 * minutes + 1000 * seconds <= expiresAt - now
             < 60000 * minutes + 1000 * seconds + 1000).
Proof.
  intros now.
  pose proof (getRemainingTime_expired_iff env expiresAt w) as Hexpired.
  rewrite getRemainingTime_run in *. cbn [snd] in Hexpired. fold now in Hexpired |- *.
  eexists. split; [reflexivity|]. split.
  { etransitivity; [|exact Hexpired].
    split; [intros H; f_equal; exact H|intros [= H]; exact H]. }
  intros Hlive. cbv zeta.
  destruct (expiresAt - now <=? 0) eqn:Hdiff; [apply Z.leb_le in Hdiff; lia|].
  set (diff := expiresAt - now) in *.
  assert (Hrem : Z.rem diff 60000 = diff mod 60000)
    by (apply Z.rem_mod_nonneg; lia).
  pose proof (Z.div_mod diff 60000 ltac:(lia)) as Hdm.
  pose proof (Z.mod_pos_bound diff 60000 ltac:(lia)) as Hmod.
  pose proof (Z.div_pos diff 60000 ltac:(lia) ltac:(lia)) as Hmin.
  pose proof (Z.div_mod (diff mod 60000) 1000 ltac:(lia)) as Hdm'.
  pose proof (Z.mod_pos_bound (diff mod 60000) 1000 ltac:(lia)) as Hmod'.
  assert (Hsec : 0 <= diff mod 60000 / 1000 < 60).
  { split; [apply Z.div_pos; lia|].
    apply Z.div_lt_upper_bound; lia. }
  exists (diff / 60000), (Z.rem diff 60000 / 1000).
  rewrite Hrem. split; [reflexivity|]. split; [exact Hmin|].
  split; [exact Hsec|]. lia.
Qed.

(** Read at the same instant, the two tests of the deadline differ
    on the instant of the deadline itself and nowhere else: there
    [isExpired] still answers [false], while [getRemainingTime] already
    answers [Expired]. *)
Theorem deadline_instant_is_expired_for_the_display_only env expiresAt w :
  (snd (Time.isExpired env expiresAt w) = inr true ->
   snd (Time.getRemainingTime env expiresAt w) = inr "Expired")
  /\ (snd (Time.isExpired env expiresAt w) = inr false
      /\ snd (Time.getRemainingTime env expiresAt w) = inr "Expired"
      <-> clock env (steps w) = expiresAt).
Proof.
  rewrite getRemainingTime_expired_iff, isExpired_run. cbn [snd]. split.
  - intros [= H]. apply Z.ltb_lt in H. lia.
  - split.
    + intros [[= H] Ht]. apply Z.ltb_ge in H. lia.
    + intros <-. split; [|lia]. f_equal. apply Z.ltb_ge. lia.
Qed.

End Deadlines.

(** ** Requests to Codeforces and the users they look up *)

Section Lookups.

Import CodeforcesService Spec.

Lemma append_nil_l s : EmptyString +:+ s = s.
Proof. reflexivity. Qed.

Lemma append_cons c s t : String c s +:+ t = String c (s +:+ t).
Proof. reflexivity. Qed.

Lemma append_assoc s t u : (s +:+ t) +:+ u = s +:+ t +:+ u.
Proof.
  induction s as [|c s IH]; [reflexivity|].
  rewrite !append_cons. now rewrite IH.
Qed.

Lemma prefix_iff a b :
  String.prefix a b = true <-> exists after, b = a +:+ after.
Proof.
  revert b. induction a as [|c a IH]; intros b; simpl.
  - split; [intros _; now exists b|destruct b; reflexivity].
  - destruct b as [|d b]; [split; [discriminate|intros [after [=]]]|].
    simpl. destruct (Ascii.ascii_dec c d) as [->|Hne].
    + rewrite IH. split; intros [after H]; exists after.
      * rewrite append_cons. now rewrite H.
      * rewrite append_cons in H. now injection H.
    + split; [discriminate|]. intros [after H]. rewrite append_cons in H.
      injection H as H _. congruence.
Qed.

(** [includes] tests for an occurrence. *)
Lemma includes_iff needle hay :
  includes needle hay = true <-> occurs needle hay.
Proof.
  unfold occurs. split.
  - induction hay as [|c hay IH]; cbn [includes]; rewrite orb_true_iff.
    + intros [H|H]; [|discriminate].
      apply prefix_iff in H as [after ->]. now exists EmptyString, after.
    + intros [H|H].
      * apply prefix_iff in H as [after ->]. now exists EmptyString, after.
      * destruct (IH H) as (before & after & ->).
        now exists (String c before), after.
  - intros (before & after & ->).
    induction before as [|c before IH].
    + assert (H : String.prefix needle (needle +:+ after) = true)
        by (apply prefix_iff; now exists after).
      rewrite append_nil_l. revert H. generalize (needle +:+ after).
      intros hay H. destruct hay; cbn [includes]; rewrite H; reflexivity.
    + rewrite append_cons. cbn [includes]. rewrite IH. apply orb_true_r.
Qed.

Lemma message_includes_iff e :
  message_includes e "not found" = true <-> says_not_found e.
Proof.
  unfold says_not_found. destruct e as [message code|text]; simpl.
  - rewrite includes_iff. split.
    + intros H. now exists message, code.
    + intros (m & c & [= <- <-] & H). exact H.
  - split; [discriminate|]. intros (m & c & [=] & _).
Qed.

Lemma says_not_found_dec e : {says_not_found e} + {~ says_not_found e}.
Proof.
  destruct (message_includes e "not found") eqn:H.
  - left. now apply message_includes_iff.
  - right. intros Hs. apply message_includes_iff in Hs. congruence.
Qed.

Variable env : Env.

(** X3.  A request to Codeforces reads the clock twice and the endpoint
    once, and records the second reading as the time of the last request
    whether the request succeeds or not.  It returns a result exactly
    when the answer arrives with the status OK and carries one.  An
    answer with another status or without a result is thrown as an
    error with the comment of the answer, a refusal of the server as an
    error that quotes its comment, and a timeout as the error of the
    timeout. *)
Theorem request_returns_what_an_ok_answer_carries
    {T} (call : nat -> AxiosOutcome T) w :
  let answer := call (2 + steps w)%nat in
  let run := makeRequest env call w in
  steps (fst run) = (3 + steps w)%nat
  /\ lastRequestTime (fst run) = clock env (S (steps w))
  /\ (forall result,
        snd run = inr result <->
        exists comment,
          answer = Fulfilled (CodeforcesApiResponse.mk "OK" (Some result) comment))
  /\ (forall status result comment,
        answer = Fulfilled (CodeforcesApiResponse.mk status result comment) ->
        status <> "OK" \/ result = None ->
        snd run = inl (Js.Error (Js.or_else comment "Codeforces API error")))
  /\ (forall comment message,
        answer = AxiosResponseError comment message ->
        snd run = inl (Js.Error ("Codeforces API error: "
                                 +:+ Js.or_else comment message)))
  /\ (forall message,
        answer = AxiosNoResponse "ECONNABORTED" message ->
        snd run = inl (Js.Error "Codeforces API request timed out")).
Proof.
  intros answer run. subst run. rewrite makeRequest_run. cbn [fst snd].
  fold answer.
  split; [reflexivity|]. split; [reflexivity|]. split; [|split; [|split]].
  - intros result. unfold settle.
    destruct answer as [[status res comment]|c m|c m|e]; cbn.
    + destruct res as [r|].
      * destruct (String.eqb status "OK") eqn:Hs.
        -- apply String.eqb_eq in Hs. subst status. split.
           ++ intros [= <-]. now exists comment.
           ++ intros (c & [= <- _]). reflexivity.
        -- apply String.eqb_neq in Hs. split; [discriminate|].
           intros (c & [= -> _ _]). contradiction.
      * split; [discriminate|]. intros (c & [=]).
    + split; [discriminate|]. intros (c' & [=]).
    + destruct (String.eqb c "ECONNABORTED");
        (split; [discriminate|]); intros (c' & [=]).
    + split; [discriminate|]. intros (c' & [=]).
  - intros status result comment -> Hbad. cbn.
    destruct result as [r|]; [|reflexivity].
    destruct Hbad as [Hs|[=]]. apply String.eqb_neq in Hs. now rewrite Hs.
  - intros comment message ->. reflexivity.
  - intros message ->. reflexivity.
Qed.

(** X4.  [validateUser] makes one request for the user.  It answers
    [true] exactly when the request returns, [false] exactly when the
    request throws an error whose message says "not found", and throws
    what the request threw in every other case.  A refusal of the server
    whose comment says "not found" is thus answered with [false]. *)
Theorem validateUser_is_false_only_when_not_found username w :
  let request := makeRequest env (fun n => user_info env n username) w in
  let run := validateUser env username w in
  fst run = fst request
  /\ (snd run = inr true <-> exists users, snd request = inr users)
  /\ (snd run = inr false <->
      exists e, snd request = inl e /\ says_not_found e)
  /\ (forall e,
        snd run = inl e <-> snd request = inl e /\ ~ says_not_found e)
  /\ (forall comment message,
        user_info env (2 + steps w)%nat username
        = AxiosResponseError (Some comment) message ->
        occurs "not found" comment ->
        snd run = inr false).
Proof.
  intros request run.
  assert (Hrun : run =
            match snd request with
            | inr _ => (fst request, inr true)
            | inl e =>
                (fst request,
                 if message_includes e "not found" then inr false else inl e)
            end).
  { subst run request. unfold validateUser, try_catch, bind, ret, throw.
    destruct (makeRequest env _ w) as [w1 [e|users]]; cbn [fst snd];
      [|reflexivity].
    destruct (message_includes e "not found"); reflexivity. }
  rewrite Hrun.
  split; [destruct (snd request) as [e|users]; reflexivity|].
  split; [|split; [|split]].
  - destruct (snd request) as [e|users]; cbn [snd].
    + destruct (message_includes e "not found");
        (split; [discriminate|]); intros (users & [=]).
    + split; [eauto|reflexivity].
  - destruct (snd request) as [e|users]; cbn [snd].
    + destruct (message_includes e "not found") eqn:Hm.
      * split; [intros _|reflexivity].
        exists e. split; [reflexivity|]. now apply message_includes_iff.
      * split; [discriminate|]. intros (e' & [= <-] & Hs).
        apply message_includes_iff in Hs. congruence.
    + split; [discriminate|]. intros (e' & [=] & _).
  - intros e'. destruct (snd request) as [e|users]; cbn [snd].
    + destruct (message_includes e "not found") eqn:Hm.
      * split; [discriminate|]. intros [[= <-] Hn].
        exfalso. apply Hn. now apply message_includes_iff.
      * split.
        -- intros [= <-]. split; [reflexivity|]. intros Hs.
           apply message_includes_iff in Hs. congruence.
        -- intros [[= <-] _]. reflexivity.
    + split; [discriminate|]. intros [[=] _].
  - intros comment message Hanswer (before & after & Hcomment).
    subst request. rewrite makeRequest_run. cbn [fst snd].
    rewrite Hanswer. cbn [settle].
    assert (Htruthy : Js.or_else (Some comment) message = comment).
    { unfold Js.or_else. destruct comment; [|reflexivity].
      destruct before; discriminate Hcomment. }
    rewrite Htruthy.
    assert (Hm : message_includes
                   (Js.Error ("Codeforces API error: " +:+ comment))
                   "not found" = true).
    { apply message_includes_iff.
      exists ("Codeforces API error: " +:+ comment), None.
      split; [reflexivity|].
      exists ("Codeforces API error: " +:+ before), after.
      rewrite Hcomment. reflexivity. }
    now rewrite Hm.
Qed.

Lemma not_found_message username :
  says_not_found
    (Js.Error ("User " +:+ Js.dq +:+ username +:+ Js.dq +:+ " not found")).
Proof.
  eexists _, None. split; [reflexivity|].
  exists ("User " +:+ Js.dq +:+ username +:+ Js.dq +:+ " "), EmptyString.
  rewrite !append_assoc. reflexivity.
Qed.

Lemma getUserInfo_run username w :
  getUserInfo env username w =
  let request := makeRequest env (fun n => user_info env n username) w in
  let missing :=
    Js.Error ("Codeforces user " +:+ Js.dq +:+ username +:+ Js.dq
              +:+ " not found") in
  (fst request,
   match snd request with
   | inr [] => inl missing
   | inr (user :: _) =>
       inr (UserInfo.mk
              (CodeforcesUser.handle user)
              (default "unrated" (CodeforcesUser.rank user))
              (default 0 (CodeforcesUser.rating user))
              (default "unrated" (CodeforcesUser.maxRank user))
              (default 0 (CodeforcesUser.maxRating user))
              (CodeforcesUser.avatar user)
              (CodeforcesUser.titlePhoto user))
   | inl e => if message_includes e "not found" then inl missing else inl e
   end).
Proof.
  cbv zeta. unfold getUserInfo, try_catch, bind, ret, throw.
  destruct (makeRequest env _ w) as [w1 [e|[|user others]]]; cbn [fst snd].
  - destruct (message_includes e "not found"); reflexivity.
  - pose proof (proj2 (message_includes_iff _) (not_found_message username)) as H.
    rewrite H. reflexivity.
  - reflexivity.
Qed.

(** X5.  [getUserInfo] makes one request for the user.  From an answer
    that lists users it returns the first, with [unrated] for a missing
    rank and 0 for a missing rating.  An answer that lists no user and
    any error whose message says "not found" are reported alike, as the
    error that the Codeforces user of that name was not found; any other
    error is thrown as it is. *)
Theorem getUserInfo_reports_missing_users_alike username w :
  let request := makeRequest env (fun n => user_info env n username) w in
  let run := getUserInfo env username w in
  let missing :=
    Js.Error ("Codeforces user " +:+ Js.dq +:+ username +:+ Js.dq
              +:+ " not found") in
  fst run = fst request
  /\ (snd request = inr [] -> snd run = inl missing)
  /\ (forall user others,
        snd request = inr (user :: others) ->
        snd run
        = inr (UserInfo.mk
                 (CodeforcesUser.handle user)
                 (default "unrated" (CodeforcesUser.rank user))
                 (default 0 (CodeforcesUser.rating user))
                 (default "unrated" (CodeforcesUser.maxRank user))
                 (default 0 (CodeforcesUser.maxRating user))
                 (CodeforcesUser.avatar user)
                 (CodeforcesUser.titlePhoto user)))
  /\ (forall e,
        snd request = inl e -> says_not_found e -> snd run = inl missing)
  /\ (forall e,
        snd request = inl e -> ~ says_not_found e -> snd run = inl e).
Proof.
  intros request run missing. subst run. rewrite getUserInfo_run.
  cbv zeta. fold request. cbn [fst snd].
  split; [reflexivity|]. split; [intros ->; reflexivity|].
  split; [intros user others ->; reflexivity|]. split.
  - intros e -> Hs. apply message_includes_iff in Hs. now rewrite Hs.
  - intros e -> Hs.
    destruct (message_includes e "not found") eqn:Hm; [|reflexivity].
    apply message_includes_iff in Hm. contradiction.
Qed.

End Lookups.

(** ** The tables of sessions and of linked accounts *)

Section Tables.

Import Supabase Spec.

Lemma filter_length_split {A} (f : A -> bool) (l : list A) :
  (length (List.filter f l) + length (List.filter (fun x => negb (f x)) l)
   = length l)%nat.
Proof.
  induction l as [|x l IH]; [reflexivity|].
  simpl. destruct (f x); simpl; lia.
Qed.

Variable env : Env.

(** X6.  The cleanup reads the clock once and deletes the sessions whose
    deadline is strictly before the reading: the sessions left are those
    whose deadline is at or after it, in their order, and the number
    returned is the number of sessions deleted.  A session that the
    query of /verify would return at the same reading is never deleted;
    the accounts are left as they are. *)
Theorem cleanup_deletes_the_sessions_past_their_deadline w :
  let now := clock env (steps w) in
  exists w' deleted,
    cleanupExpiredVerifications env w = (w', inr deleted)
    /\ pending_verifications w'
       = List.filter (fun row => now <=? PendingVerification.expires_at row)
           (pending_verifications w)
    /\ (forall row,
          In row (pending_verifications w') <->
          In row (pending_verifications w)
          /\ now <= PendingVerification.expires_at row)
    /\ deleted
       = Z.of_nat (length (pending_verifications w))
         - Z.of_nat (length (pending_verifications w'))
    /\ (forall userId guildId evaluated row,
          snd (getPendingVerifications env userId guildId w) = inr evaluated ->
          In row evaluated -> In row (pending_verifications w'))
    /\ linked_accounts w' = linked_accounts w.
Proof.
  intros now.
  assert (Hkept :
    List.filter
      (fun row => negb (PendingVerification.expires_at row <? now))
      (pending_verifications w)
    = List.filter (fun row => now <=? PendingVerification.expires_at row)
        (pending_verifications w)).
  { apply List.filter_ext. intros row.
    destruct (Z.ltb_spec (PendingVerification.expires_at row) now),
      (Z.leb_spec now (PendingVerification.expires_at row)); simpl; lia. }
  eexists _, _.
  split; [unfold cleanupExpiredVerifications, bind, Date_now, ask, gets,
            modify, ret; reflexivity|].
  cbn [pending_verifications set_pending set_steps].
  fold now. rewrite Hkept.
  split; [reflexivity|]. split; [|split; [|split; [|reflexivity]]].
  - intros row. rewrite filter_In, Z.leb_le. reflexivity.
  - rewrite <- Hkept.
    pose proof (filter_length_split
                  (fun row => PendingVerification.expires_at row <? now)
                  (pending_verifications w)) as Hlen.
    cbn [set_steps steps pending_verifications]. fold now. lia.
  - intros userId guildId evaluated row [= <-].
    cbn [set_steps steps pending_verifications]. fold now.
    rewrite !filter_In, !andb_true_iff, Z.ltb_lt, Z.leb_le.
    intros (Hin & _ & Hlive). split; [exact Hin|lia].
Qed.

(** X7.  A session that was just created is among the pending sessions
    of its user in its guild at every later reading of the clock that is
    strictly before its deadline, and at no other; it is then the only
    one of them for its username. *)
Theorem created_session_is_pending_until_its_deadline env' v w :
  let w1 := fst (createPendingVerification env v w) in
  let row := created_row env v w in
  exists pending,
    getPendingVerifications env' (PendingVerification.discord_user_id v)
      (PendingVerification.guild_id v) w1
    = (set_steps (S (steps w1)) w1, inr pending)
    /\ (In row pending <->
        clock env' (steps w1) < PendingVerification.expires_at v)
    /\ (forall other,
          In other pending ->
          PendingVerification.username other = PendingVerification.username v ->
          other = row).
Proof.
  intros w1 row. eexists. split; [reflexivity|].
  pose proof (one_session_after_creation env v w) as [Hone _].
  cbv zeta in Hone. fold w1 row in Hone.
  assert (Hrow : In row (pending_verifications w1)).
  { assert (H : In row (sessions_of (session_key v) (pending_verifications w1)))
      by (rewrite Hone; now left).
    apply filter_In in H. tauto. }
  split.
  - rewrite filter_In, !andb_true_iff, !String.eqb_eq, Z.ltb_lt.
    subst row. cbn [created_row PendingVerification.discord_user_id
                   PendingVerification.guild_id PendingVerification.expires_at].
    tauto.
  - intros other Hin Hname.
    apply filter_In in Hin as [Hin Hsel].
    rewrite !andb_true_iff, !String.eqb_eq in Hsel.
    destruct Hsel as [[Hu Hg] _].
    assert (H : In other (sessions_of (session_key v) (pending_verifications w1))).
    { apply filter_In. split; [exact Hin|].
      apply bool_decide_eq_true. unfold session_key. congruence. }
    rewrite Hone in H. destruct H as [<-|[]]. reflexivity.
Qed.

(** X8.  Deleting a session by the id that its creation returned leaves
    no session of its key, when the id was not in use: the creation had
    replaced the earlier sessions of the key, so the table is left with
    the sessions of the other keys, as they were. *)
Theorem deleting_a_created_session_leaves_none_of_its_key v w :
  (forall old,
     In old (pending_verifications w) ->
     PendingVerification.id old <> next_uuid w) ->
  let created := createPendingVerification env v w in
  exists row w',
    snd created = inr row
    /\ deletePendingVerification (PendingVerification.id row) (fst created)
       = (w', inr tt)
    /\ pending_verifications w'
       = sessions_besides (session_key v) (pending_verifications w)
    /\ sessions_of (session_key v) (pending_verifications w') = [].
Proof.
  intros Hfresh created. subst created.
  rewrite createPendingVerification_run. cbn [fst snd].
  eexists _, _. split; [reflexivity|]. split; [reflexivity|].
  cbn [set_pending pending_verifications].
  assert (Hleft :
    List.filter
      (fun row0 => negb (Nat.eqb (PendingVerification.id row0)
                           (PendingVerification.id (created_row env v w))))
      (sessions_besides (session_key v) (pending_verifications w)
       ++ [created_row env v w])
    = sessions_besides (session_key v) (pending_verifications w)).
  { rewrite List.filter_app. cbn [List.filter].
    rewrite Nat.eqb_refl. cbn [negb]. rewrite app_nil_r.
    apply forallb_filter_id. apply forallb_forall. intros old Hold.
    apply filter_In in Hold as [Hold _].
    apply negb_true_iff, Nat.eqb_neq.
    cbn [created_row PendingVerification.id]. now apply Hfresh. }
  rewrite Hleft. split; [reflexivity|]. apply sessions_of_besides.
Qed.

End Tables.

(** ** Linked accounts *)

Section Accounts.

Import Supabase Spec.

Lemma linked_key_is_iff u g n row :
  linked_key_is u g n row = true <-> account_key row = (u, g, n).
Proof.
  unfold linked_key_is, account_key.
  rewrite !andb_true_iff, !String.eqb_eq. split.
  - intros [[-> ->] ->]. reflexivity.
  - intros [= -> -> ->]. auto.
Qed.

Lemma linked_key_is_false u g n row :
  linked_key_is u g n row = false <-> account_key row <> (u, g, n).
Proof.
  rewrite <- linked_key_is_iff. destruct (linked_key_is u g n row); split;
    congruence.
Qed.

Lemma accounts_besides_replace key data table :
  account_key data = key ->
  accounts_besides key
    (map (fun row => if bool_decide (account_key row = key) then data else row)
       table)
  = accounts_besides key table.
Proof.
  intros Hdata. unfold accounts_besides.
  induction table as [|row table IH]; [reflexivity|]. cbn [map List.filter].
  destruct (bool_decide (account_key row = key)) eqn:E; cbn [negb].
  - rewrite bool_decide_eq_true_2 by exact Hdata. exact IH.
  - rewrite E. cbn [negb]. now rewrite IH.
Qed.

Variable env : Env.

Lemma createLinkedAccount_run u g n rank w :
  createLinkedAccount env u g n rank w =
  let verified_at := clock env (steps w) in
  let rows := linked_accounts w in
  match List.find (linked_key_is u g n) rows with
  | Some old =>
      let data :=
        LinkedAccounts.mk (LinkedAccounts.id old) u g n true
          (Some verified_at) rank in
      (set_linked
         (map (fun row =>
                 if bool_decide (account_key row = (u, g, n)) then data else row)
            rows)
         (set_steps (S (steps w)) w),
       inr data)
  | None =>
      let data :=
        LinkedAccounts.mk (next_uuid w) u g n true (Some verified_at) rank in
      (set_linked (rows ++ [data])
         (set_next_uuid (S (next_uuid w)) (set_steps (S (steps w)) w)),
       inr data)
  end.
Proof.
  unfold createLinkedAccount, bind, Date_now, ask, gets, modify, ret,
    uuid_generate_v4. cbn [fst snd set_steps linked_accounts steps next_uuid].
  destruct (List.find _ _) as [old|]; [|reflexivity].
  cbv zeta. do 2 f_equal. apply map_ext. intros row.
  destruct (linked_key_is u g n row) eqn:E.
  - apply linked_key_is_iff in E. now rewrite bool_decide_eq_true_2.
  - apply linked_key_is_false in E. now rewrite bool_decide_eq_false_2.
Qed.

(** X9.  Linking an account writes one row for the key (user, guild,
    username) and returns it: the row is verified, carries the rank
    given (none when none is given) and the time of the clock; every row
    of the key in the table is then this row, and the rows of the other
    keys are as before.  The row keeps the id of the row it replaces,
    and takes a new id, at the end of the table, when it replaces
    none. *)
Theorem linking_an_account_writes_the_row_of_its_key u g n rank w :
  exists w' data,
    createLinkedAccount env u g n rank w = (w', inr data)
    /\ account_key data = (u, g, n)
    /\ LinkedAccounts.verified data = true
    /\ LinkedAccounts.rank data = rank
    /\ LinkedAccounts.verified_at data = Some (clock env (steps w))
    /\ In data (linked_accounts w')
    /\ (forall row,
          In row (linked_accounts w') -> account_key row = (u, g, n) ->
          row = data)
    /\ accounts_besides (u, g, n) (linked_accounts w')
       = accounts_besides (u, g, n) (linked_accounts w)
    /\ (forall old,
          In old (linked_accounts w) -> account_key old = (u, g, n) ->
          length (linked_accounts w') = length (linked_accounts w)
          /\ exists replaced,
               In replaced (linked_accounts w)
               /\ account_key replaced = (u, g, n)
               /\ LinkedAccounts.id data = LinkedAccounts.id replaced)
    /\ ((forall old,
           In old (linked_accounts w) -> account_key old <> (u, g, n)) ->
        LinkedAccounts.id data = next_uuid w
        /\ linked_accounts w' = linked_accounts w ++ [data]).
Proof.
  rewrite createLinkedAccount_run. cbv zeta.
  destruct (List.find (linked_key_is u g n) (linked_accounts w)) as [old|]
    eqn:Hfind.
  - apply find_some in Hfind as [Hold Hkey]. apply linked_key_is_iff in Hkey.
    eexists _, _. split; [reflexivity|].
    cbn [set_linked linked_accounts account_key LinkedAccounts.discord_user_id
         LinkedAccounts.guild_id LinkedAccounts.username
         LinkedAccounts.verified LinkedAccounts.rank
         LinkedAccounts.verified_at LinkedAccounts.id].
    repeat (split; [reflexivity|]).
    split; [|split; [|split; [|split]]].
    + apply in_map_iff. exists old. split; [|exact Hold].
      now rewrite bool_decide_eq_true_2.
    + intros row Hin Hrow. apply in_map_iff in Hin as (row0 & Heq & _).
      destruct (bool_decide (account_key row0 = (u, g, n))) eqn:E;
        [now symmetry|].
      subst row0. apply bool_decide_eq_false in E. contradiction.
    + now apply accounts_besides_replace.
    + intros old' _ _. split; [apply length_map|].
      exists old. auto.
    + intros Hnone. exfalso. exact (Hnone old Hold Hkey).
  - eexists _, _. split; [reflexivity|].
    cbn [set_linked linked_accounts account_key LinkedAccounts.discord_user_id
         LinkedAccounts.guild_id LinkedAccounts.username
         LinkedAccounts.verified LinkedAccounts.rank
         LinkedAccounts.verified_at LinkedAccounts.id].
    repeat (split; [reflexivity|]).
    assert (Hnone : forall row,
              In row (linked_accounts w) -> account_key row <> (u, g, n)).
    { intros row Hin. apply linked_key_is_false.
      exact (find_none _ _ Hfind row Hin). }
    split; [|split; [|split; [|split]]].
    + apply in_or_app. right. now left.
    + intros row Hin Hrow. apply in_app_or in Hin as [Hin|[<-|[]]];
        [|reflexivity].
      exfalso. exact (Hnone row Hin Hrow).
    + unfold accounts_besides. rewrite List.filter_app. cbn [List.filter account_key
        LinkedAccounts.discord_user_id LinkedAccounts.guild_id
        LinkedAccounts.username].
      rewrite bool_decide_eq_true_2 by reflexivity. cbn [negb].
      apply app_nil_r.
    + intros old Hold Hkey. exfalso. exact (Hnone old Hold Hkey).
    + intros _. split; reflexivity.
Qed.

(** X10.  Updating the rank of an account changes the rank of the rows
    with the given id and nothing else: each row keeps its place and its
    other fields, and the rows with another id keep their rank.  The
    updated row is returned.  When no row has the id, the table is left
    as it is and the error of the store for a missing row is thrown. *)
Theorem rank_update_changes_the_rank_of_that_account_only accountId newRank w :
  let run := updateLinkedAccountRank accountId newRank w in
  Forall2
    (fun old new =>
       unranked new = unranked old
       /\ LinkedAccounts.rank new
          = (if Nat.eqb (LinkedAccounts.id old) accountId
             then Some newRank else LinkedAccounts.rank old))
    (linked_accounts w) (linked_accounts (fst run))
  /\ pending_verifications (fst run) = pending_verifications w
  /\ (forall row,
        In row (linked_accounts w) -> LinkedAccounts.id row = accountId ->
        exists updated,
          snd run = inr updated
          /\ In updated (linked_accounts (fst run))
          /\ LinkedAccounts.id updated = accountId
          /\ LinkedAccounts.rank updated = Some newRank)
  /\ ((forall row,
         In row (linked_accounts w) -> LinkedAccounts.id row <> accountId) ->
      linked_accounts (fst run) = linked_accounts w
      /\ snd run = inl PGRST116).
Proof.
  intros run.
  assert (Hrun : run =
    (set_linked
       (map (fun row => if Nat.eqb (LinkedAccounts.id row) accountId
                        then with_rank newRank row else row)
          (linked_accounts w)) w,
     match List.find (fun row => Nat.eqb (LinkedAccounts.id row) accountId)
             (linked_accounts w) with
     | Some row => inr (with_rank newRank row)
     | None => inl PGRST116
     end)).
  { subst run. unfold updateLinkedAccountRank, bind, gets, modify, ret, throw.
    cbn [fst snd]. destruct (List.find _ _); reflexivity. }
  rewrite Hrun. cbn [fst snd set_linked linked_accounts pending_verifications].
  clear run Hrun.
  split; [|split; [reflexivity|split]].
  - induction (linked_accounts w) as [|row rows IH]; [constructor|].
    cbn [map]. constructor; [|exact IH].
    destruct (Nat.eqb (LinkedAccounts.id row) accountId); split; reflexivity.
  - intros row Hin Hid.
    destruct (List.find _ _) as [found|] eqn:Hfind.
    + apply find_some in Hfind as [Hfound Hfid]. apply Nat.eqb_eq in Hfid.
      exists (with_rank newRank found). split; [reflexivity|].
      split; [|split; [exact Hfid|reflexivity]].
      apply in_map_iff. exists found. split; [|exact Hfound].
      rewrite <- Hfid, Nat.eqb_refl. reflexivity.
    + pose proof (find_none _ _ Hfind row Hin) as Hn.
      apply Nat.eqb_neq in Hn. contradiction.
  - intros Hnone. split.
    + rewrite <- (map_id (linked_accounts w)) at 2.
      apply map_ext_in. intros row Hin.
      pose proof (Hnone row Hin) as Hn. apply Nat.eqb_neq in Hn.
      now rewrite Hn.
    + destruct (List.find _ _) as [found|] eqn:Hfind; [|reflexivity].
      apply find_some in Hfind as [Hfound Hfid]. apply Nat.eqb_eq in Hfid.
      exfalso. exact (Hnone found Hfound Hfid).
Qed.

(** The test for an account linked by another user changes nothing and
    answers [true] exactly when the operator of the store matches the
    username of a verified row of the guild, whose owner is not the
    given user, against the given username. *)
Lemma isAccountLinkedByOther_spec
    (ilike : string -> string -> bool) guildId username excludeUserId w :
  exists answer,
    isAccountLinkedByOther ilike guildId username excludeUserId w
    = (w, inr answer)
    /\ (answer = true <->
        exists row,
          In row (linked_accounts w)
          /\ LinkedAccounts.guild_id row = guildId
          /\ ilike (LinkedAccounts.username row) username = true
          /\ LinkedAccounts.verified row = true
          /\ LinkedAccounts.discord_user_id row <> excludeUserId).
Proof.
  eexists.
  split; [unfold isAccountLinkedByOther, bind, gets, ret; reflexivity|].
  cbv zeta. set (selected := fun row : LinkedAccounts.t => _).
  assert (Hsel : forall row,
            selected row = true <->
            LinkedAccounts.guild_id row = guildId
            /\ ilike (LinkedAccounts.username row) username = true
            /\ LinkedAccounts.verified row = true
            /\ LinkedAccounts.discord_user_id row <> excludeUserId).
  { intros row. subst selected. cbv beta.
    rewrite !andb_true_iff, negb_true_iff, String.eqb_eq, String.eqb_neq.
    tauto. }
  destruct (List.filter selected (linked_accounts w)) as [|first rest] eqn:Hf.
  - cbn. split; [discriminate|]. intros (row & Hin & Hrow).
    assert (H : In row (List.filter selected (linked_accounts w)))
      by (apply filter_In; split; [exact Hin|now apply Hsel]).
    rewrite Hf in H. destruct H.
  - cbn. split; [intros _|reflexivity].
    assert (H : In first (List.filter selected (linked_accounts w)))
      by (rewrite Hf; now left).
    apply filter_In in H as [Hin Hs]. exists first. split; [exact Hin|].
    now apply Hsel.
Qed.

End Accounts.

(** ** The configuration of a guild *)

Section Configuration.

Import Supabase Spec.

Lemma setVerifiedRole_run guildId roleId w :
  setVerifiedRole guildId roleId w =
  (set_guild_config
     (<[guildId :=
          GuildConfig.mk guildId (Some roleId)
            (match guild_config w !! guildId with
             | Some row => GuildConfig.rank_role_map row
             | None => Some ∅
             end)]> (guild_config w)) w,
   inr tt).
Proof. reflexivity. Qed.

Lemma setRankRole_run guildId rank roleId w :
  setRankRole guildId rank roleId w =
  (set_guild_config
     (<[guildId :=
          GuildConfig.mk guildId
            (match guild_config w !! guildId with
             | Some row => GuildConfig.verified_role_id row
             | None => None
             end)
            (Some (<[Js.toLowerCase rank := roleId]>
                     (match guild_config w !! guildId with
                      | Some row => default ∅ (GuildConfig.rank_role_map row)
                      | None => ∅
                      end)))]> (guild_config w)) w,
   inr tt).
Proof. reflexivity. Qed.

(** X11.  Mapping a rank to a role writes the row of the guild: the
    configuration read back maps the lower-cased rank to the role, maps
    every other rank as before (to nothing, when the guild had no row or
    no map), and has the verified role it had.  The rows of the other
    guilds are as before. *)
Theorem rank_role_is_stored_under_the_lower_case_rank guildId rank roleId w :
  let before : gmap string string :=
    match guild_config w !! guildId with
    | Some row => default ∅ (GuildConfig.rank_role_map row)
    | None => ∅
    end in
  exists w' config rankRoleMap,
    setRankRole guildId rank roleId w = (w', inr tt)
    /\ getGuildConfig guildId w' = (w', inr (Some config))
    /\ GuildConfig.rank_role_map config = Some rankRoleMap
    /\ rankRoleMap !! Js.toLowerCase rank = Some roleId
    /\ (forall other,
          other <> Js.toLowerCase rank ->
          rankRoleMap !! other = before !! other)
    /\ GuildConfig.verified_role_id config
       = (guild_config w !! guildId) ≫= GuildConfig.verified_role_id
    /\ (forall other,
          other <> guildId ->
          guild_config w' !! other = guild_config w !! other)
    /\ guilds w' = guilds w
    /\ member_roles w' = member_roles w.
Proof.
  intros before. rewrite setRankRole_run. fold before.
  eexists _, _, _. split; [reflexivity|].
  unfold getGuildConfig, gets. cbn [set_guild_config guild_config].
  rewrite lookup_insert_eq. split; [reflexivity|].
  cbn [GuildConfig.rank_role_map GuildConfig.verified_role_id].
  split; [reflexivity|]. split; [apply lookup_insert_eq|].
  split; [intros other Hother; now apply lookup_insert_ne|].
  split; [destruct (guild_config w !! guildId); reflexivity|].
  split; [intros other Hother; now apply lookup_insert_ne|].
  split; reflexivity.
Qed.

(** X12.  The writes of the configuration can be made in any order: the
    verified role and a rank role, or the roles of two ranks that differ
    beyond their case, leave the same world either way.  Of two writes
    for ranks that differ by case only, the second is the one that
    stays. *)
Theorem configuration_writes_commute guildId roleId rank rankRoleId w :
  fst ((setVerifiedRole guildId roleId >> setRankRole guildId rank rankRoleId) w)
  = fst ((setRankRole guildId rank rankRoleId >> setVerifiedRole guildId roleId) w)
  /\ (forall rank' roleId',
        Js.toLowerCase rank' <> Js.toLowerCase rank ->
        fst ((setRankRole guildId rank rankRoleId
              >> setRankRole guildId rank' roleId') w)
        = fst ((setRankRole guildId rank' roleId'
                >> setRankRole guildId rank rankRoleId) w))
  /\ (forall rank' roleId',
        Js.toLowerCase rank' = Js.toLowerCase rank ->
        fst ((setRankRole guildId rank rankRoleId
              >> setRankRole guildId rank' roleId') w)
        = fst (setRankRole guildId rank' roleId' w)).
Proof.
  assert (Hseq : forall (m k : M unit) w0 w1,
            m w0 = (w1, inr tt) -> fst ((m >> k) w0) = fst (k w1)).
  { intros m k w0 w1 H. unfold bind. now rewrite H. }
  split; [|split].
  - rewrite (Hseq _ _ _ _ (setVerifiedRole_run _ _ _)),
      (Hseq _ _ _ _ (setRankRole_run _ _ _ _)).
    rewrite setVerifiedRole_run, setRankRole_run. cbn [fst].
    unfold set_guild_config. cbn.
    rewrite !lookup_insert_eq, !insert_insert_eq.
    cbn [GuildConfig.rank_role_map GuildConfig.verified_role_id].
    destruct (guild_config w !! guildId) as [row|]; reflexivity.
  - intros rank' roleId' Hne.
    rewrite !(Hseq _ _ _ _ (setRankRole_run _ _ _ _)).
    rewrite !setRankRole_run. cbn [fst].
    unfold set_guild_config. cbn.
    rewrite !lookup_insert_eq, !insert_insert_eq.
    cbn [GuildConfig.rank_role_map GuildConfig.verified_role_id default].
    do 4 f_equal. now apply insert_insert_ne.
  - intros rank' roleId' Heq.
    rewrite !(Hseq _ _ _ _ (setRankRole_run _ _ _ _)).
    rewrite !setRankRole_run. cbn [fst].
    unfold set_guild_config. cbn.
    rewrite !lookup_insert_eq, !insert_insert_eq.
    cbn [GuildConfig.rank_role_map GuildConfig.verified_role_id default].
    unfold id. rewrite Heq, insert_insert_eq. reflexivity.
Qed.

End Configuration.

(** ** The roles that are granted *)

Section Grants.

Local Set Warnings "-clear-no-such-hyp".

Import RoleManager Spec.

Variable env : Env.

Lemma roles_held_other w member roles n other :
  other <> (GuildMember.guild member, GuildMember.user member) ->
  member_roles
    (set_member_roles
       (<[(GuildMember.guild member, GuildMember.user member) := roles]>
          (member_roles w))
       (set_steps n w)) !! other
  = member_roles w !! other.
Proof. intros H. simpl. now rewrite lookup_insert_ne. Qed.

(** X13.  The assignment of the verified role never throws.  When it
    answers [true], the guild has a verified role configured that is a
    role of the guild of the member, and the member holds it: the roles
    held are those held before and this one.  The Discord API is called
    only when the member did not hold the role yet.  When it answers
    [false], no role has changed.  It answers [true] whenever such a
    role is configured and the member holds it already or the API
    accepts to add it.  The roles of the other members are never
    touched. *)
Theorem verified_role_is_added_and_no_role_is_removed member guildId w :
  exists w' assigned,
    assignVerifiedRole env member guildId w = (w', inr assigned)
    /\ (assigned = true ->
        exists config roleId roles,
          guild_config w !! guildId = Some config
          /\ GuildConfig.verified_role_id config = Some roleId
          /\ guilds w !! GuildMember.guild member = Some roles
          /\ roleId ∈ roles
          /\ roles_held w' member = {[roleId]} ∪ roles_held w member
          /\ steps w'
             = (steps w
                + (if decide (roleId ∈ roles_held w member) then 0 else 1))%nat)
    /\ (assigned = false -> member_roles w' = member_roles w)
    /\ (forall config roleId roles,
          guild_config w !! guildId = Some config ->
          GuildConfig.verified_role_id config = Some roleId ->
          Js.truthy roleId = true ->
          guilds w !! GuildMember.guild member = Some roles ->
          roleId ∈ roles ->
          roleId ∈ roles_held w member
          \/ roles_add_fault env (steps w) member roleId = None ->
          assigned = true)
    /\ (forall other,
          other <> (GuildMember.guild member, GuildMember.user member) ->
          member_roles w' !! other = member_roles w !! other).
Proof.
  unfold assignVerifiedRole, Supabase.getGuildConfig, Discord.guild_role,
    Discord.roles_cache, try_catch, bind, gets, ret.
  cbv beta iota.
  assert (Hrefused : forall run : World * (Js.thrown + bool),
            run = (w, inr false) ->
            (forall c r rs,
               guild_config w !! guildId = Some c ->
               GuildConfig.verified_role_id c = Some r ->
               Js.truthy r = true ->
               guilds w !! GuildMember.guild member = Some rs ->
               r ∈ rs -> False) ->
            exists w' assigned,
              run = (w', inr assigned)
              /\ (assigned = true ->
                  exists config roleId roles,
                    guild_config w !! guildId = Some config
                    /\ GuildConfig.verified_role_id config = Some roleId
                    /\ guilds w !! GuildMember.guild member = Some roles
                    /\ roleId ∈ roles
                    /\ roles_held w' member = {[roleId]} ∪ roles_held w member
                    /\ steps w'
                       = (steps w
                          + (if decide (roleId ∈ roles_held w member)
                             then 0 else 1))%nat)
              /\ (assigned = false -> member_roles w' = member_roles w)
              /\ (forall config roleId roles,
                    guild_config w !! guildId = Some config ->
                    GuildConfig.verified_role_id config = Some roleId ->
                    Js.truthy roleId = true ->
                    guilds w !! GuildMember.guild member = Some roles ->
                    roleId ∈ roles ->
                    roleId ∈ roles_held w member
                    \/ roles_add_fault env (steps w) member roleId = None ->
                    assigned = true)
              /\ (forall other,
                    other <> (GuildMember.guild member, GuildMember.user member) ->
                    member_roles w' !! other = member_roles w !! other)).
  { intros run -> Hno. exists w, false. split; [reflexivity|].
    split; [discriminate|]. split; [reflexivity|]. split; [|reflexivity].
    intros c r rs Hc Hr Ht Hg Hi _. exfalso. exact (Hno c r rs Hc Hr Ht Hg Hi). }
  destruct (guild_config w !! guildId) as [config|] eqn:Hconfig.
  2:{ apply Hrefused; [reflexivity|]. intros c r rs [=]. }
  destruct (GuildConfig.verified_role_id config) as [roleId|] eqn:Hrole.
  2:{ apply Hrefused; [reflexivity|]. intros c r rs [= <-]. congruence. }
  destruct (Js.truthy roleId) eqn:Htruthy; cbn [negb].
  2:{ apply Hrefused; [reflexivity|]. intros c r rs [= <-] Hr. congruence. }
  destruct (guilds w !! GuildMember.guild member) as [roles|] eqn:Hguild.
  2:{ apply Hrefused; [reflexivity|]. intros c r rs _ _ _ [=]. }
  destruct (decide (roleId ∈ roles)) as [Hin|Hout].
  2:{ apply Hrefused; [reflexivity|].
      intros c r rs [= <-] Hr _ [= <-] Hrs. congruence. }
  clear Hrefused.
  fold (roles_held w member).
  destruct (decide (roleId ∈ roles_held w member)) as [Hheld|Hnot].
  { exists w, true. split; [reflexivity|]. split; [|split; [discriminate|auto]].
    intros _. exists config, roleId, roles.
    destruct (decide (roleId ∈ roles_held w member)); [|contradiction].
    repeat split; auto; try lia. set_solver. }
  rewrite roles_add_run.
  destruct (roles_add_fault env (steps w) member roleId) as [e|] eqn:Hfault.
  - eexists _, false. split; [reflexivity|].
    split; [discriminate|]. split; [reflexivity|]. split; [|reflexivity].
    intros c r rs [= <-] Hr _ [= <-] _ [Hh|Hf]; congruence.
  - eexists _, true. split; [reflexivity|].
    split; [|split; [discriminate|split; [reflexivity|]]].
    + intros _. exists config, roleId, roles.
      rewrite roles_held_set_roles.
      destruct (decide (roleId ∈ roles_held w member)); [contradiction|].
      repeat split; auto. simpl. lia.
    + intros other Hother. now apply roles_held_other.
Qed.

(** When the rank is mapped to a role of the guild and the Discord API
    raises no fault, the assignment answers [true] and the member holds
    the role. *)
Lemma assignRankRole_grants member guildId rank w config rankRoleMap roleId roles :
  Js.truthy rank = true ->
  guild_config w !! guildId = Some config ->
  GuildConfig.rank_role_map config = Some rankRoleMap ->
  rankRoleMap !! Js.toLowerCase rank = Some roleId ->
  Js.truthy roleId = true ->
  guilds w !! GuildMember.guild member = Some roles ->
  roleId ∈ roles ->
  (forall n m rs, roles_remove_fault env n m rs = None) ->
  (forall n m r, roles_add_fault env n m r = None) ->
  exists w',
    assignRankRole env member guildId rank w = (w', inr true)
    /\ roleId ∈ roles_held w' member.
Proof.
  intros Hrank Hconfig Hmap Hrole Htruthy Hguild Hin Hremove Hadd.
  unfold assignRankRole, try_catch, bind, Supabase.getGuildConfig, gets,
    Discord.guild_role, Discord.roles_cache, ret.
  rewrite Hrank. simpl. rewrite Hconfig, Hmap, Hrole, Htruthy. simpl.
  rewrite Hguild. destruct (decide (roleId ∈ roles)); [|contradiction].
  destruct (0 <? size _)%nat.
  - rewrite roles_remove_run, Hremove.
    destruct (decide (roleId ∈ _)) as [Hheld|Hnot].
    + eexists. split; [reflexivity|]. exact Hheld.
    + rewrite roles_add_run, Hadd. eexists. split; [reflexivity|].
      rewrite roles_held_set_roles. set_solver.
  - destruct (decide (roleId ∈ _)) as [Hheld|Hnot].
    + eexists. split; [reflexivity|]. exact Hheld.
    + rewrite roles_add_run, Hadd. eexists. split; [reflexivity|].
      rewrite roles_held_set_roles. set_solver.
Qed.

(** X14.  When the assignment of a rank role answers [false], the
    member has gained no role.  A role that the member has lost is
    another role of the rank-role map of the guild, removed to make
    room for the role of the rank, which the member did not hold and
    still does not.  The roles of the other members are not touched. *)
Theorem failed_rank_assignment_grants_no_role member guildId rank w w' :
  assignRankRole env member guildId rank w = (w', inr false) ->
  (roles_held w' member ⊆ roles_held w member)
  /\ (forall r,
        r ∈ roles_held w member -> r ∉ roles_held w' member ->
        exists config rankRoleMap roleId,
          guild_config w !! guildId = Some config
          /\ GuildConfig.rank_role_map config = Some rankRoleMap
          /\ rankRoleMap !! Js.toLowerCase rank = Some roleId
          /\ r ∈ Object_values rankRoleMap
          /\ r <> roleId
          /\ (roleId ∉ roles_held w member)
          /\ (roleId ∉ roles_held w' member))
  /\ (forall other,
        other <> (GuildMember.guild member, GuildMember.user member) ->
        member_roles w' !! other = member_roles w !! other).
Proof.
  unfold assignRankRole, try_catch, bind, Supabase.getGuildConfig, gets,
    Discord.guild_role, Discord.roles_cache, ret.
  assert (Hsame : forall w0, w = w0 ->
            (roles_held w0 member ⊆ roles_held w member)
            /\ (forall r,
                  r ∈ roles_held w member -> r ∉ roles_held w0 member ->
                  exists config rankRoleMap roleId,
                    guild_config w !! guildId = Some config
                    /\ GuildConfig.rank_role_map config = Some rankRoleMap
                    /\ rankRoleMap !! Js.toLowerCase rank = Some roleId
                    /\ r ∈ Object_values rankRoleMap
                    /\ r <> roleId
                    /\ (roleId ∉ roles_held w member)
                    /\ (roleId ∉ roles_held w0 member))
            /\ (forall other,
                  other <> (GuildMember.guild member, GuildMember.user member) ->
                  member_roles w0 !! other = member_roles w !! other)).
  { intros w0 <-. split; [reflexivity|]. split; [|reflexivity].
    intros r Hr Hn. contradiction. }
  destruct (Js.truthy rank); simpl; [|intros [= <-]; now apply Hsame].
  destruct (guild_config w !! guildId) as [config|] eqn:Hconfig;
    [|intros [= <-]; now apply Hsame].
  destruct (GuildConfig.rank_role_map config) as [rankRoleMap|] eqn:Hmap;
    [|intros [= <-]; now apply Hsame].
  destruct (rankRoleMap !! Js.toLowerCase rank) as [roleId|] eqn:Hrole;
    [|intros [= <-]; now apply Hsame].
  destruct (Js.truthy roleId); simpl; [|intros [= <-]; now apply Hsame].
  destruct (guilds w !! GuildMember.guild member) as [roles|] eqn:Hguild;
    [|intros [= <-]; now apply Hsame].
  destruct (decide (roleId ∈ roles)) as [Hin|];
    [|intros [= <-]; now apply Hsame].
  fold (roles_held w member).
  fold (other_rank_roles rankRoleMap roleId (roles_held w member)).
  set (before := roles_held w member).
  set (others := other_rank_roles rankRoleMap roleId before).
  assert (Hothers : forall r,
            r ∈ others <-> r ∈ before /\ r ∈ Object_values rankRoleMap /\ r ≠ roleId)
    by (intros r; apply other_rank_roles_spec).
  destruct (0 <? size others)%nat eqn:Hsize.
  - rewrite roles_remove_run.
    destruct (roles_remove_fault env (steps w) member others).
    { intros [= <-]. split; [reflexivity|]. split; [|reflexivity].
      intros r Hr Hn. contradiction. }
    fold (roles_held
            (set_member_roles
               (<[(GuildMember.guild member, GuildMember.user member) :=
                    roles_held w member ∖ others]> (member_roles w))
               (set_steps (S (steps w)) w)) member).
    rewrite roles_held_set_roles. fold before.
    destruct (decide (roleId ∈ before ∖ others)) as [Hheld|Hnot];
      [discriminate|].
    rewrite roles_add_run. cbn [steps set_steps set_member_roles].
    destruct (roles_add_fault env (S (steps w)) member roleId);
      [|discriminate].
    intros [= <-]. cbn [set_steps].
    assert (Hafter :
      roles_held
        (set_steps (S (S (steps w)))
           (set_member_roles
              (<[(GuildMember.guild member, GuildMember.user member) :=
                   before ∖ others]> (member_roles w))
              (set_steps (S (steps w)) w))) member
      = before ∖ others).
    { unfold roles_held. simpl. now rewrite lookup_insert_eq. }
    rewrite Hafter.
    assert (Hnb : roleId ∉ before).
    { intros Hb. apply Hnot. apply elem_of_difference. split; [exact Hb|].
      rewrite Hothers. tauto. }
    split; [set_solver|]. split.
    + intros r Hr Hn. exists config, rankRoleMap, roleId.
      assert (Ho : r ∈ others).
      { destruct (decide (r ∈ others)) as [|Hno]; [assumption|].
        exfalso. apply Hn. now apply elem_of_difference. }
      apply Hothers in Ho as (_ & Hv & Hne).
      repeat split; auto; set_solver.
    + intros other Hother. simpl. now rewrite lookup_insert_ne.
  - change (default ∅ (member_roles w !! _)) with before.
    destruct (decide (roleId ∈ before)) as [Hheld|Hnot]; [discriminate|].
    rewrite roles_add_run.
    destruct (roles_add_fault env (steps w) member roleId); [|discriminate].
    intros [= <-]. split; [reflexivity|]. split; [|reflexivity].
    intros r Hr Hn. contradiction.
Qed.

End Grants.

(** ** The /setup command *)

Section SetupCommand.

Import Setup Spec.

Lemma lower_upper_char c : Js.lower_char (Js.upper_char c) = Js.lower_char c.
Proof.
  unfold Js.upper_char. destruct (Js.is_lower c) eqn:El; [|reflexivity].
  apply is_lower_bounds in El.
  apply nat_of_ascii_inj. unfold Js.lower_char, Js.is_upper.
  rewrite nat_ascii_embedding by lia.
  replace ((65 <=? nat_of_ascii c - 32)%nat && (nat_of_ascii c - 32 <=? 90)%nat)
    with true
    by (symmetry; apply andb_true_iff; rewrite !Nat.leb_le; lia).
  replace ((65 <=? nat_of_ascii c)%nat && (nat_of_ascii c <=? 90)%nat)
    with false
    by (symmetry; apply andb_false_iff; rewrite !Nat.leb_gt; lia).
  rewrite nat_ascii_embedding by lia. lia.
Qed.

Lemma toLowerCase_capitalize word :
  Js.toLowerCase (capitalize word) = Js.toLowerCase word.
Proof.
  destruct word as [|c word]; [reflexivity|].
  cbn [capitalize Js.toLowerCase]. now rewrite lower_upper_char.
Qed.

Lemma length_capitalize word :
  String.length (capitalize word) = String.length word.
Proof. destruct word; reflexivity. Qed.

Lemma toLowerCase_append s t :
  Js.toLowerCase (s +:+ t) = Js.toLowerCase s +:+ Js.toLowerCase t.
Proof.
  induction s as [|c s IH]; [reflexivity|].
  rewrite append_cons. cbn [Js.toLowerCase]. rewrite append_cons.
  now rewrite IH.
Qed.

Lemma length_append s t :
  String.length (s +:+ t) = (String.length s + String.length t)%nat.
Proof.
  induction s as [|c s IH]; [reflexivity|].
  rewrite append_cons. cbn [String.length]. now rewrite IH.
Qed.

Lemma concat_cons sep x y l :
  String.concat sep (x :: y :: l) = x +:+ sep +:+ String.concat sep (y :: l).
Proof. reflexivity. Qed.

Lemma split_not_nil s : split s <> [].
Proof.
  destruct s as [|c s]; [discriminate|]. cbn [split].
  destruct (Ascii.eqb c " "); [discriminate|].
  destruct (split s); discriminate.
Qed.

(** Joining what [split] returns gives the string back. *)
Lemma concat_split s : String.concat " " (split s) = s.
Proof.
  induction s as [|c s IH]; [reflexivity|]. cbn [split].
  destruct (Ascii.eqb c " ") eqn:E.
  - apply Ascii.eqb_eq in E. subst c.
    pose proof (split_not_nil s) as Hne.
    destruct (split s) as [|word words]; [contradiction|].
    rewrite concat_cons, IH. reflexivity.
  - pose proof (split_not_nil s) as Hne.
    destruct (split s) as [|word words]; [contradiction|].
    destruct words as [|word' words].
    + cbn [String.concat] in *. now rewrite IH.
    + rewrite concat_cons in *. rewrite append_cons. now rewrite IH.
Qed.

Lemma concat_map_capitalize words :
  Js.toLowerCase (String.concat " " (map capitalize words))
  = Js.toLowerCase (String.concat " " words)
  /\ String.length (String.concat " " (map capitalize words))
     = String.length (String.concat " " words).
Proof.
  induction words as [|word words [IHl IHn]]; [split; reflexivity|].
  destruct words as [|word' words].
  - cbn [map String.concat].
    split; [apply toLowerCase_capitalize|apply length_capitalize].
  - cbn [map] in *. rewrite !concat_cons. split.
    + rewrite !toLowerCase_append, toLowerCase_capitalize. now rewrite IHl.
    + rewrite !length_append, length_capitalize. now rewrite IHn.
Qed.

(** The rank that /setup shows differs from the rank it was given
    by the case of letters only: lower-cased, the two are the same
    string, so the rank shown names the key under which the role is
    stored.  Splitting a rank at its spaces and joining the words gives
    the rank back. *)
Theorem displayed_rank_differs_by_case_only rank :
  Js.toLowerCase (displayRank rank) = Js.toLowerCase rank
  /\ String.length (displayRank rank) = String.length rank
  /\ String.concat " " (split rank) = rank.
Proof.
  unfold displayRank.
  destruct (concat_map_capitalize (split rank)) as [Hl Hn].
  rewrite Hl, Hn, concat_split. auto.
Qed.

Lemma handleVerifiedRole_run role guildId me w :
  (forall g,
     setup_allowed role guildId me w g ->
     handleVerifiedRole role guildId me w
     = (fst (Supabase.setVerifiedRole g (id role) w),
        inr (VerifiedRoleSet role)))
  /\ ((forall g, ~ setup_allowed role guildId me w g) ->
      fst (handleVerifiedRole role guildId me w) = w
      /\ snd (handleVerifiedRole role guildId me w)
         <> inr (VerifiedRoleSet role)).
Proof.
  unfold setup_allowed, handleVerifiedRole, bind, gets, ret. cbv beta iota.
  split.
  - intros g (-> & Ht & [roles Hr] & highest & -> & Hlt).
    rewrite Ht. cbn [negb]. cbv beta iota. rewrite Hr.
    apply Z.leb_gt in Hlt. now rewrite Hlt.
  - intros Hno. destruct guildId as [g|]; [|split; [reflexivity|discriminate]].
    destruct (Js.truthy g) eqn:Ht; cbn [negb];
      [|split; [reflexivity|discriminate]].
    destruct (guilds w !! g) as [roles|] eqn:Hg;
      [|split; [reflexivity|discriminate]].
    destruct me as [highest|]; [|split; [reflexivity|discriminate]].
    destruct (highest <=? position role) eqn:Hle;
      [split; [reflexivity|discriminate]|].
    exfalso. apply (Hno g). apply Z.leb_gt in Hle.
    repeat split; eauto.
Qed.

Lemma handleRankRole_run rank role guildId me w :
  (forall g,
     setup_allowed role guildId me w g ->
     handleRankRole rank role guildId me w
     = (fst (Supabase.setRankRole g rank (id role) w),
        inr (RankRoleSet (displayRank rank) role)))
  /\ ((forall g, ~ setup_allowed role guildId me w g) ->
      fst (handleRankRole rank role guildId me w) = w
      /\ snd (handleRankRole rank role guildId me w)
         <> inr (RankRoleSet (displayRank rank) role)).
Proof.
  unfold setup_allowed, handleRankRole, Supabase.setRankRole,
    Supabase.getGuildConfig, bind, gets, ret.
  cbv beta iota. split.
  - intros g (-> & Ht & [roles Hr] & highest & -> & Hlt).
    rewrite Ht. cbn [negb]. cbv beta iota. rewrite Hr.
    apply Z.leb_gt in Hlt. now rewrite Hlt.
  - intros Hno. destruct guildId as [g|]; [|split; [reflexivity|discriminate]].
    destruct (Js.truthy g) eqn:Ht; cbn [negb];
      [|split; [reflexivity|discriminate]].
    destruct (guilds w !! g) as [roles|] eqn:Hg;
      [|split; [reflexivity|discriminate]].
    destruct me as [highest|]; [|split; [reflexivity|discriminate]].
    destruct (highest <=? position role) eqn:Hle;
      [split; [reflexivity|discriminate]|].
    exfalso. apply (Hno g). apply Z.leb_gt in Hle.
    repeat split; eauto.
Qed.

(** X15.  The two writing subcommands of /setup write exactly when the
    command is used in a guild that the client has cached, the member
    of the bot is known there, and the role lies strictly below the
    highest role of the bot: they then leave the world that the write of
    the store leaves and report the role.  In every other case they
    report something else and leave the world as it is, so that a role
    at or above the highest role of the bot is never stored. *)
Theorem setup_writes_only_a_role_below_the_highest_role_of_the_bot
    rank role guildId me w :
  (forall g,
     setup_allowed role guildId me w g ->
     handleVerifiedRole role guildId me w
     = (fst (Supabase.setVerifiedRole g (id role) w),
        inr (VerifiedRoleSet role))
     /\ handleRankRole rank role guildId me w
        = (fst (Supabase.setRankRole g rank (id role) w),
           inr (RankRoleSet (displayRank rank) role)))
  /\ ((forall g, ~ setup_allowed role guildId me w g) ->
      fst (handleVerifiedRole role guildId me w) = w
      /\ snd (handleVerifiedRole role guildId me w)
         <> inr (VerifiedRoleSet role)
      /\ fst (handleRankRole rank role guildId me w) = w
      /\ snd (handleRankRole rank role guildId me w)
         <> inr (RankRoleSet (displayRank rank) role)).
Proof.
  destruct (handleVerifiedRole_run role guildId me w) as [Hv Hv'].
  destruct (handleRankRole_run rank role guildId me w) as [Hr Hr'].
  split.
  - intros g Hg. split; [now apply Hv|now apply Hr].
  - intros Hno. destruct (Hv' Hno) as [? ?]. destruct (Hr' Hno) as [? ?].
    auto.
Qed.

(** X16.  Once /setup has reported that a rank is mapped to a role, the
    assignment of the rank role answers [true] for every member of that
    guild and every spelling of the rank that differs by case only, and
    leaves the member with the role, provided the role is a role of the
    guild and the Discord API raises no fault. *)
Theorem rank_role_set_up_is_the_role_assigned
    env rank role guildId me member rank' w :
  let setup := handleRankRole rank role (Some guildId) me w in
  snd setup = inr (RankRoleSet (displayRank rank) role) ->
  GuildMember.guild member = guildId ->
  Js.toLowerCase rank' = Js.toLowerCase rank ->
  Js.truthy rank' = true ->
  Js.truthy (id role) = true ->
  (exists roles, guilds w !! guildId = Some roles /\ id role ∈ roles) ->
  (forall n m rs, roles_remove_fault env n m rs = None) ->
  (forall n m r, roles_add_fault env n m r = None) ->
  exists w',
    RoleManager.assignRankRole env member guildId rank' (fst setup)
    = (w', inr true)
    /\ id role ∈ roles_held w' member.
Proof.
  intros setup Hreply Hmember Hcase Hrank Hrole (roles & Hguild & Hin)
    Hremove Hadd.
  destruct (handleRankRole_run rank role (Some guildId) me w) as [Hyes Hno].
  assert (Hallowed : setup_allowed role (Some guildId) me w guildId).
  { destruct (Js.truthy guildId) eqn:Ht.
    2:{ exfalso. apply Hno; [|exact Hreply].
        intros g ([= <-] & Hg & _). congruence. }
    destruct me as [highest|].
    2:{ exfalso. apply Hno; [|exact Hreply].
        intros g (_ & _ & _ & h & [=] & _). }
    destruct (Z.ltb_spec (position role) highest) as [Hlt|Hge].
    - unfold setup_allowed. repeat split; eauto.
    - exfalso. apply Hno; [|exact Hreply].
      intros g (_ & _ & _ & h & [= <-] & Hlt). lia. }
  subst setup. rewrite (Hyes guildId Hallowed). cbn [fst].
  rewrite setRankRole_run. cbn [fst].
  eapply (assignRankRole_grants env member guildId rank');
    try eassumption.
  - cbn [set_guild_config guild_config]. apply lookup_insert_eq.
  - reflexivity.
  - rewrite Hcase. apply lookup_insert_eq.
  - cbn [set_guild_config guilds]. rewrite Hmember. exact Hguild.
Qed.

End SetupCommand.

(** ** The ids of problems *)

Section ProblemIdFormat.

Import Verify Spec.

Lemma span_digits_spec s digits rest :
  span_digits s = (digits, rest) ->
  s = digits +:+ rest
  /\ all_digits digits = true
  /\ match rest with
     | EmptyString => True
     | String c _ => is_digit c = false
     end.
Proof.
  revert digits rest. induction s as [|c s IH]; intros digits rest.
  - intros [= <- <-]. auto.
  - cbn [span_digits]. destruct (is_digit c) eqn:Hc.
    + destruct (span_digits s) as [ds r] eqn:Hs. intros [= <- <-].
      destruct (IH ds r eq_refl) as (-> & Hds & Hr).
      rewrite append_cons. cbn [all_digits]. rewrite Hc. auto.
    + intros [= <- <-]. rewrite append_nil_l. cbn [all_digits]. auto.
Qed.

Lemma span_digits_app digits c rest :
  all_digits digits = true -> is_digit c = false ->
  span_digits (digits +:+ String c rest) = (digits, String c rest).
Proof.
  intros Hds Hc. induction digits as [|d digits IH].
  - rewrite append_nil_l. cbn [span_digits]. now rewrite Hc.
  - cbn [all_digits] in Hds. apply andb_true_iff in Hds as [Hd Hds].
    rewrite append_cons. cbn [span_digits]. rewrite Hd, (IH Hds).
    reflexivity.
Qed.

(** X17.  The id of a problem is accepted exactly when it is one or
    more digits, then a letter, then digits only, up to its end; the
    index returned is what follows the leading digits, in upper case,
    and the contest id is the number that the leading digits spell when
    that number is a safe integer.  Any other id is refused with the
    error that quotes it.  The world is not touched. *)
Theorem problem_id_is_digits_a_letter_and_digits problemId w :
  (forall contestId index,
     parseCodeforcesProblemId problemId w = (w, inr (contestId, index)) ->
     exists digits letter rest,
       problemId = digits +:+ String letter rest
       /\ digits <> EmptyString
       /\ all_digits digits = true
       /\ is_letter letter = true
       /\ all_digits rest = true
       /\ index = Js.toUpperCase (String letter rest)
       /\ (Js.is_safe_integer (parseInt digits) = true ->
           contestId = parseInt digits))
  /\ (forall digits letter rest,
        problemId = digits +:+ String letter rest ->
        digits <> EmptyString ->
        all_digits digits = true ->
        is_letter letter = true ->
        all_digits rest = true ->
        exists contestId,
          parseCodeforcesProblemId problemId w
          = (w, inr (contestId, Js.toUpperCase (String letter rest)))
          /\ (Js.is_safe_integer (parseInt digits) = true ->
              contestId = parseInt digits))
  /\ ((exists contestId index,
         parseCodeforcesProblemId problemId w = (w, inr (contestId, index)))
      \/ parseCodeforcesProblemId problemId w
         = (w, inl (Js.Error ("Invalid problem ID format: " +:+ problemId)))).
Proof.
  unfold parseCodeforcesProblemId, ret, throw.
  destruct (span_digits problemId) as [digits tail] eqn:Hspan.
  pose proof (span_digits_spec _ _ _ Hspan) as (Hid & Hds & Htail).
  assert (Hshape : forall ds letter rest,
            problemId = ds +:+ String letter rest ->
            all_digits ds = true -> is_letter letter = true ->
            digits = ds /\ tail = String letter rest).
  { intros ds letter rest Heq Hd Hl.
    apply letter_is_no_digit in Hl.
    rewrite Heq, span_digits_app in Hspan by assumption.
    now injection Hspan as <- <-. }
  split; [|split].
  - intros contestId index.
    destruct digits as [|d ds]; [discriminate|].
    destruct tail as [|c rest]; [discriminate|].
    destruct (is_letter c && all_digits rest) eqn:Hok; [|discriminate].
    apply andb_true_iff in Hok as [Hc Hrest].
    intros [= <- <-]. exists (String d ds), c, rest.
    repeat split; auto.
  - intros ds letter rest Heq Hne Hd Hl Hr.
    destruct (Hshape ds letter rest Heq Hd Hl) as [-> ->].
    destruct ds as [|d ds]; [contradiction|].
    rewrite Hl, Hr. eexists. split; [reflexivity|auto].
  - destruct digits as [|d ds]; [now right|].
    destruct tail as [|c rest]; [now right|].
    destruct (is_letter c && all_digits rest); [left; eauto|now right].
Qed.

End ProblemIdFormat.

(** ** The /verify command, session by session *)

Section VerifyCommand.

Import Verify Spec.

Variable env : Env.

Lemma same_store_refl w : same_store w w.
Proof. unfold same_store. auto. Qed.

Lemma same_store_trans a b c :
  same_store a b -> same_store b c -> same_store a c.
Proof. unfold same_store. intuition congruence. Qed.

Lemma same_store_and_roles_refl w : same_store_and_roles w w.
Proof. unfold same_store_and_roles. auto. Qed.

Lemma same_store_and_roles_trans a b c :
  same_store_and_roles a b -> same_store_and_roles b c ->
  same_store_and_roles a c.
Proof. unfold same_store_and_roles. intuition congruence. Qed.

(** The check of a session leaves the store and the roles alone. *)
Lemma respects_session_check pending :
  respects same_store_and_roles (session_check env pending).
Proof.
  pose proof same_store_and_roles_refl as R_refl.
  pose proof same_store_and_roles_trans as R_trans.
  assert (R_steps : forall w n, same_store_and_roles w (set_steps n w))
    by (intros; unfold same_store_and_roles; cbn; auto).
  assert (R_time : forall w t,
            same_store_and_roles w (set_lastRequestTime t w))
    by (intros; unfold same_store_and_roles; cbn; auto).
  unfold session_check, parseCodeforcesProblemId.
  apply respects_bind; [assumption|frame|intros [contestId index]].
  apply respects_bind; [assumption| |intros startedAt].
  - destruct (PendingVerification.started_at pending);
      [frame|now apply respects_Date_now].
  - now apply respects_checkCompilationErrorSubmission.
Qed.

Lemma respects_rank_lookup username :
  respects same_store_and_roles (CodeforcesService.getUserRank env username).
Proof.
  apply respects_getUserRank.
  - exact same_store_and_roles_refl.
  - exact same_store_and_roles_trans.
  - intros; unfold same_store_and_roles; cbn; auto.
  - intros; unfold same_store_and_roles; cbn; auto.
Qed.

Lemma assignVerificationRoles_total member guildId rank :
  total (RoleManager.assignVerificationRoles env member guildId rank).
Proof.
  intros w. unfold RoleManager.assignVerificationRoles, bind, try_catch, ret.
  destruct (total_run _ w (assignVerifiedRole_total env member guildId))
    as (w1 & verified & ->).
  destruct rank as [r|]; [|eauto].
  destruct (Js.truthy r); [|eauto].
  destruct (total_run _ w1 (assignRankRole_total env member guildId r))
    as (w2 & ranked & ->).
  eauto.
Qed.

(** What linking an account does to the tables. *)
Lemma createLinkedAccount_writes u g n rank w :
  exists w' data,
    Supabase.createLinkedAccount env u g n rank w = (w', inr data)
    /\ account_key data = (u, g, n)
    /\ LinkedAccounts.verified data = true
    /\ LinkedAccounts.rank data = rank
    /\ In data (linked_accounts w')
    /\ (forall row,
          In row (linked_accounts w') -> account_key row = (u, g, n) ->
          row = data)
    /\ accounts_besides (u, g, n) (linked_accounts w')
       = accounts_besides (u, g, n) (linked_accounts w)
    /\ pending_verifications w' = pending_verifications w
    /\ guild_config w' = guild_config w
    /\ member_roles w' = member_roles w.
Proof.
  rewrite createLinkedAccount_run. cbv zeta.
  destruct (List.find (Supabase.linked_key_is u g n) (linked_accounts w))
    as [old|] eqn:Hfind.
  - apply find_some in Hfind as [Hold Hkey].
    apply linked_key_is_iff in Hkey.
    eexists _, _. split; [reflexivity|].
    cbn [set_linked set_steps linked_accounts pending_verifications
         guild_config member_roles account_key
         LinkedAccounts.discord_user_id LinkedAccounts.guild_id
         LinkedAccounts.username LinkedAccounts.verified LinkedAccounts.rank].
    repeat (split; [reflexivity|]).
    split; [|split; [|split; [|auto]]].
    + apply in_map_iff. exists old. split; [|exact Hold].
      now rewrite bool_decide_eq_true_2.
    + intros row Hin Hrow. apply in_map_iff in Hin as (row0 & Heq & _).
      destruct (bool_decide (account_key row0 = (u, g, n))) eqn:E;
        [now symmetry|].
      subst row0. apply bool_decide_eq_false in E. contradiction.
    + now apply accounts_besides_replace.
  - eexists _, _. split; [reflexivity|].
    cbn [set_linked set_steps set_next_uuid linked_accounts
         pending_verifications guild_config member_roles account_key
         LinkedAccounts.discord_user_id LinkedAccounts.guild_id
         LinkedAccounts.username LinkedAccounts.verified LinkedAccounts.rank].
    repeat (split; [reflexivity|]).
    assert (Hnone : forall row,
              In row (linked_accounts w) -> account_key row <> (u, g, n)).
    { intros row Hin. apply linked_key_is_false.
      exact (find_none _ _ Hfind row Hin). }
    split; [|split; [|split; [|auto]]].
    + apply in_or_app. right. now left.
    + intros row Hin Hrow. apply in_app_or in Hin as [Hin|[<-|[]]];
        [|reflexivity].
      exfalso. exact (Hnone row Hin Hrow).
    + unfold accounts_besides. rewrite List.filter_app.
      cbn [List.filter account_key LinkedAccounts.discord_user_id
           LinkedAccounts.guild_id LinkedAccounts.username].
      rewrite bool_decide_eq_true_2 by reflexivity. cbn [negb].
      apply app_nil_r.
Qed.

(** The three steps that follow a verified check: the account is
    linked, the session deleted, the roles assigned. *)
Lemma link_and_consume userId guildId member sessionId username rank w :
  exists w' roles account,
    (Supabase.createLinkedAccount env userId guildId username rank >>
     Supabase.deletePendingVerification sessionId >>
     RoleManager.assignVerificationRoles env member guildId rank) w
    = (w', inr roles)
    /\ pending_verifications w'
       = List.filter
           (fun row => negb (Nat.eqb (PendingVerification.id row) sessionId))
           (pending_verifications w)
    /\ guild_config w' = guild_config w
    /\ In account (linked_accounts w')
    /\ account_key account = (userId, guildId, username)
    /\ LinkedAccounts.verified account = true
    /\ LinkedAccounts.rank account = rank
    /\ (forall row,
          In row (linked_accounts w') ->
          account_key row = (userId, guildId, username) ->
          row = account)
    /\ accounts_besides (userId, guildId, username) (linked_accounts w')
       = accounts_besides (userId, guildId, username) (linked_accounts w).
Proof.
  destruct (createLinkedAccount_writes userId guildId username rank w)
    as (w1 & data & Hlink & Hkey & Hverified & Hrank & Hin & Hone & Hrest
        & Hp & Hc & _).
  set (w2 := set_pending
               (List.filter
                  (fun row => negb (Nat.eqb (PendingVerification.id row) sessionId))
                  (pending_verifications w1)) w1).
  destruct (total_run _ w2 (assignVerificationRoles_total member guildId rank))
    as (w3 & roles & Hroles).
  assert (Hsame : same_store w2 w3).
  { pose proof (respects_assignVerificationRoles env same_store
                  same_store_refl same_store_trans
                  ltac:(intros; unfold same_store; cbn; auto)
                  ltac:(intros; unfold same_store; cbn; auto)
                  member guildId rank w2) as H.
    now rewrite Hroles in H. }
  destruct Hsame as (Hp3 & Hl3 & Hc3).
  exists w3, roles, data. split.
  { unfold bind. rewrite Hlink.
    change (Supabase.deletePendingVerification sessionId w1) with (w2, @inr Js.thrown unit tt).
    cbv beta iota. exact Hroles. }
  rewrite Hp3, Hl3, Hc3. subst w2.
  cbn [set_pending pending_verifications linked_accounts guild_config].
  rewrite Hp. auto 10.
Qed.

Lemma verifyPending_run userId guildId member pending w :
  verifyPending env userId guildId member pending w =
  let username := PendingVerification.username pending in
  let w1 := set_steps (S (steps w)) w in
  if PendingVerification.expires_at pending <? clock env (steps w) then
    (set_pending
       (List.filter
          (fun row => negb (Nat.eqb (PendingVerification.id row)
                                    (PendingVerification.id pending)))
          (pending_verifications w)) w1,
     inr (Failure username
            "Verification expired. Please start a new verification with `/link`."
            None None None))
  else
    match session_check env pending w1 with
    | (w2, inl e) =>
        (w2, inr (Failure username
                    ("Failed to check submissions: " +:+ Js.errorMessage e)
                    None None None))
    | (w2, inr result) =>
        if VerificationResult.verified result then
          let ranked :=
            match CodeforcesService.getUserRank env username w2 with
            | (w3, inl _) => (w3, None)
            | (w3, inr rank) => (w3, Some (Js.toLowerCase rank))
            end in
          match
            (Supabase.createLinkedAccount env userId guildId username (snd ranked) >>
             Supabase.deletePendingVerification (PendingVerification.id pending) >>
             RoleManager.assignVerificationRoles env member guildId (snd ranked))
              (fst ranked)
          with
          | (w4, inr roleResults) =>
              (w4, inr (Success username "Account verified successfully!"
                          (snd ranked) roleResults))
          | (w4, inl error) =>
              (w4, inr (Failure username
                          ("Verification successful but failed to save: "
                           +:+ Js.errorMessage error)
                          None None None))
          end
        else
          (set_steps (S (steps w2)) w2,
           inr (Failure username
                  (Js.or_else (Some (VerificationResult.message result))
                     "No valid Compilation Error submission found.")
                  (Some (PendingVerification.problem_url pending))
                  (PendingVerification.problem_name pending)
                  (match snd (Time.getRemainingTime env
                                (PendingVerification.expires_at pending) w2) with
                   | inr text => Some text
                   | inl _ => None
                   end)))
    end.
Proof.
  unfold verifyPending, session_check, Time.isExpired, Time.getRemainingTime,
    Date_now, ask, bind, try_catch, ret.
  cbv beta iota zeta.
  destruct (PendingVerification.expires_at pending <? clock env (steps w));
    [reflexivity|].
  destruct (parseCodeforcesProblemId _ _) as [w1' [e|[contestId index]]];
    [reflexivity|].
  destruct (PendingVerification.started_at pending) as [t|];
    (destruct (CodeforcesService.checkCompilationErrorSubmission _ _ _ _ _ _)
       as [w2 [e|result]]; [reflexivity|]);
    (destruct (VerificationResult.verified result) eqn:Hv; cbv beta iota;
     [ destruct (CodeforcesService.getUserRank _ _ _) as [w3 [e|rank]];
       cbv beta iota; rewrite ?Hv; cbn [fst snd];
       (destruct (Supabase.createLinkedAccount _ _ _ _ _ _)
          as [w4 [e4|data]]; [reflexivity|]);
       (destruct (Supabase.deletePendingVerification _ _)
          as [w5 [e5|[]]]; [reflexivity|]);
       destruct (RoleManager.assignVerificationRoles _ _ _ _ _)
         as [w6 [e6|roles]]; reflexivity
     | rewrite ?Hv; destruct (_ <=? 0); reflexivity ]).
Qed.


(** The world in which the steps after a verified check start: the
    check and the lookup of the rank have left the store and the roles
    alone. *)
Lemma ranked_frame username w2 :
  let ranked :=
    match CodeforcesService.getUserRank env username w2 with
    | (w3, inl _) => (w3, None)
    | (w3, inr rank) => (w3, Some (Js.toLowerCase rank))
    end in
  same_store_and_roles w2 (fst ranked).
Proof.
  cbv zeta. pose proof (respects_rank_lookup username w2) as H.
  destruct (CodeforcesService.getUserRank env username w2) as [w3 [e|rank]];
    exact H.
Qed.

(** X18.  With a store that answers every request, the evaluation of a
    pending session always returns a result, which names the username of
    the session.  The result is a success exactly when the clock is not
    past the deadline of the session and the check of the session returns
    a verified result: no account is reported as verified without it, and
    none is refused with it.  When the check throws, the result is the
    failure that quotes the message of what was thrown. *)
Theorem account_is_verified_exactly_when_the_check_verifies
    userId guildId member pending w :
  let w1 := set_steps (S (steps w)) w in
  let username := PendingVerification.username pending in
  exists w' r,
    verifyPending env userId guildId member pending w = (w', inr r)
    /\ result_username r = username
    /\ ((exists rank roles,
           r = Success username "Account verified successfully!" rank roles)
        <->
        clock env (steps w) <= PendingVerification.expires_at pending
        /\ exists w2 result,
             session_check env pending w1 = (w2, inr result)
             /\ VerificationResult.verified result = true)
    /\ (forall w2 e,
          clock env (steps w) <= PendingVerification.expires_at pending ->
          session_check env pending w1 = (w2, inl e) ->
          r = Failure username
                ("Failed to check submissions: " +:+ Js.errorMessage e)
                None None None).
Proof.
  intros w1 username. rewrite verifyPending_run. cbv zeta.
  fold w1 username.
  destruct (PendingVerification.expires_at pending <? clock env (steps w))
    eqn:Hexp.
  { apply Z.ltb_lt in Hexp. eexists _, _. split; [reflexivity|].
    split; [reflexivity|]. split; [|intros; lia].
    split; [intros (rank & roles & [=])|intros [Hle _]; lia]. }
  apply Z.ltb_ge in Hexp.
  destruct (session_check env pending w1) as [w2 [e|result]] eqn:Hcheck.
  { eexists _, _. split; [reflexivity|]. split; [reflexivity|].
    split; [|intros w2' e' _ [= _ <-]; reflexivity].
    split; [intros (rank & roles & [=])|].
    intros (_ & w2' & result & [=] & _). }
  destruct (VerificationResult.verified result) eqn:Hv.
  - destruct (link_and_consume userId guildId member
                (PendingVerification.id pending) username
                (snd (match CodeforcesService.getUserRank env username w2 with
                      | (w3, inl _) => (w3, None)
                      | (w3, inr rank) => (w3, Some (Js.toLowerCase rank))
                      end))
                (fst (match CodeforcesService.getUserRank env username w2 with
                      | (w3, inl _) => (w3, None)
                      | (w3, inr rank) => (w3, Some (Js.toLowerCase rank))
                      end)))
      as (w4 & roles & account & Hchain & _).
    rewrite Hchain.
    eexists _, _. split; [reflexivity|]. split; [reflexivity|].
    split; [|intros w2' e' _ [=]].
    split; [intros _|intros _; eauto].
    split; [exact Hexp|]. now exists w2, result.
  - eexists _, _. split; [reflexivity|]. split; [reflexivity|].
    split; [|intros w2' e' _ [=]].
    split; [intros (rank & roles & [=])|].
    intros (_ & w2' & result' & [= _ <-] & Hv'). congruence.
Qed.

(** X19.  When the evaluation of a pending session reports a success,
    the session has been deleted and the account is linked: the table
    of accounts holds one row for the user, the guild and the username
    of the session, verified and with the rank reported, which the
    lookup of the accounts of the user then returns.  The accounts of
    the other keys, the other sessions and the configuration are as
    before. *)
Theorem verified_session_is_consumed_and_its_account_linked
    userId guildId member pending w w' username message rank roles :
  verifyPending env userId guildId member pending w
  = (w', inr (Success username message rank roles)) ->
  username = PendingVerification.username pending
  /\ pending_verifications w'
     = List.filter
         (fun row => negb (Nat.eqb (PendingVerification.id row)
                                   (PendingVerification.id pending)))
         (pending_verifications w)
  /\ guild_config w' = guild_config w
  /\ exists account,
       In account (linked_accounts w')
       /\ account_key account = (userId, guildId, username)
       /\ LinkedAccounts.verified account = true
       /\ LinkedAccounts.rank account = rank
       /\ (forall row,
             In row (linked_accounts w') ->
             account_key row = (userId, guildId, username) ->
             row = account)
       /\ accounts_besides (userId, guildId, username) (linked_accounts w')
          = accounts_besides (userId, guildId, username) (linked_accounts w)
       /\ exists accounts,
            Supabase.getLinkedAccounts userId guildId w' = (w', inr accounts)
            /\ In account accounts.
Proof.
  rewrite verifyPending_run. cbv zeta.
  destruct (PendingVerification.expires_at pending <? clock env (steps w));
    [discriminate|].
  pose proof (respects_session_check pending (set_steps (S (steps w)) w))
    as Hframe.
  destruct (session_check env pending (set_steps (S (steps w)) w))
    as [w2 [e|result]]; [discriminate|].
  destruct (VerificationResult.verified result); [|discriminate].
  pose proof (ranked_frame (PendingVerification.username pending) w2)
    as Hframe'. cbv zeta in Hframe'.
  set (ranked := match CodeforcesService.getUserRank env _ w2 with
                 | (w3, inl _) => (w3, None)
                 | (w3, inr rank0) => (w3, Some (Js.toLowerCase rank0))
                 end) in *.
  destruct (link_and_consume userId guildId member
              (PendingVerification.id pending)
              (PendingVerification.username pending) (snd ranked) (fst ranked))
    as (w4 & roles' & account & Hchain & Hp & Hc & Hin & Hkey & Hver & Hrank
        & Hone & Hrest).
  rewrite Hchain. intros [= <- <- <- <- <-].
  cbn [fst] in Hframe.
  destruct Hframe as (Hp2 & Hl2 & Hc2 & _).
  destruct Hframe' as (Hp3 & Hl3 & Hc3 & _).
  cbn [set_steps pending_verifications linked_accounts guild_config] in *.
  split; [reflexivity|].
  split; [rewrite Hp, Hp3, Hp2; reflexivity|].
  split; [rewrite Hc, Hc3, Hc2; reflexivity|].
  exists account. repeat (split; [assumption|]).
  split; [rewrite Hrest, Hl3, Hl2; reflexivity|].
  eexists. split; [reflexivity|].
  apply filter_In. split; [exact Hin|].
  unfold account_key in Hkey. injection Hkey as -> -> _.
  now rewrite !String.eqb_refl, Hver.
Qed.

(** X20.  With a store that answers every request, when the evaluation of
    a pending session reports a failure, no account has been linked or
    changed, no role has been granted or removed, and the configuration
    is as before.  The session is still in the table, to be tried again,
    unless the failure is the expiry of the session, whose rows are then
    deleted. *)
Theorem failed_verification_links_nothing_and_keeps_the_session
    userId guildId member pending w w' username message url name remaining :
  verifyPending env userId guildId member pending w
  = (w', inr (Failure username message url name remaining)) ->
  username = PendingVerification.username pending
  /\ linked_accounts w' = linked_accounts w
  /\ member_roles w' = member_roles w
  /\ guild_config w' = guild_config w
  /\ (pending_verifications w' = pending_verifications w
      \/ (PendingVerification.expires_at pending < clock env (steps w)
          /\ message
             = "Verification expired. Please start a new verification with `/link`."
          /\ pending_verifications w'
             = List.filter
                 (fun row => negb (Nat.eqb (PendingVerification.id row)
                                           (PendingVerification.id pending)))
                 (pending_verifications w))).
Proof.
  rewrite verifyPending_run. cbv zeta.
  destruct (PendingVerification.expires_at pending <? clock env (steps w))
    eqn:Hexp.
  { apply Z.ltb_lt in Hexp. intros [= <- <- <- _ _ _].
    repeat (split; [reflexivity|]). right. auto. }
  pose proof (respects_session_check pending (set_steps (S (steps w)) w))
    as Hframe.
  destruct (session_check env pending (set_steps (S (steps w)) w))
    as [w2 [e|result]]; cbn [fst] in Hframe;
    destruct Hframe as (Hp2 & Hl2 & Hc2 & Hr2);
    cbn [set_steps pending_verifications linked_accounts guild_config
         member_roles] in *.
  { intros [= <- <- _ _ _ _]. auto 10. }
  destruct (VerificationResult.verified result).
  - destruct (link_and_consume userId guildId member
                (PendingVerification.id pending)
                (PendingVerification.username pending)
                (snd (match CodeforcesService.getUserRank env
                              (PendingVerification.username pending) w2 with
                      | (w3, inl _) => (w3, None)
                      | (w3, inr rank) => (w3, Some (Js.toLowerCase rank))
                      end))
                (fst (match CodeforcesService.getUserRank env
                              (PendingVerification.username pending) w2 with
                      | (w3, inl _) => (w3, None)
                      | (w3, inr rank) => (w3, Some (Js.toLowerCase rank))
                      end)))
      as (w4 & roles & account & Hchain & _).
    rewrite Hchain. discriminate.
  - intros [= <- <- _ _ _ _].
    cbn [set_steps pending_verifications linked_accounts guild_config
         member_roles]. auto 10.
Qed.

(** The evaluation of a pending session returns, with a result for the
    username of the session. *)
Lemma verifyPending_returns userId guildId member pending w :
  exists w' r,
    verifyPending env userId guildId member pending w = (w', inr r)
    /\ result_username r = PendingVerification.username pending.
Proof.
  rewrite verifyPending_run. cbv zeta.
  destruct (_ <? _); [eauto|].
  destruct (session_check env pending _) as [w2 [e|result]]; [eauto|].
  destruct (VerificationResult.verified result); [|eauto].
  destruct (link_and_consume userId guildId member
              (PendingVerification.id pending)
              (PendingVerification.username pending)
              (snd (match CodeforcesService.getUserRank env
                            (PendingVerification.username pending) w2 with
                    | (w3, inl _) => (w3, None)
                    | (w3, inr rank) => (w3, Some (Js.toLowerCase rank))
                    end))
              (fst (match CodeforcesService.getUserRank env
                            (PendingVerification.username pending) w2 with
                    | (w3, inl _) => (w3, None)
                    | (w3, inr rank) => (w3, Some (Js.toLowerCase rank))
                    end)))
    as (w4 & roles & account & Hchain & _).
  rewrite Hchain. eauto.
Qed.

Lemma results_follow_sessions userId guildId member sessions w :
  exists w' results,
    for_each (verifyPending env userId guildId member) sessions w
    = (w', inr results)
    /\ map result_username results
       = map PendingVerification.username sessions.
Proof.
  revert w. induction sessions as [|pending sessions IH]; intros w.
  - exists w, []. split; reflexivity.
  - destruct (verifyPending_returns userId guildId member pending w)
      as (w1 & r & Hrun & Hname).
    destruct (IH w1) as (w2 & results & Hrest & Hnames).
    exists w2, (r :: results). split.
    + cbn [for_each]. unfold bind. rewrite Hrun, Hrest. reflexivity.
    + cbn [map]. now rewrite Hname, Hnames.
Qed.

(** X21.  Outside of a guild, /verify answers so and does nothing.  In a
    guild, with a store that answers every request, it queries the
    pending sessions of the user once; when the query returns none it
    answers that nothing is pending, and otherwise it answers with one
    result for each session returned, in the order of the query, each
    naming the username of its session: whatever happens to one session,
    the sessions after it are evaluated. *)
Theorem every_pending_session_gets_its_own_result userId guildId w :
  (guildId = None \/ (exists g, guildId = Some g /\ Js.truthy g = false) ->
   execute env userId guildId w = (w, inr NotInGuild))
  /\ (forall g,
        guildId = Some g -> Js.truthy g = true ->
        exists w1 sessions,
          Supabase.getPendingVerifications env userId g w = (w1, inr sessions)
          /\ (sessions = [] ->
              execute env userId guildId w = (w1, inr NoPending))
          /\ (sessions <> [] ->
              exists w' results,
                execute env userId guildId w = (w', inr (Results results))
                /\ map result_username results
                   = map PendingVerification.username sessions)).
Proof.
  split.
  - intros [->|(g & -> & Ht)]; unfold execute, try_catch, ret;
      [reflexivity|now rewrite Ht].
  - intros g -> Ht.
    destruct (Supabase.getPendingVerifications env userId g w)
      as [w1 [e|sessions]] eqn:Hquery; [discriminate|].
    exists w1, sessions. split; [reflexivity|].
    unfold execute, try_catch. rewrite Ht. cbn [negb].
    unfold bind at 1. rewrite Hquery. split.
    + intros ->. reflexivity.
    + intros Hne. destruct sessions as [|first rest]; [contradiction|].
      destruct (results_follow_sessions userId g (GuildMember.mk g userId)
                  (first :: rest) w1) as (w' & results & Hrun & Hnames).
      exists w', results. split; [|exact Hnames].
      cbv beta iota zeta. unfold bind. rewrite Hquery, Hrun. reflexivity.
Qed.

(** C2.  The sessions that /verify evaluates are those of the user in
    the guild whose expiry is strictly after the time of the query, in
    the order of the table.  When the turn of one of them comes and the
    clock, read by [isExpired], is strictly past its expiry, the command
    deletes the session and reports its expiry at the place of the
    session in the results.  It does so whatever the environment holds
    as submissions: the outcome depends on the environment through this
    one reading of the clock, and no request is made.  No row of the id
    of the session is left when the command ends, nor after any further
    /verify command.  [isExpired] answers [true] exactly when the clock
    is strictly past the expiry. *)
Theorem expired_session_is_deleted_and_reported userId guildId w :
  Js.truthy guildId = true ->
  let member := GuildMember.mk guildId userId in
  exists w1 sessions w' reply,
    Supabase.getPendingVerifications env userId guildId w
    = (w1, inr sessions)
    /\ (forall row,
          In row sessions <->
          In row (pending_verifications w)
          /\ PendingVerification.discord_user_id row = userId
          /\ PendingVerification.guild_id row = guildId
          /\ clock env (steps w) < PendingVerification.expires_at row)
    /\ execute env userId (Some guildId) w = (w', inr reply)
    /\ (forall before pending after,
          sessions = before ++ pending :: after ->
          let turn :=
            fst (for_each (verifyPending env userId guildId member)
                   before w1) in
          let gone :=
            set_pending
              (without_session (PendingVerification.id pending) turn)
              (set_steps (S (steps turn)) turn) in
          PendingVerification.expires_at pending < clock env (steps turn) ->
          verifyPending env userId guildId member pending turn
          = (gone, inr (expiry_of pending))
          /\ (forall env',
                clock env' (steps turn) = clock env (steps turn) ->
                verifyPending env' userId guildId member pending turn
                = (gone, inr (expiry_of pending)))
          /\ lastRequestTime gone = lastRequestTime turn
          /\ (exists results,
                reply = Results results
                /\ length results = length sessions
                /\ results !! length before = Some (expiry_of pending))
          /\ (forall row,
                In row (pending_verifications w') ->
                PendingVerification.id row <> PendingVerification.id pending)
          /\ (forall env' commands row,
                In row (pending_verifications
                          (fst (for_each
                                  (fun command =>
                                     execute env' (fst command) (snd command))
                                  commands w'))) ->
                PendingVerification.id row <> PendingVerification.id pending))
    /\ (forall expiresAt w0,
          exists answer,
            Time.isExpired env expiresAt w0
            = (set_steps (S (steps w0)) w0, inr answer)
            /\ (answer = true <-> clock env (steps w0) > expiresAt)).
Proof.
  intros Ht member.
  destruct (Supabase.getPendingVerifications env userId guildId w)
    as [w1 [e|sessions]] eqn:Hquery; [discriminate|].
  destruct (results_follow_sessions userId guildId member sessions w1)
    as (w' & results & Hloop & Hnames).
  assert (Hexecute :
    execute env userId (Some guildId) w
    = match sessions with
      | [] => (w1, inr NoPending)
      | _ :: _ => (w', inr (Results results))
      end).
  { unfold execute, try_catch. rewrite Ht. cbn [negb].
    unfold bind at 1. rewrite Hquery.
    destruct sessions as [|first rest]; [reflexivity|].
    cbv beta iota zeta. unfold bind. fold member. rewrite Hloop.
    reflexivity. }
  exists w1, sessions,
    (match sessions with [] => w1 | _ :: _ => w' end),
    (match sessions with [] => NoPending | _ :: _ => Results results end).
  split; [reflexivity|]. split.
  { injection Hquery as _ <-. intros row.
    rewrite filter_In, !andb_true_iff, !String.eqb_eq, Z.ltb_lt. tauto. }
  split; [rewrite Hexecute; destruct sessions; reflexivity|].
  split.
  2:{ intros expiresAt w0. eexists. split; [apply isExpired_run|].
      rewrite Z.ltb_lt. lia. }
  intros before pending after Hsplit turn gone Hexpired.
  destruct (expired_session_evaluation env userId guildId member pending turn
              Hexpired)
    as (Hrun & Hany & Hlast & _ & Hgone & _).
  fold (without_session (PendingVerification.id pending) turn) in Hrun, Hany,
    Hlast, Hgone.
  fold gone in Hrun, Hany, Hlast, Hgone.
  fold (expiry_of pending) in Hrun, Hany.
  split; [exact Hrun|].
  split.
  { intros env' Hclock. rewrite (Hany env' Hclock). exact Hrun. }
  split; [exact Hlast|].
  destruct (results_follow_sessions userId guildId member before w1)
    as (turn' & reported & Hbefore & Hnb).
  assert (Hturn : turn = turn') by (subst turn; now rewrite Hbefore).
  destruct (results_follow_sessions userId guildId member after gone)
    as (w'' & rest & Hafter & _).
  assert (Hall :
    for_each (verifyPending env userId guildId member) sessions w1
    = (w'', inr (reported ++ expiry_of pending :: rest))).
  { rewrite Hsplit, for_each_app, Hbefore. cbn [for_each]. unfold bind.
    rewrite <- Hturn, Hrun, Hafter. reflexivity. }
  rewrite Hloop in Hall. injection Hall as -> ->.
  assert (Hleft : forall row,
            In row (pending_verifications w'') ->
            PendingVerification.id row <> PendingVerification.id pending).
  { intros row Hin. apply Hgone.
    assert (Hshrink :
      respects sessions_shrink
        (for_each (verifyPending env userId guildId member) after)).
    { apply respects_for_each.
      - exact sessions_shrink_refl.
      - exact sessions_shrink_trans.
      - intros session. apply verifyPending_only_removes. }
    specialize (Hshrink gone). rewrite Hafter in Hshrink.
    apply Hshrink. exact Hin. }
  assert (Hsome : sessions <> []).
  { rewrite Hsplit. intros H. symmetry in H.
    now apply app_cons_not_nil in H. }
  destruct sessions as [|first others]; [contradiction|].
  split.
  { eexists. split; [reflexivity|]. split.
    - apply (f_equal (@length _)) in Hnames.
      now rewrite !length_map in Hnames.
    - apply list_lookup_middle.
      apply (f_equal (@length _)) in Hnb.
      now rewrite !length_map in Hnb. }
  split; [exact Hleft|].
  intros env' commands row Hin. apply Hleft.
  assert (Hshrink :
    respects sessions_shrink
      (for_each (fun command => execute env' (fst command) (snd command))
         commands)).
  { apply respects_for_each.
    - exact sessions_shrink_refl.
    - exact sessions_shrink_trans.
    - intros command. apply execute_only_removes. }
  apply (Hshrink w''). exact Hin.
Qed.

End VerifyCommand.

(** ** The /link command *)

Section LinkCommand.

Import Link Spec.

Variable env : Env.
Variable ilike : string -> string -> bool.
Variable configured : option Z.

(** Moving the minutes of a date moves its local time by that many
    minutes: the deadline is that many minutes later as long as the
    offset of the local time is the same at both ends. *)
Lemma setMinutes_getMinutes tv minutes :
  Time.setMinutes env tv (Time.getMinutes env tv + minutes)
  = Time.UTC env (Time.LocalTime env tv + minutes * 60000).
Proof.
  unfold Time.setMinutes, Time.getMinutes. cbv zeta. f_equal.
  generalize (Time.LocalTime env tv). intros t.
  unfold Time.MakeDate, Time.MakeTime, Time.Day, Time.HourFromTime,
    Time.MinFromTime, Time.SecFromTime, Time.msFromTime, Time.msPerDay,
    Time.msPerHour, Time.msPerMinute, Time.msPerSecond.
  Z.div_mod_to_equations. lia.
Qed.

Lemma handleLinkCodeforces_run username userId guildId w :
  Js.truthy guildId = true ->
  handleLinkCodeforces env ilike configured username userId (Some guildId) w =
  match CodeforcesService.validateUser env username w with
  | (wa, inl e) => (wa, inl e)
  | (wa, inr false) => (wa, inr (UserNotFound username))
  | (wa, inr true) =>
      match Supabase.isAccountLinkedByOther ilike guildId username userId wa with
      | (wa', inl e) => (wa', inl e)
      | (wa', inr true) => (wa', inr (AlreadyLinked username))
      | (wa', inr false) =>
          let looked :=
            match CodeforcesService.getUserInfo env username wa' with
            | (wb, inl _) =>
                (wb, UserInfo.mk username "unknown" 0 "unknown" 0 None None)
            | (wb, inr userInfo) => (wb, userInfo)
            end in
          match RandomProblem.getRandomCodeforcesProblem env (fst looked) with
          | (wc, inl e) => (wc, inl e)
          | (wc, inr problem) =>
              let expiresAt :=
                Time.UTC env
                  (Time.LocalTime env (clock env (steps wc))
                   + Time.VERIFICATION_TIMEOUT configured * 60000) in
              let remaining :=
                match snd (Time.getRemainingTime env expiresAt
                             (set_steps (S (steps wc)) wc)) with
                | inr text => text
                | inl _ => EmptyString
                end in
              (fst (Supabase.createPendingVerification env
                      (requested_session userId guildId (snd looked) problem expiresAt)
                      (set_steps (S (S (steps wc))) wc)),
               inr (Verification
                      (mkChallenge (snd looked) problem expiresAt remaining)))
          end
      end
  end.
Proof.
  intros Ht. unfold handleLinkCodeforces. rewrite Ht. cbn [negb].
  unfold bind at 1.
  destruct (CodeforcesService.validateUser env username w)
    as [wa [e|[|]]]; [reflexivity| |reflexivity].
  cbn [negb]. unfold bind at 1.
  destruct (Supabase.isAccountLinkedByOther ilike guildId username userId wa)
    as [wa' [e|[|]]]; [reflexivity|reflexivity|].
  unfold bind at 1. unfold try_catch.
  destruct (CodeforcesService.getUserInfo env username wa')
    as [wb [e|userInfo]]; cbv beta iota zeta; cbn [fst snd];
    unfold ret at 1; cbv beta iota;
    unfold bind at 1;
    (destruct (RandomProblem.getRandomCodeforcesProblem env wb)
       as [wc [e'|problem]]; [reflexivity|]);
    unfold bind at 1;
    unfold Time.getExpirationTime at 1; unfold bind at 1;
    unfold Date_now at 1, ask at 1; cbv beta iota; unfold ret at 1;
    cbv beta iota; unfold bind at 1;
    rewrite setMinutes_getMinutes;
    rewrite getRemainingTime_run; cbv beta iota zeta; cbn [snd];
    unfold bind, requested_session;
    rewrite !createPendingVerification_run; reflexivity.
Qed.

Lemma same_store_and_roles_steps w n :
  same_store_and_roles w (set_steps n w).
Proof. unfold same_store_and_roles. cbn. auto. Qed.

Lemma respects_validateUser username :
  respects same_store_and_roles (CodeforcesService.validateUser env username).
Proof.
  pose proof same_store_and_roles_refl as R_refl.
  pose proof same_store_and_roles_trans as R_trans.
  unfold CodeforcesService.validateUser. frame.
  apply respects_makeRequest; try assumption.
  - exact same_store_and_roles_steps.
  - intros; unfold same_store_and_roles; cbn; auto.
Qed.

Lemma respects_lookup username :
  respects same_store_and_roles (CodeforcesService.getUserInfo env username).
Proof.
  apply respects_getUserInfo.
  - exact same_store_and_roles_refl.
  - exact same_store_and_roles_trans.
  - exact same_store_and_roles_steps.
  - intros; unfold same_store_and_roles; cbn; auto.
Qed.

Lemma respects_getRandomCodeforcesProblem :
  respects same_store_and_roles (RandomProblem.getRandomCodeforcesProblem env).
Proof.
  pose proof same_store_and_roles_refl as R_refl.
  pose proof same_store_and_roles_trans as R_trans.
  pose proof same_store_and_roles_steps as R_steps.
  unfold RandomProblem.getRandomCodeforcesProblem,
    RandomProblem.fetchCodeforcesProblems, RandomProblem.cache_still_valid,
    RandomProblem.refresh, RandomProblem.axios_get, Date_now.
  frame; apply respects_modify; intros; unfold same_store_and_roles; cbn; auto.
Qed.

Lemma isAccountLinkedByOther_run guildId username userId w :
  exists answer,
    Supabase.isAccountLinkedByOther ilike guildId username userId w
    = (w, inr answer).
Proof.
  unfold Supabase.isAccountLinkedByOther, bind, gets, ret.
  eexists. reflexivity.
Qed.

(** The world and the user information after the lookup of the user,
    whose failure the command tolerates. *)
Lemma looked_frame username wa :
  let looked :=
    match CodeforcesService.getUserInfo env username wa with
    | (wb, inl _) =>
        (wb, UserInfo.mk username "unknown" 0 "unknown" 0 None None)
    | (wb, inr userInfo) => (wb, userInfo)
    end in
  same_store_and_roles wa (fst looked).
Proof.
  cbv zeta. pose proof (respects_lookup username wa) as H.
  destruct (CodeforcesService.getUserInfo env username wa) as [wb [e|info]];
    exact H.
Qed.

(** X22.  The /link command always answers.  With a store that answers
    every request, unless it answers with a challenge, it leaves the
    tables of the store and the roles of the members as they were:
    outside of a guild, for a handle that Codeforces does not know, for a
    handle that another user has linked and for any error, no session is
    created or replaced.  It answers that it is not in a guild exactly
    when it is given no guild. *)
Theorem link_changes_the_store_only_to_issue_a_challenge
    username userId guildId w :
  exists w' reply,
    execute env ilike configured username userId guildId w = (w', inr reply)
    /\ ((forall challenge, reply <> Verification challenge) ->
        same_store_and_roles w w')
    /\ (reply = NotInGuild <->
        guildId = None \/ exists g, guildId = Some g /\ Js.truthy g = false).
Proof.
  unfold execute, try_catch.
  destruct guildId as [g|].
  2:{ exists w, NotInGuild. split; [reflexivity|].
      split; [intros _; apply same_store_and_roles_refl|]. split; auto. }
  destruct (Js.truthy g) eqn:Ht.
  2:{ exists w, NotInGuild. split.
      { unfold handleLinkCodeforces. now rewrite Ht. }
      split; [intros _; apply same_store_and_roles_refl|].
      split; [intros _; right; eauto|reflexivity]. }
  assert (Hnot : forall reply : Reply,
            reply <> NotInGuild ->
            (reply = NotInGuild <->
             Some g = None \/ exists g0, Some g = Some g0 /\ Js.truthy g0 = false)).
  { intros reply Hne. split; [contradiction|].
    intros [[=]|(g0 & [= <-] & Hf)]. congruence. }
  rewrite (handleLinkCodeforces_run username userId g w Ht).
  pose proof (respects_validateUser username w) as Hva.
  destruct (CodeforcesService.validateUser env username w) as [wa [e|[|]]];
    cbn [fst] in Hva.
  { eexists _, _. split; [reflexivity|]. split; [auto|now apply Hnot]. }
  2:{ eexists _, _. split; [reflexivity|]. split; [auto|now apply Hnot]. }
  destruct (isAccountLinkedByOther_run g username userId wa) as [answer ->].
  destruct answer.
  { eexists _, _. split; [reflexivity|]. split; [auto|now apply Hnot]. }
  pose proof (looked_frame username wa) as Hlo. cbv zeta in Hlo.
  cbv zeta.
  set (looked := match CodeforcesService.getUserInfo env username wa with
                 | (wb, inl _) => _
                 | (wb, inr userInfo) => _
                 end) in *.
  pose proof (respects_getRandomCodeforcesProblem (fst looked)) as Hrp.
  destruct (RandomProblem.getRandomCodeforcesProblem env (fst looked))
    as [wc [e|problem]]; cbn [fst] in Hrp.
  { eexists _, _. split; [reflexivity|]. split; [|now apply Hnot].
    intros _. eapply same_store_and_roles_trans; [exact Hva|].
    eapply same_store_and_roles_trans; [exact Hlo|exact Hrp]. }
  eexists _, _. split; [reflexivity|]. split; [|now apply Hnot].
  intros Hne. exfalso. eapply Hne. reflexivity.
Qed.

(** X23.  When /link answers with a challenge, the table of sessions
    holds exactly one session for the user, the guild and the handle of
    the challenge: it carries the id, the address and the name of the
    problem issued and the deadline announced, and it starts at a later
    reading of the clock than the one of the deadline.  The deadline is
    the instant at which the local time of the process reads the
    configured number of minutes (10 when none is configured) more than
    at the reading of the clock: that many minutes later when the offset
    of the local time from UTC is the same at both ends, and earlier or
    later by the change of the offset otherwise.  The sessions of the
    other keys, the accounts, the configuration and the roles are as
    before, and the handle had been validated. *)
Theorem link_replaces_the_session_of_the_handle
    username userId guildId w w' challenge :
  handleLinkCodeforces env ilike configured username userId guildId w
  = (w', inr (Verification challenge)) ->
  exists g row n,
    guildId = Some g
    /\ sessions_of (userId, g, UserInfo.handle (userInfo challenge))
         (pending_verifications w') = [row]
    /\ sessions_besides (userId, g, UserInfo.handle (userInfo challenge))
         (pending_verifications w')
       = sessions_besides (userId, g, UserInfo.handle (userInfo challenge))
           (pending_verifications w)
    /\ PendingVerification.problem_id row = RandomProblem.id (problem challenge)
    /\ PendingVerification.problem_url row = RandomProblem.url (problem challenge)
    /\ PendingVerification.problem_name row
       = Some (RandomProblem.name (problem challenge))
    /\ PendingVerification.expires_at row = expiresAt challenge
    /\ expiresAt challenge
       = Time.UTC env
           (Time.LocalTime env (clock env n)
            + Time.VERIFICATION_TIMEOUT configured * 60000)
    /\ (localTZA env
          (Time.LocalTime env (clock env n)
           + Time.VERIFICATION_TIMEOUT configured * 60000) false
        = localTZA env (clock env n) true ->
        expiresAt challenge
        = clock env n + Time.VERIFICATION_TIMEOUT configured * 60000)
    /\ PendingVerification.started_at row = Some (clock env (S (S n)))
    /\ linked_accounts w' = linked_accounts w
    /\ guild_config w' = guild_config w
    /\ member_roles w' = member_roles w
    /\ snd (CodeforcesService.validateUser env username w) = inr true.
Proof.
  destruct guildId as [g|]; [|discriminate].
  destruct (Js.truthy g) eqn:Ht.
  2:{ unfold handleLinkCodeforces. rewrite Ht. discriminate. }
  rewrite (handleLinkCodeforces_run username userId g w Ht).
  pose proof (respects_validateUser username w) as Hva.
  destruct (CodeforcesService.validateUser env username w) as [wa [e|[|]]];
    cbn [fst snd] in *; try discriminate.
  destruct (isAccountLinkedByOther_run g username userId wa) as [answer ->].
  destruct answer; [discriminate|].
  pose proof (looked_frame username wa) as Hlo. cbv zeta in Hlo.
  cbv zeta.
  set (looked := match CodeforcesService.getUserInfo env username wa with
                 | (wb, inl _) => _
                 | (wb, inr userInfo) => _
                 end) in *.
  pose proof (respects_getRandomCodeforcesProblem (fst looked)) as Hrp.
  destruct (RandomProblem.getRandomCodeforcesProblem env (fst looked))
    as [wc [e|issued]]; cbn [fst] in Hrp; [discriminate|].
  set (deadline := Time.UTC env
                     (Time.LocalTime env (clock env (steps wc))
                      + Time.VERIFICATION_TIMEOUT configured * 60000)).
  set (request := requested_session userId g (snd looked) issued deadline).
  pose proof (one_session_after_creation env request
                (set_steps (S (S (steps wc))) wc)) as [Hone Hrest].
  cbv zeta in Hone, Hrest.
  pose proof (createPendingVerification_run env request
                (set_steps (S (S (steps wc))) wc)) as Hrun.
  intros Heq. injection Heq as Hw <-. cbn [userInfo problem expiresAt].
  assert (Hw' : w' = fst (Supabase.createPendingVerification env request
                            (set_steps (S (S (steps wc))) wc)))
    by (rewrite <- Hw; reflexivity).
  clear Hw. rewrite Hw'. clear Hw'.
  assert (Hframe : same_store_and_roles w wc).
  { eapply same_store_and_roles_trans; [exact Hva|].
    eapply same_store_and_roles_trans; [exact Hlo|exact Hrp]. }
  destruct Hframe as (Hp & Hl & Hc & Hr).
  exists g, (created_row env request (set_steps (S (S (steps wc))) wc)),
    (steps wc).
  split; [reflexivity|].
  change (userId, g, UserInfo.handle (snd looked)) with (session_key request).
  split; [exact Hone|].
  split; [rewrite Hrest; cbn [set_steps pending_verifications]; now rewrite Hp|].
  rewrite Hrun. cbn [fst set_pending set_steps set_next_uuid linked_accounts
                     guild_config member_roles].
  repeat (split; [reflexivity|]).
  split; [|auto].
  intros Hoffset. subst deadline. unfold Time.UTC, Time.LocalTime in *.
  rewrite Hoffset. lia.
Qed.

(** X24.  /link tests the username as it was typed: when the operator
    [ilike] of the store matches the username of a verified row of the
    guild, whose owner is another user, against the typed username, no
    challenge is issued.  The command answers without creating or
    replacing a session, and when Codeforces knows the typed username
    the answer is that the account is already linked. *)
Theorem username_matching_a_row_of_another_user_gets_no_challenge
    username userId g w :
  (exists row,
      In row (linked_accounts w)
      /\ LinkedAccounts.guild_id row = g
      /\ ilike (LinkedAccounts.username row) username = true
      /\ LinkedAccounts.verified row = true
      /\ LinkedAccounts.discord_user_id row <> userId) ->
  exists w' reply,
    execute env ilike configured username userId (Some g) w
    = (w', inr reply)
    /\ (forall challenge, reply <> Verification challenge)
    /\ same_store_and_roles w w'
    /\ (Js.truthy g = true ->
        snd (CodeforcesService.validateUser env username w) = inr true ->
        reply = AlreadyLinked username).
Proof.
  intros Hlinked. unfold execute, try_catch.
  destruct (Js.truthy g) eqn:Ht.
  2:{ exists w, NotInGuild. split.
      { unfold handleLinkCodeforces. now rewrite Ht. }
      split; [discriminate|].
      split; [apply same_store_and_roles_refl|discriminate]. }
  rewrite (handleLinkCodeforces_run username userId g w Ht).
  pose proof (respects_validateUser username w) as Hva.
  destruct (CodeforcesService.validateUser env username w) as [wa [e|[|]]];
    cbn [fst snd] in *.
  { eexists _, _. split; [reflexivity|].
    split; [discriminate|]. split; [exact Hva|]. intros _ Hv; congruence. }
  2:{ eexists _, _. split; [reflexivity|].
    split; [discriminate|]. split; [exact Hva|]. intros _ Hv; congruence. }
  destruct (isAccountLinkedByOther_spec ilike g username userId wa)
    as (answer & -> & Hanswer).
  assert (answer = true) as ->.
  { apply Hanswer. destruct Hva as (_ & Hl & _). now rewrite Hl. }
  eexists _, _. split; [reflexivity|].
    split; [discriminate|]. split; [exact Hva|]. intros _ Hv; congruence.
Qed.

End LinkCommand.

(** ** The role sync, account by account *)

Section SyncOfAnAccount.

Import RoleSync Spec.

Variable env : Env.

(** The lookup of a user leaves the store, the roles and the results of
    the sync as they were. *)
Lemma lookup_keeps_results username :
  respects (fun w w' => same_store_and_roles w w' /\ results w' = results w)
    (CodeforcesService.getUserInfo env username).
Proof.
  apply respects_getUserInfo.
  - intros w. split; [apply same_store_and_roles_refl|reflexivity].
  - intros a b c [Hab Hab'] [Hbc Hbc']. split.
    + eapply same_store_and_roles_trans; eassumption.
    + congruence.
  - intros; unfold same_store_and_roles; cbn; auto 10.
  - intros; unfold same_store_and_roles; cbn; auto 10.
Qed.

(** Fetching a member and assigning a rank role leave the store and the
    results of the sync as they were, and the roles of the other
    members. *)
Lemma role_step_frame (who : string * string) :
  let R := fun w w' : World =>
             same_store w w' /\ results w' = results w
             /\ (forall other, other <> who ->
                   member_roles w' !! other = member_roles w !! other) in
  (forall w, R w w)
  /\ (forall a b c, R a b -> R b c -> R a c)
  /\ (forall w n, R w (set_steps n w)).
Proof.
  cbv zeta. split; [|split].
  - intros w. split; [apply same_store_refl|]. auto.
  - intros a b c (Hs & Hr & Ho) (Hs' & Hr' & Ho').
    split; [eapply same_store_trans; eassumption|].
    split; [congruence|]. intros other Hne.
    rewrite Ho', Ho; auto.
  - intros w n. unfold same_store. cbn. auto 10.
Qed.

Lemma respects_role_step guildId userId member rank :
  GuildMember.guild member = guildId ->
  GuildMember.user member = userId ->
  respects (fun w w' : World =>
              same_store w w' /\ results w' = results w
              /\ (forall other, other <> (guildId, userId) ->
                    member_roles w' !! other = member_roles w !! other))
    (RoleManager.assignRankRole env member guildId rank).
Proof.
  intros Hg Hu.
  destruct (role_step_frame (guildId, userId)) as (R_refl & R_trans & R_steps).
  cbv zeta in *.
  unfold RoleManager.assignRankRole, Supabase.getGuildConfig,
    Discord.guild_role, Discord.roles_cache, Discord.roles_add,
    Discord.roles_remove, Discord.roles_cache, Discord.set_roles.
  frame; apply respects_modify; intros w;
    (split; [unfold same_store; cbn; auto|]); (split; [reflexivity|]);
    intros other Hne; cbn; rewrite Hg, Hu; now rewrite lookup_insert_ne.
Qed.

Lemma members_fetch_run guildId userId w :
  exists w1 r,
    Discord.members_fetch env guildId userId w = (w1, r)
    /\ same_store_and_roles w w1 /\ results w1 = results w
    /\ match r with
       | inr member =>
           GuildMember.guild member = guildId
           /\ GuildMember.user member = userId
       | inl _ => True
       end.
Proof.
  unfold Discord.members_fetch, bind, ask, gets, throw, ret.
  destruct (members_fetch_fault env (steps w) guildId userId).
  - eexists _, _. split; [reflexivity|].
    unfold same_store_and_roles. cbn. auto 10.
  - cbn. destruct (member_roles w !! (guildId, userId)).
    + eexists _, _. split; [reflexivity|].
      unfold same_store_and_roles. cbn. auto 10.
    + eexists _, _. split; [reflexivity|].
      unfold same_store_and_roles. cbn. auto 10.
Qed.

(** What handing over to the role manager does: the store is as before,
    as are the roles of the other members; the count of updated roles
    grows by one when it returns after an assignment, and not at all
    when it throws. *)
Lemma reassignRole_run guildId account currentRank w :
  exists w' r,
    reassignRole env guildId account currentRank w = (w', r)
    /\ same_store w w'
    /\ (forall other,
          other <> (guildId, LinkedAccounts.discord_user_id account) ->
          member_roles w' !! other = member_roles w !! other)
    /\ SyncResults.totalProcessed (results w')
       = SyncResults.totalProcessed (results w)
    /\ SyncResults.errors (results w') = SyncResults.errors (results w)
    /\ SyncResults.skipped (results w') = SyncResults.skipped (results w)
    /\ match r with
       | inl _ =>
           SyncResults.rolesUpdated (results w')
           = SyncResults.rolesUpdated (results w)
       | inr _ =>
           SyncResults.rolesUpdated (results w')
           = SyncResults.rolesUpdated (results w)
           \/ SyncResults.rolesUpdated (results w')
              = SyncResults.rolesUpdated (results w) + 1
       end.
Proof.
  unfold reassignRole, try_catch. unfold bind at 1.
  destruct (members_fetch_run guildId (LinkedAccounts.discord_user_id account) w)
    as (w1 & r1 & -> & (Hp & Hl & Hc & Hm) & Hres & Hmember).
  assert (Hstore : same_store w w1) by (unfold same_store; auto).
  destruct r1 as [e|member].
  { assert (Hdone : forall r : Js.thrown + unit,
              exists w' r0, (w1, r) = (w', r0)
                /\ same_store w w'
                /\ (forall other,
                      other <> (guildId, LinkedAccounts.discord_user_id account) ->
                      member_roles w' !! other = member_roles w !! other)
                /\ SyncResults.totalProcessed (results w')
                   = SyncResults.totalProcessed (results w)
                /\ SyncResults.errors (results w') = SyncResults.errors (results w)
                /\ SyncResults.skipped (results w') = SyncResults.skipped (results w)
                /\ match r0 with
                   | inl _ =>
                       SyncResults.rolesUpdated (results w')
                       = SyncResults.rolesUpdated (results w)
                   | inr _ =>
                       SyncResults.rolesUpdated (results w')
                       = SyncResults.rolesUpdated (results w)
                       \/ SyncResults.rolesUpdated (results w')
                          = SyncResults.rolesUpdated (results w) + 1
                   end).
    { intros r. exists w1, r. split; [reflexivity|].
      split; [exact Hstore|]. rewrite Hres, Hm.
      repeat (split; [auto|]). destruct r; auto. }
    destruct e as [msg [code|]|v]; cbn.
    - destruct (decide (code = 10007)) as [->|Hne]; [apply Hdone|].
      destruct code as [|p|p]; try apply Hdone.
      repeat (destruct p as [p|p|]; try apply Hdone).
    - apply Hdone.
    - apply Hdone. }
  destruct Hmember as [Hg Hu].
  pose proof (respects_role_step guildId
                (LinkedAccounts.discord_user_id account) member currentRank
                Hg Hu w1) as (Hs2 & Hr2 & Ho2).
  unfold bind.
  destruct (RoleManager.assignRankRole env member guildId currentRank w1)
    as [w2 [e|assigned]] eqn:Hassign; cbn [fst] in *.
  { assert (Hdone : forall r : Js.thrown + unit,
              match r with inl _ => True | inr _ => True end ->
              exists w' r0, (w2, r) = (w', r0)
                /\ same_store w w'
                /\ (forall other,
                      other <> (guildId, LinkedAccounts.discord_user_id account) ->
                      member_roles w' !! other = member_roles w !! other)
                /\ SyncResults.totalProcessed (results w')
                   = SyncResults.totalProcessed (results w)
                /\ SyncResults.errors (results w') = SyncResults.errors (results w)
                /\ SyncResults.skipped (results w') = SyncResults.skipped (results w)
                /\ match r0 with
                   | inl _ =>
                       SyncResults.rolesUpdated (results w')
                       = SyncResults.rolesUpdated (results w)
                   | inr _ =>
                       SyncResults.rolesUpdated (results w')
                       = SyncResults.rolesUpdated (results w)
                       \/ SyncResults.rolesUpdated (results w')
                          = SyncResults.rolesUpdated (results w) + 1
                   end).
    { intros r _. exists w2, r. split; [reflexivity|].
      split; [eapply same_store_trans; eassumption|].
      split; [intros other Hne; rewrite Ho2, Hm; auto|].
      rewrite Hr2, Hres. repeat (split; [auto|]). destruct r; auto. }
    destruct e as [msg [code|]|v]; cbn.
    - destruct (decide (code = 10007)) as [->|Hne]; [now apply Hdone|].
      destruct code as [|p|p]; try now apply Hdone.
      repeat (destruct p as [p|p|]; try now apply Hdone).
    - now apply Hdone.
    - now apply Hdone. }
  destruct assigned; cbn.
  - unfold update_results, modify. eexists _, _. split; [reflexivity|].
    cbn. split; [eapply same_store_trans; [exact Hstore|];
                 destruct Hs2 as (? & ? & ?); unfold same_store; cbn; auto|].
    split; [intros other Hne; rewrite Ho2, Hm; auto|].
    rewrite Hr2, Hres. auto 10.
  - unfold ret. eexists _, _. split; [reflexivity|].
    split; [eapply same_store_trans; eassumption|].
    split; [intros other Hne; rewrite Ho2, Hm; auto|].
    rewrite Hr2, Hres. auto 10.
Qed.

(** The update of a rank writes the rank into the rows of the account
    and nothing else. *)
Lemma updateLinkedAccountRank_run accountId newRank w :
  exists r,
    Supabase.updateLinkedAccountRank accountId newRank w
    = (set_linked
         (map (fun row =>
                 if Nat.eqb (LinkedAccounts.id row) accountId
                 then Supabase.with_rank newRank row else row)
              (linked_accounts w)) w, r)
    /\ ((exists row, In row (linked_accounts w)
                     /\ LinkedAccounts.id row = accountId) ->
        exists row, r = inr row).
Proof.
  unfold Supabase.updateLinkedAccountRank, bind, gets, modify, throw, ret.
  destruct (List.find _ (linked_accounts w)) as [row|] eqn:Hfind.
  - eexists. split; [reflexivity|]. eauto.
  - eexists. split; [reflexivity|]. intros (row & Hin & Hid).
    apply (find_none _ _ Hfind) in Hin. apply Nat.eqb_neq in Hin.
    contradiction.
Qed.

(** The outer [try] block on an account whose rank has changed. *)
Lemma changed_rank_run guildId account w w1 info :
  CodeforcesService.getUserInfo env (LinkedAccounts.username account) w
  = (w1, inr info) ->
  Js.truthy (Js.toLowerCase (UserInfo.rank info)) = true ->
  Some (Js.toLowerCase (UserInfo.rank info))
  <> (Js.toLowerCase <$> LinkedAccounts.rank account) ->
  syncAccountBody env guildId account w
  = (Supabase.updateLinkedAccountRank (LinkedAccounts.id account)
       (Js.toLowerCase (UserInfo.rank info)) >>
     reassignRole env guildId account (Js.toLowerCase (UserInfo.rank info)))
      w1.
Proof.
  intros Hlookup Htruthy Hchanged.
  unfold syncAccountBody, sleep. unfold bind at 1 2, ret at 1.
  rewrite Hlookup, Htruthy.
  rewrite bool_decide_eq_false_2 by exact Hchanged. reflexivity.
Qed.

(** X25.  When the rank that Codeforces reports for an account differs
    from the stored one, the sync stores the new rank, in lower case,
    before it touches any role: the rows of the account carry it
    whatever becomes of the role, whether the member has left, the
    guild has no role for the rank or Discord refuses.  The sessions,
    the configuration and the roles of the other members are as
    before. *)
Theorem changed_rank_is_stored_whatever_becomes_of_the_role
    guildId account w w1 info :
  CodeforcesService.getUserInfo env (LinkedAccounts.username account) w
  = (w1, inr info) ->
  Js.truthy (Js.toLowerCase (UserInfo.rank info)) = true ->
  Some (Js.toLowerCase (UserInfo.rank info))
  <> (Js.toLowerCase <$> LinkedAccounts.rank account) ->
  let after := fst (syncAccountBody env guildId account w) in
  linked_accounts after
  = map (fun row =>
           if Nat.eqb (LinkedAccounts.id row) (LinkedAccounts.id account)
           then Supabase.with_rank (Js.toLowerCase (UserInfo.rank info)) row
           else row)
        (linked_accounts w)
  /\ pending_verifications after = pending_verifications w
  /\ guild_config after = guild_config w
  /\ (forall other,
        other <> (guildId, LinkedAccounts.discord_user_id account) ->
        member_roles after !! other = member_roles w !! other).
Proof.
  intros Hlookup Htruthy Hchanged after. subst after.
  rewrite (changed_rank_run guildId account w w1 info Hlookup Htruthy Hchanged).
  pose proof (lookup_keeps_results (LinkedAccounts.username account) w)
    as [(Hp & Hl & Hc & Hm) _].
  rewrite Hlookup in Hp, Hl, Hc, Hm. cbn [fst] in Hp, Hl, Hc, Hm.
  unfold bind.
  destruct (updateLinkedAccountRank_run (LinkedAccounts.id account)
              (Js.toLowerCase (UserInfo.rank info)) w1) as (r & -> & _).
  destruct r as [e|row]; cbn [fst].
  { cbn. rewrite Hl, Hp, Hc, Hm. auto. }
  destruct (reassignRole_run guildId account
              (Js.toLowerCase (UserInfo.rank info))
              (set_linked
                 (map (fun row =>
                         if Nat.eqb (LinkedAccounts.id row)
                              (LinkedAccounts.id account)
                         then Supabase.with_rank
                                (Js.toLowerCase (UserInfo.rank info)) row
                         else row) (linked_accounts w1)) w1))
    as (w' & r & -> & (Hp' & Hl' & Hc') & Ho & _).
  cbn [fst]. rewrite Hl', Hp', Hc'. cbn. rewrite Hl, Hp, Hc.
  repeat (split; [reflexivity|]).
  intros other Hne. rewrite (Ho other Hne). cbn. now rewrite Hm.
Qed.

(** X26.  A member who has left the guild is no error of the sync: when
    the rank of the account has changed and Discord answers the fetch
    of the member with the code 10007, processing the account stores
    the new rank and ends without throwing, so that the loop records no
    error for it; no role is touched and the results are as before. *)
Theorem member_who_left_is_no_error guildId account w w1 info message :
  CodeforcesService.getUserInfo env (LinkedAccounts.username account) w
  = (w1, inr info) ->
  Js.truthy (Js.toLowerCase (UserInfo.rank info)) = true ->
  Some (Js.toLowerCase (UserInfo.rank info))
  <> (Js.toLowerCase <$> LinkedAccounts.rank account) ->
  (exists row, In row (linked_accounts w)
               /\ LinkedAccounts.id row = LinkedAccounts.id account) ->
  (forall w0,
      snd (Discord.members_fetch env guildId
             (LinkedAccounts.discord_user_id account) w0)
      = inl (Js.ErrorObj message (Some 10007))) ->
  exists w',
    syncAccountBody env guildId account w = (w', inr tt)
    /\ results w' = results w
    /\ member_roles w' = member_roles w
    /\ linked_accounts w'
       = map (fun row =>
                if Nat.eqb (LinkedAccounts.id row) (LinkedAccounts.id account)
                then Supabase.with_rank (Js.toLowerCase (UserInfo.rank info)) row
                else row)
             (linked_accounts w).
Proof.
  intros Hlookup Htruthy Hchanged Hrow Hleft.
  rewrite (changed_rank_run guildId account w w1 info Hlookup Htruthy Hchanged).
  pose proof (lookup_keeps_results (LinkedAccounts.username account) w)
    as [(Hp & Hl & Hc & Hm) Hres].
  rewrite Hlookup in Hp, Hl, Hc, Hm, Hres. cbn [fst] in Hp, Hl, Hc, Hm, Hres.
  unfold bind at 1.
  destruct (updateLinkedAccountRank_run (LinkedAccounts.id account)
              (Js.toLowerCase (UserInfo.rank info)) w1) as (r & -> & Hfound).
  destruct Hfound as [row ->]; [now rewrite Hl|].
  unfold reassignRole, try_catch. unfold bind at 1.
  set (w2 := set_linked _ w1).
  destruct (members_fetch_run guildId (LinkedAccounts.discord_user_id account) w2)
    as (w3 & r3 & Hfetch & (_ & Hl3 & _ & Hm3) & Hres3 & _).
  pose proof (Hleft w2) as Hthrown. rewrite Hfetch in Hthrown |- *.
  cbn [snd] in Hthrown. subst r3. cbn.
  exists w3. split; [reflexivity|].
  split; [now rewrite Hres3|]. split; [now rewrite Hm3|].
  rewrite Hl3. subst w2. cbn. now rewrite Hl.
Qed.

(** One turn of the loop over the accounts counts the account as
    processed and then either records one error and no updated role, or
    no error and at most one updated role. *)
Lemma syncAccount_counts guildId account w :
  exists w',
    syncAccount env guildId account w = (w', inr tt)
    /\ SyncResults.totalProcessed (results w')
       = SyncResults.totalProcessed (results w) + 1
    /\ SyncResults.skipped (results w') = SyncResults.skipped (results w)
    /\ ((SyncResults.errors (results w') = SyncResults.errors (results w)
         /\ (SyncResults.rolesUpdated (results w')
             = SyncResults.rolesUpdated (results w)
             \/ SyncResults.rolesUpdated (results w')
                = SyncResults.rolesUpdated (results w) + 1))
        \/ (exists e,
              SyncResults.errors (results w')
              = SyncResults.errors (results w)
                ++ [failed_to_sync account guildId e]
              /\ SyncResults.rolesUpdated (results w')
                 = SyncResults.rolesUpdated (results w))).
Proof.
  unfold syncAccount, try_catch, update_results. unfold bind at 1, modify at 1.
  set (w0 := set_results (processed_one (results w)) w).
  assert (Hstart : SyncResults.totalProcessed (results w0)
                   = SyncResults.totalProcessed (results w) + 1
                   /\ SyncResults.skipped (results w0) = SyncResults.skipped (results w)
                   /\ SyncResults.errors (results w0) = SyncResults.errors (results w)
                   /\ SyncResults.rolesUpdated (results w0)
                      = SyncResults.rolesUpdated (results w))
    by (cbn; auto).
  destruct Hstart as (Ht0 & Hs0 & He0 & Hu0).
  rewrite <- Ht0, <- Hs0, <- He0, <- Hu0. clearbody w0. clear.
  unfold syncAccountBody, sleep. unfold bind at 1 2, ret at 1.
  pose proof (lookup_keeps_results (LinkedAccounts.username account) w0)
    as [_ Hres].
  destruct (CodeforcesService.getUserInfo env _ w0) as [w1 [e|info]];
    cbn [fst] in Hres.
  { eexists. split; [reflexivity|]. cbn. rewrite Hres.
    repeat (split; [reflexivity|]). right. eauto. }
  rewrite <- Hres.
  destruct (_ && _).
  2:{ eexists. split; [reflexivity|]. auto 10. }
  unfold bind at 1.
  destruct (updateLinkedAccountRank_run (LinkedAccounts.id account)
              (Js.toLowerCase (UserInfo.rank info)) w1) as (r & -> & _).
  destruct r as [e|row].
  { eexists. split; [reflexivity|]. cbn.
    repeat (split; [reflexivity|]). right. eauto. }
  set (w2 := set_linked _ w1).
  change (results w1) with (results w2).
  destruct (reassignRole_run guildId account
              (Js.toLowerCase (UserInfo.rank info)) w2)
    as (w' & r & -> & _ & _ & Ht & He & Hs & Hu).
  destruct r as [e|[]].
  - eexists. split; [reflexivity|]. cbn. rewrite Ht, Hs, He, Hu.
    repeat (split; [reflexivity|]). right. eauto.
  - eexists. split; [reflexivity|]. rewrite Ht, Hs, He. auto 10.
Qed.

(** X27.  The loop over the accounts of a guild never throws and counts
    every account as processed.  An account is counted as an updated
    role or as an error, never as both: the roles counted as updated
    and the errors recorded by the loop together do not exceed the
    accounts it processed. *)
Theorem updated_and_failed_accounts_are_counted_apart guildId accounts w :
  exists w',
    syncAccounts env guildId accounts w = (w', inr tt)
    /\ SyncResults.totalProcessed (results w')
       = SyncResults.totalProcessed (results w) + Z.of_nat (length accounts)
    /\ SyncResults.skipped (results w') = SyncResults.skipped (results w)
    /\ SyncResults.rolesUpdated (results w)
       <= SyncResults.rolesUpdated (results w')
    /\ (length (SyncResults.errors (results w))
        <= length (SyncResults.errors (results w')))%nat
    /\ (SyncResults.rolesUpdated (results w')
        - SyncResults.rolesUpdated (results w))
       + (Z.of_nat (length (SyncResults.errors (results w')))
          - Z.of_nat (length (SyncResults.errors (results w))))
       <= Z.of_nat (length accounts).
Proof.
  revert w. induction accounts as [|account accounts IH]; intros w.
  - exists w. split; [reflexivity|]. cbn. repeat split; lia.
  - destruct (syncAccount_counts guildId account w)
      as (w1 & Hrun & Ht & Hs & Hcount).
    destruct (IH w1) as (w2 & Hrun' & Ht' & Hs' & Hu' & He' & Hsum).
    exists w2. split; [cbn; unfold bind; rewrite Hrun; exact Hrun'|].
    cbn [length]. rewrite Ht', Ht, Hs', Hs.
    destruct Hcount as [[He Hu]|(e & He & Hu)].
    + rewrite He in *. repeat split; lia.
    + rewrite He in *. rewrite length_app in *. cbn [length] in *.
      rewrite Hu in *. repeat split; lia.
Qed.

End SyncOfAnAccount.

(** ** The /leaderboard command *)

Section LeaderboardCommand.

Import Leaderboard Spec.

Lemma insert_perm a sorted : insert a sorted ≡ₚ a :: sorted.
Proof.
  induction sorted as [|b rest IH]; [reflexivity|]. cbn.
  destruct (rating a <? rating b); [|reflexivity].
  rewrite IH. apply Permutation_swap.
Qed.

Lemma sort_perm data : sort data ≡ₚ data.
Proof.
  induction data as [|a rest IH]; [reflexivity|]. cbn.
  rewrite insert_perm. now rewrite IH.
Qed.

Lemma insert_descending a sorted :
  descending sorted -> descending (insert a sorted).
Proof.
  induction sorted as [|b rest IH]; intros Hsorted.
  - cbn. auto.
  - cbn. destruct (rating a <? rating b) eqn:Hlt.
    + apply Z.ltb_lt in Hlt. destruct Hsorted as [Hb Hrest].
      cbn. split; [|now apply IH].
      rewrite insert_perm. constructor; [lia|exact Hb].
    + apply Z.ltb_ge in Hlt. destruct Hsorted as [Hb Hrest].
      cbn. split; [|split; assumption].
      constructor; [exact Hlt|].
      eapply List.Forall_impl; [|exact Hb]. cbn. intros c Hc. lia.
Qed.

Lemma insert_filter (P : LeaderboardEntry -> bool) a sorted :
  (forall b, P a = true -> P b = true -> rating a = rating b) ->
  List.filter P (insert a sorted) = List.filter P (a :: sorted).
Proof.
  intros Hsame. induction sorted as [|b rest IH]; [reflexivity|].
  cbn. destruct (rating a <? rating b) eqn:Hlt; [|reflexivity].
  apply Z.ltb_lt in Hlt. cbn. cbn in IH. rewrite IH.
  destruct (P a) eqn:Ha, (P b) eqn:Hb; try reflexivity.
  specialize (Hsame b eq_refl Hb). lia.
Qed.

(** X28.  The leaderboard is the data in the order of the ratings,
    highest first: sorting neither drops nor repeats an entry, and the
    entries of one rating stay in the order in which they were looked
    up. *)
Theorem leaderboard_is_ordered_by_rating data :
  sort data ≡ₚ data
  /\ descending (sort data)
  /\ (forall r,
        List.filter (fun entry => rating entry =? r) (sort data)
        = List.filter (fun entry => rating entry =? r) data).
Proof.
  split; [apply sort_perm|]. split.
  - induction data as [|a rest IH]; [exact I|].
    cbn. now apply insert_descending.
  - intros r. induction data as [|a rest IH]; [reflexivity|].
    cbn [sort]. rewrite insert_filter.
    + cbn. now rewrite IH.
    + intros b Ha Hb. apply Z.eqb_eq in Ha, Hb. congruence.
Qed.

(** The loop that fills the fields, from any [i]: the fields show the
    entries from [i] on in groups of at most ten, all but the last of
    exactly ten. *)
Lemma rankings_from_chunks turns i entries :
  (length entries - i <= turns)%nat ->
  exists chunks,
    rankings_from turns i entries
    = imap (fun k => rankings_field (i + k)) chunks
    /\ concat chunks = skipn i entries
    /\ Forall (fun chunk => (1 <= length chunk <= 10)%nat) chunks
    /\ (10 * (length chunks - 1) < length entries - i
        \/ chunks = [])%nat.
Proof.
  revert i. induction turns as [|turns IH]; intros i Hfuel.
  - exists []. cbn. rewrite skipn_all2 by lia. auto.
  - cbn [rankings_from].
    destruct (i <? length entries)%nat eqn:Hi.
    2:{ apply Nat.ltb_ge in Hi. exists []. cbn.
        rewrite skipn_all2 by lia. auto. }
    apply Nat.ltb_lt in Hi.
    destruct (IH (i + chunkSize)%nat) as (chunks & Hrun & Hconcat & Hsizes & Hcount).
    { unfold chunkSize. lia. }
    exists (firstn chunkSize (skipn i entries) :: chunks).
    split; [|split; [|split]].
    + rewrite Hrun. cbn [imap]. unfold rankings_field at 2.
      rewrite Nat.add_0_r. f_equal.
      apply imap_ext. intros k chunk _. cbn. unfold rankings_field.
      replace (i + chunkSize + k =? 0)%nat with false
        by (symmetry; apply Nat.eqb_neq; unfold chunkSize; lia).
      replace (i + S k =? 0)%nat with false
        by (symmetry; apply Nat.eqb_neq; lia).
      reflexivity.
    + cbn [concat]. rewrite Hconcat.
      rewrite Nat.add_comm, <- skipn_skipn.
      apply firstn_skipn.
    + constructor; [|exact Hsizes].
      rewrite length_firstn, length_skipn. unfold chunkSize. lia.
    + left. cbn [length].
      destruct Hcount as [Hcount| ->]; [|cbn; lia].
      unfold chunkSize in *.
      assert (Hne : chunks <> []).
      { intros ->. apply (f_equal (@length _)) in Hconcat.
        rewrite length_skipn in Hconcat. cbn in Hconcat, Hcount. lia. }
      destruct chunks; [contradiction|]. cbn [length] in *. lia.
Qed.

(** X29.  The board shows the 25 highest rated entries at most, one
    line for each in the order of the ratings, in fields of at most ten
    lines: there are at most three such fields, the first named
    Rankings and the others Rankings (continued), followed by the field
    of the statistics of all the entries.  The description gives the
    number of lines. *)
Theorem board_shows_the_top_25_in_fields_of_ten data :
  exists chunks,
    board data
    = Board ("Showing top " +:+ Js.show (Z.of_nat (length (concat chunks)))
             +:+ " users in this server")
            (imap rankings_field chunks ++ [serverStats (sort data)])
    /\ concat chunks = imap line (firstn 25 (sort data))
    /\ length (concat chunks) = Nat.min (length data) 25
    /\ Forall (fun chunk => (1 <= length chunk <= 10)%nat) chunks
    /\ (length chunks <= 3)%nat.
Proof.
  unfold board. cbv zeta.
  set (entries := imap line (firstn 25 (sort data))).
  assert (Hlen : length entries = Nat.min (length data) 25).
  { subst entries. rewrite length_imap, length_firstn.
    rewrite (Permutation_length (sort_perm data)). lia. }
  destruct (rankings_from_chunks (length entries) 0 entries)
    as (chunks & Hrun & Hconcat & Hsizes & Hcount); [lia|].
  exists chunks. change (skipn 0 entries) with entries in Hconcat.
  rewrite Hconcat.
  split; [|split; [reflexivity|split; [exact Hlen|split; [exact Hsizes|]]]].
  - unfold rankings. rewrite Hrun. cbn [Nat.add]. rewrite Hlen.
    rewrite (Permutation_length (sort_perm data)).
    replace (Z.of_nat (Nat.min (length data) 25))
      with (Z.min (Z.of_nat (length data)) 25) by lia.
    reflexivity.
  - destruct Hcount as [Hcount| ->]; [|cbn; lia]. lia.
Qed.

Variable env : Env.

(** One turn of the loop over the accounts pushes the entry of the
    account, or nothing when the lookup fails; it never throws. *)
Lemma lookup_run account w :
  exists w' pushed,
    lookup env account w = (w', inr pushed)
    /\ same_store_and_roles w w'
    /\ match snd (CodeforcesService.getUserInfo env
                    (LinkedAccounts.username account) w) with
       | inl _ => pushed = []
       | inr _ =>
           exists entry,
             pushed = [entry]
             /\ discordUserId entry = LinkedAccounts.discord_user_id account
       end.
Proof.
  unfold lookup, try_catch, bind, ret.
  pose proof (respects_lookup env (LinkedAccounts.username account) w) as Hframe.
  destruct (CodeforcesService.getUserInfo env _ w) as [w1 [e|info]];
    cbn [fst snd] in *.
  - exists w1, []. auto.
  - eexists w1, _. split; [reflexivity|]. split; [exact Hframe|].
    eexists. split; reflexivity.
Qed.

Lemma lookups_run accounts w :
  exists w' pushed,
    for_each (lookup env) accounts w = (w', inr pushed)
    /\ same_store_and_roles w w'
    /\ map discordUserId (concat pushed)
       `sublist_of` map LinkedAccounts.discord_user_id accounts
    /\ ((forall account w0,
           In account accounts ->
           exists info,
             snd (CodeforcesService.getUserInfo env
                    (LinkedAccounts.username account) w0) = inr info) ->
        map discordUserId (concat pushed)
        = map LinkedAccounts.discord_user_id accounts).
Proof.
  revert w. induction accounts as [|account accounts IH]; intros w.
  - exists w, []. split; [reflexivity|].
    split; [apply same_store_and_roles_refl|]. split; [constructor|auto].
  - destruct (lookup_run account w) as (w1 & first & Hrun & Hframe & Hfirst).
    destruct (IH w1) as (w2 & rest & Hrun' & Hframe' & Hsub & Hall).
    exists w2, (first :: rest).
    split; [cbn; unfold bind; rewrite Hrun, Hrun'; reflexivity|].
    split; [eapply same_store_and_roles_trans; eassumption|].
    cbn [concat]. rewrite map_app. split.
    + destruct (snd (CodeforcesService.getUserInfo env _ w)).
      * subst first. cbn. now constructor.
      * destruct Hfirst as (entry & -> & Hid). cbn. rewrite Hid.
        now constructor.
    + intros Hlookups.
      destruct (Hlookups account w (or_introl eq_refl)) as [info Hinfo].
      rewrite Hinfo in Hfirst. destruct Hfirst as (entry & -> & Hid).
      cbn. rewrite Hid. f_equal. apply Hall. intros a w0 Ha. apply Hlookups. now right.
Qed.

Variable platform : LinkedAccounts.t -> option string.

(** X30.  In a guild, with a store that answers every request,
    /leaderboard always answers and changes neither the store nor the
    roles.  It looks up the verified accounts of the guild whose
    platform is codeforces, in the order of the table; an account whose
    lookup fails is left out and the others are still shown, so the
    entries belong to such accounts, each at most once per account and
    all of them when every lookup succeeds.  The answer is that no
    account is linked when the guild has none, that there is no data
    when no lookup succeeded, and the board of the entries
    otherwise. *)
Theorem leaderboard_shows_the_accounts_that_can_be_looked_up g w :
  Js.truthy g = true ->
  exists w' reply data,
    execute env platform (Some g) w = (w', inr reply)
    /\ same_store_and_roles w w'
    /\ map discordUserId data
       `sublist_of` map LinkedAccounts.discord_user_id
                      (codeforces_accounts_of platform g w)
    /\ ((forall account w0,
           In account (codeforces_accounts_of platform g w) ->
           exists info,
             snd (CodeforcesService.getUserInfo env
                    (LinkedAccounts.username account) w0) = inr info) ->
        map discordUserId data
        = map LinkedAccounts.discord_user_id
            (codeforces_accounts_of platform g w))
    /\ reply = match codeforces_accounts_of platform g w, data with
               | [], _ => NoAccounts
               | _ :: _, [] => NoData
               | _ :: _, _ :: _ => board data
               end.
Proof.
  intros Ht. unfold execute. rewrite Ht. cbn [negb].
  unfold try_catch, SupabaseClient.getAllGuildLinkedAccounts.
  unfold bind at 1, gets.
  fold (codeforces_accounts_of platform g w).
  destruct (lookups_run (codeforces_accounts_of platform g w) w)
    as (w' & pushed & Hrun & Hframe & Hsub & Hall).
  destruct (codeforces_accounts_of platform g w)
    as [|account accounts] eqn:Haccounts.
  { exists w, NoAccounts, []. split; [reflexivity|].
    split; [apply same_store_and_roles_refl|]. split; [constructor|auto]. }
  unfold bind. rewrite Hrun.
  exists w', (match concat pushed with [] => NoData | _ :: _ => board (concat pushed) end),
    (concat pushed).
  split; [destruct (concat pushed); reflexivity|].
  split; [exact Hframe|]. split; [exact Hsub|]. split; [exact Hall|reflexivity].
Qed.

End LeaderboardCommand.

(** ** The commands and the jobs at work *)

Section MoreInstances.

Import Spec Fixtures.

(** The command queries at 100 ms, when the two challenges of user 42
    are live, and reaches them at 700 s: the second of them is reported
    as expired at its place in the results. *)
Lemma challenge_expiring_during_the_command_is_reported :
  exists w' results,
    Verify.execute slow_command "42" (Some "g1") busy_world
    = (w', inr (Verify.Results results))
    /\ results !! 1%nat = Some (expiry_of challenge_A).
Proof.
  destruct (expired_session_is_deleted_and_reported slow_command "42" "g1"
              busy_world eq_refl)
    as (w1 & sessions & w' & reply & Hquery & _ & Hrun & Hturn & _).
  vm_compute in Hquery. injection Hquery as <- <-.
  destruct (Hturn [challenge_A_old] challenge_A [] eq_refl)
    as (_ & _ & _ & (results & -> & _ & Hreported) & _).
  - vm_compute. reflexivity.
  - exists w', results. split; [exact Hrun|exact Hreported].
Defined.

(** The id issued for problem A of contest 1500 is read back as
    (1500, A). *)
Lemma issued_watermelon_parses_back :
  Verify.parseCodeforcesProblemId
    (RandomProblem.id
       (RandomProblem.describe
          (CodeforcesProblem.mk 1500 "A" "Watermelon" (Some 1600))))
    empty_world
  = (empty_world, inr (1500, "A")).
Proof.
  apply (issued_id_parses_back
           (CodeforcesProblem.mk 1500 "A" "Watermelon" (Some 1600))
           "A"%char EmptyString empty_world).
  - cbn. lia.
  - reflexivity.
  - reflexivity.
  - reflexivity.
  - reflexivity.
Defined.

(** A challenge issued for the key (42, g1, alice) and deleted by its id
    leaves the session of bob alone in the table. *)
Lemma deleted_challenge_leaves_the_session_of_bob :
  exists row w',
    snd (Supabase.createPendingVerification (at_time 5) challenge_B busy_world)
    = inr row
    /\ Supabase.deletePendingVerification (PendingVerification.id row)
         (fst (Supabase.createPendingVerification (at_time 5) challenge_B
                 busy_world))
       = (w', inr tt)
    /\ pending_verifications w' = [challenge_of_bob].
Proof.
  destruct (deleting_a_created_session_leaves_none_of_its_key (at_time 5)
              challenge_B busy_world)
    as (row & w' & Hrow & Hdelete & Hleft & _).
  - intros old [<-|[<-|[<-|[]]]]; discriminate.
  - exists row, w'. split; [exact Hrow|]. split; [exact Hdelete|].
    rewrite Hleft. reflexivity.
Defined.

(** Discord refuses to add the role of the experts: the assignment
    answers [false] and user 42 has gained no role. *)
Lemma refused_expert_role_is_not_held :
  roles_held
    (fst (RoleManager.assignRankRole missing_permissions member_42 "g1"
            "expert" busy_world)) member_42
  ⊆ roles_held busy_world member_42.
Proof.
  refine (proj1 (failed_rank_assignment_grants_no_role missing_permissions
                   member_42 "g1" "expert" busy_world _ _)).
  vm_compute. reflexivity.
Defined.

(** The role of the experts, set up below the highest role of the bot,
    is the role that user 42 gets for the rank EXPERT. *)
Lemma expert_role_set_up_is_assigned :
  exists w',
    RoleManager.assignRankRole offline member_42 "g1" "EXPERT"
      (fst (Setup.handleRankRole "Expert" (Setup.mkRole "role-expert" 1)
              (Some "g1") (Some 5) busy_world))
    = (w', inr true)
    /\ "role-expert" ∈ roles_held w' member_42.
Proof.
  apply (rank_role_set_up_is_the_role_assigned offline "Expert"
           (Setup.mkRole "role-expert" 1) "g1" (Some 5) member_42 "EXPERT"
           busy_world).
  - vm_compute. reflexivity.
  - reflexivity.
  - reflexivity.
  - reflexivity.
  - reflexivity.
  - eexists. split; [vm_compute; reflexivity|]. set_solver.
  - reflexivity.
  - reflexivity.
Defined.

(** The compile error of alice verifies her account: the session of
    the challenge is gone and the session of bob is left. *)
Lemma verified_challenge_is_consumed :
  pending_verifications
    (fst (Verify.verifyPending early_compile_error "42" "g1" member_42
            challenge_A busy_world))
  = [challenge_A_old; challenge_of_bob].
Proof.
  destruct (verified_session_is_consumed_and_its_account_linked
              early_compile_error "42" "g1" member_42 challenge_A busy_world
              (fst (Verify.verifyPending early_compile_error "42" "g1"
                      member_42 challenge_A busy_world))
              "alice" "Account verified successfully!" None
              (RoleManager.mkResults true false []))
    as (_ & Hpending & _).
  - vm_compute. reflexivity.
  - rewrite Hpending. reflexivity.
Defined.

(** A wrong answer verifies nothing: the accounts are as before. *)
Lemma wrong_answer_links_nothing :
  linked_accounts
    (fst (Verify.verifyPending wrong_answer "42" "g1" member_42
            challenge_A busy_world))
  = linked_accounts busy_world.
Proof.
  destruct (failed_verification_links_nothing_and_keeps_the_session
              wrong_answer "42" "g1" member_42 challenge_A busy_world
              (fst (Verify.verifyPending wrong_answer "42" "g1"
                      member_42 challenge_A busy_world))
              "alice"
              ("Found submission but verdict was " +:+ Js.dq +:+ "WRONG_ANSWER"
               +:+ Js.dq +:+ " instead of " +:+ Js.dq +:+ "COMPILATION_ERROR"
               +:+ Js.dq)
              (Some "https://codeforces.com/problemset/problem/1500/A")
              (Some "Watermelon") (Some "10m 0s"))
    as (_ & Hlinked & _).
  - vm_compute. reflexivity.
  - exact Hlinked.
Defined.

(** User 46 links the handle erin: the table holds one session of the
    key, on the problem of the catalogue, which expires ten minutes
    after the reading of the clock, the local time being UTC. *)
Lemma challenge_of_erin_is_the_session_of_her_key :
  exists row,
    sessions_of ("46", "g1", "erin")
      (pending_verifications
         (fst (Link.handleLinkCodeforces codeforces_up ilike_plain None
                 "erin" "46" (Some "g1") busy_world)))
    = [row]
    /\ PendingVerification.problem_id row = "1500A"
    /\ PendingVerification.expires_at row = 600000.
Proof.
  destruct (link_replaces_the_session_of_the_handle codeforces_up ilike_plain
              None "erin" "46" (Some "g1") busy_world
              (fst (Link.handleLinkCodeforces codeforces_up ilike_plain None
                      "erin" "46" (Some "g1") busy_world))
              (Link.mkChallenge
                 (UserInfo.mk "erin" "pupil" 1600 "pupil" 1600 None None)
                 (RandomProblem.mk "1500A" 1500 "A" "Watermelon" 1600
                    "https://codeforces.com/problemset/problem/1500/A")
                 600000 "10m 0s"))
    as (g & row & n & Hg & Hone & _ & Hid & _ & _ & Hexpires & _).
  - vm_compute. reflexivity.
  - injection Hg as <-. exists row. split; [exact Hone|].
    split; [exact Hid|exact Hexpires].
Defined.

(** Five minutes before the clocks go back in New York, a deadline of
    ten minutes lies seventy minutes ahead. *)
Example deadline_across_the_end_of_summer_time :
  snd (Time.getExpirationTime new_york_fall_back 10 empty_world)
  = inr (1730613300000 + 70 * 60000).
Proof. vm_compute. reflexivity. Qed.

(** Bob has linked the handle bob in g1: user 42 cannot link Bob. *)
Lemma handle_of_bob_is_refused_to_another_user :
  snd (Link.execute codeforces_up ilike_plain None "Bob" "42" (Some "g1")
         busy_world)
  = inr (Link.AlreadyLinked "Bob").
Proof.
  destruct (username_matching_a_row_of_another_user_gets_no_challenge
              codeforces_up ilike_plain None "Bob" "42" "g1" busy_world)
    as (w' & reply & Hrun & _ & _ & Hreply).
  - exists account_of_bob. split; [right; left; reflexivity|].
    split; [reflexivity|]. split; [reflexivity|].
    split; [reflexivity|discriminate].
  - rewrite Hrun. cbn [snd]. f_equal. apply Hreply; [reflexivity|].
    vm_compute. reflexivity.
Defined.

(** The test is made on the username as typed, the session is created
    for the handle that Codeforces answers: typed as a list of handles,
    the handle of bob, which user 43 has linked, is given a challenge
    for user 42. *)
Example typed_username_is_what_is_tested :
  exists challenge,
    snd (Link.execute answers_bob ilike_plain None "bob;alice" "42"
           (Some "g1") busy_world)
    = inr (Link.Verification challenge)
    /\ UserInfo.handle (Link.userInfo challenge) = "bob".
Proof. eexists. split; vm_compute; reflexivity. Qed.

(** Bob, stored as a pupil, has become an expert and has left the
    guild: the sync stores the new rank. *)
Lemma new_rank_of_bob_is_stored :
  linked_accounts
    (fst (RoleSync.syncAccountBody everybody_left "g1" account_of_bob
            busy_world))
  = [account 1 "42" "g1" "alice" (Some "newbie");
     account 2 "43" "g1" "bob" (Some "expert");
     account 3 "44" "g2" "carol" None;
     account 4 "45" "g1" "dave" None].
Proof.
  destruct (changed_rank_is_stored_whatever_becomes_of_the_role
              everybody_left "g1" account_of_bob busy_world
              (fst (CodeforcesService.getUserInfo everybody_left "bob"
                      busy_world))
              (UserInfo.mk "bob" "expert" 1600 "expert" 1600 None None))
    as (Hlinked & _).
  - vm_compute. reflexivity.
  - reflexivity.
  - discriminate.
  - rewrite Hlinked. reflexivity.
Defined.

(** ... and processing the account throws nothing. *)
Lemma departure_of_bob_is_no_error :
  snd (RoleSync.syncAccountBody everybody_left "g1" account_of_bob busy_world)
  = inr tt.
Proof.
  destruct (member_who_left_is_no_error everybody_left "g1" account_of_bob
              busy_world
              (fst (CodeforcesService.getUserInfo everybody_left "bob"
                      busy_world))
              (UserInfo.mk "bob" "expert" 1600 "expert" 1600 None None)
              "Unknown Member")
    as (w' & Hrun & _).
  - vm_compute. reflexivity.
  - reflexivity.
  - discriminate.
  - exists account_of_bob. split; [right; left; reflexivity|reflexivity].
  - intros w0. reflexivity.
  - rewrite Hrun. reflexivity.
Defined.

(** The ranks of the three accounts of g1 have changed and Discord
    refuses to fetch their members: each of them has its entry in the
    errors, and none of the roles counts as updated. *)
Example refused_fetches_are_recorded :
  snd (RoleSync.syncAllRoles fetch_refused busy_world)
  = inr (SyncResults.mk 3 0
           ["Failed to sync alice in guild g1: Missing Access";
            "Failed to sync bob in guild g1: Missing Access";
            "Failed to sync dave in guild g1: Missing Access"]
           1).
Proof. vm_compute. reflexivity. Qed.

(** The leaderboard of g1 answers and leaves the store alone. *)
Lemma leaderboard_of_g1_answers :
  exists w' reply,
    Leaderboard.execute everybody_left all_codeforces (Some "g1") busy_world
    = (w', inr reply)
    /\ same_store_and_roles busy_world w'.
Proof.
  destruct (leaderboard_shows_the_accounts_that_can_be_looked_up
              everybody_left all_codeforces "g1" busy_world eq_refl)
    as (w' & reply & data & Hrun & Hframe & _).
  exists w', reply. split; [exact Hrun|exact Hframe].
Defined.

End MoreInstances.
